(** * GPS-disciplined FE-5680A controller (GPSDO_FE_v3.c)

    A shallow embedding of the disciplining firmware: the interrupt
    handlers, the NMEA sentence handler, the oscillator tuning frame and
    the main control loop, followed by the properties established about
    them.

    Conventions of the embedding.
    - C integers are [Z] with the wrap-around of their width written out
      ([unsigned char] 8 bits, [int]/[unsigned int] 16 bits on the AVR,
      [long]/[unsigned long] 32 bits).
    - [double] quantities are exact rationals [Q]: the arithmetic of the
      source is kept operation for operation, rounding is not modelled.
      A value assigned to a [double] variable is stored in lowest terms
      ([store]), which is the same rational number.
    - A computation that the C standard leaves undefined (conversion of an
      out-of-range [double] to an integer, the difference of a null
      pointer) and a division by zero are explicit faults of the [res]
      monad.
    - The diagnostic text and the LEDs are left out of the main loop; the
      transmit queue the text goes through and the push button are
      modelled on their own.  The bytes written to the oscillator UART
      are kept in [osc_out]. *)

From Stdlib Require Import ZArith QArith Qabs Qround List Bool Lia Lqa String Ascii.
Import ListNotations.
Open Scope Z_scope.

(** ** Machine integers *)

Definition wrap8u (x : Z) : Z := x mod 256.
Definition wrap16u (x : Z) : Z := x mod 65536.
Definition wrap32u (x : Z) : Z := x mod 4294967296.
Definition wrap16s (x : Z) : Z := (x + 32768) mod 65536 - 32768.
Definition wrap32s (x : Z) : Z := (x + 2147483648) mod 4294967296 - 2147483648.

(** ** Faults and the result monad *)

Inductive fault : Type :=
| DivByZero
| Undefined.

Inductive res (A : Type) : Type :=
| Ok (a : A)
| Fault (f : fault).
Arguments Ok {A} a.
Arguments Fault {A} f.

Definition bind {A B : Type} (m : res A) (k : A -> res B) : res B :=
  match m with
  | Ok a => k a
  | Fault f => Fault f
  end.

Notation "x <- m ;; k" := (bind m (fun x => k))
  (at level 61, m at next level, right associativity).

(** ** The [double] operations the firmware uses *)

Definition fdiv (a b : Q) : res Q :=
  if Qeq_bool b 0 then Fault DivByZero else Ok (a / b)%Q.

Definition zdiv (a b : Z) : res Z :=
  if b =? 0 then Fault DivByZero else Ok (a / b).

Definition fabs (a : Q) : Q := Qabs a.

(** Assignment to a [double] variable. *)
Definition store (a : Q) : Q := Qred a.
Arguments store : simpl never.

(** [(long) x] and [(int) x]: truncation toward zero, undefined when the
    truncated value does not fit. *)
Definition Qtrunc (a : Q) : Z := Z.quot (Qnum a) (Zpos (Qden a)).

Definition to_long (a : Q) : res Z :=
  let z := Qtrunc a in
  if (-2147483648 <=? z) && (z <=? 2147483647) then Ok z else Fault Undefined.

Definition to_int (a : Q) : res Z :=
  let z := Qtrunc a in
  if (-32768 <=? z) && (z <=? 32767) then Ok z else Fault Undefined.

(** ** Compile-time options (the FE-5680A build: [FE405] undefined) *)

Definition F_CPU : Z := 30000000.
Definition BIT_REDUCE : Z := 2.
Definition GAIN : Z := Z.shiftr 1466 BIT_REDUCE.
Definition START_GAIN : Q := (inject_Z GAIN / 100)%Q.
Definition TC_FAST : Z := 100.
Definition TC_MED : Z := 1800.
Definition TC_SLOW : Z := 7200.
Definition DAMPING : Q := (175 # 100)%Q.
Definition DAC_SIGN : Z := 1.
Definition QE_COMPENSATION : Q := (15 # 10)%Q.
Definition PHASE_ADC_MIDPOINT : Z := 1024.
Definition RX_BUF_LEN : Z := 96.

Definition MODE_START : Z := 0.
Definition MODE_FAST : Z := 1.
Definition MODE_MED : Z := 2.
Definition MODE_SLOW : Z := 3.

(** ** Control state *)

Record control : Type := mkControl {
  last_dac_value : Z;
  iTerm : Q;
  trim_value : Q;
  average_phase_error : Q;
  average_pps_error : Q;
  mode : Z;
  exit_timer : Z;
  enter_timer : Z;
  osc_out : list Z
}.

Definition set_iTerm (c : control) (v : Q) : control :=
  mkControl (last_dac_value c) (store v) (trim_value c) (average_phase_error c)
    (average_pps_error c) (mode c) (exit_timer c) (enter_timer c) (osc_out c).
Definition set_trim_value (c : control) (v : Q) : control :=
  mkControl (last_dac_value c) (iTerm c) (store v) (average_phase_error c)
    (average_pps_error c) (mode c) (exit_timer c) (enter_timer c) (osc_out c).
Definition set_average_phase_error (c : control) (v : Q) : control :=
  mkControl (last_dac_value c) (iTerm c) (trim_value c) (store v)
    (average_pps_error c) (mode c) (exit_timer c) (enter_timer c) (osc_out c).
Definition set_average_pps_error (c : control) (v : Q) : control :=
  mkControl (last_dac_value c) (iTerm c) (trim_value c) (average_phase_error c)
    (store v) (mode c) (exit_timer c) (enter_timer c) (osc_out c).
Definition set_mode (c : control) (v : Z) : control :=
  mkControl (last_dac_value c) (iTerm c) (trim_value c) (average_phase_error c)
    (average_pps_error c) v (exit_timer c) (enter_timer c) (osc_out c).
Definition set_exit_timer (c : control) (v : Z) : control :=
  mkControl (last_dac_value c) (iTerm c) (trim_value c) (average_phase_error c)
    (average_pps_error c) (mode c) v (enter_timer c) (osc_out c).
Definition set_enter_timer (c : control) (v : Z) : control :=
  mkControl (last_dac_value c) (iTerm c) (trim_value c) (average_phase_error c)
    (average_pps_error c) (mode c) (exit_timer c) v (osc_out c).

(** ** [mode_to_tc], [reset_pll], [downgrade_mode] *)

Definition mode_to_tc (m : Z) : Z :=
  if m =? MODE_START then TC_FAST
  else if m =? MODE_FAST then TC_FAST
  else if m =? MODE_MED then TC_MED
  else if m =? MODE_SLOW then TC_SLOW
  else 0.

Definition reset_pll (c : control) : res control :=
  trim <- (if negb (mode c =? MODE_START)
           then d <- fdiv (iTerm c) (inject_Z (mode_to_tc (mode c))) ;;
                Ok (store (trim_value c - d))
           else Ok (trim_value c)) ;;
  Ok (mkControl (last_dac_value c) 0 trim 0 0 MODE_START 0 (enter_timer c)
        (osc_out c)).

Definition downgrade_mode (c : control) : res control :=
  let enter := wrap16u (100 * mode c) in
  let m := wrap8u (mode c - 1) in
  ratio <- fdiv (inject_Z (mode_to_tc m)) (inject_Z (mode_to_tc (wrap8u (m + 1)))) ;;
  Ok (mkControl (last_dac_value c) (store (iTerm c * ratio)) (trim_value c)
        (average_phase_error c) (average_pps_error c) m (exit_timer c) enter
        (osc_out c)).

(** ** The oscillator tuning frame: [writeDacValue] *)

Definition xor_bytes (l : list Z) : Z := fold_left Z.lxor l 0.

(** The four octets of a [long], most significant first:
    [(unsigned char)(value >> (i * 8))] for [i = 3, 2, 1, 0]. *)
Definition octets (value : Z) : list Z :=
  map (fun i => wrap8u (Z.shiftr value (i * 8))) [3; 2; 1; 0].

Definition dac_frame (value : Z) (non_volatile : bool) : list Z :=
  let shifted := wrap32s (Z.shiftl value BIT_REDUCE) in
  let payload := octets shifted in
  [ (if non_volatile then 0x2c else 0x2e); 0x09; 0x00;
    (if non_volatile then 0x25 else 0x27) ]
  ++ payload ++ [xor_bytes payload].

Definition writeDacValue (value : Z) (non_volatile : bool) (c : control) : control :=
  if value =? last_dac_value c then c
  else mkControl value (iTerm c) (trim_value c) (average_phase_error c)
         (average_pps_error c) (mode c) (exit_timer c) (enter_timer c)
         (osc_out c ++ dac_frame value non_volatile).

(** ** C strings

    A buffer is the list of its bytes; the C string it holds is the prefix
    before the first NUL.  A [char*] into a C string is the suffix it
    points at. *)

Fixpoint bytes_of (s : string) : list Z :=
  match s with
  | EmptyString => []
  | String a s' => Z.of_N (N_of_ascii a) :: bytes_of s'
  end.

Fixpoint cstring (l : list Z) : list Z :=
  match l with
  | [] => []
  | c :: l' => if c =? 0 then [] else c :: cstring l'
  end.

(** [strchr(s, c)] for [c <> 0]: the suffix starting at the first [c]. *)
Fixpoint strchr (l : list Z) (c : Z) : option (list Z) :=
  match l with
  | [] => None
  | x :: l' => if x =? c then Some l else strchr l' c
  end.

Fixpoint index_of (c : Z) (l : list Z) (i : Z) : option Z :=
  match l with
  | [] => None
  | x :: l' => if x =? c then Some i else index_of c l' (i + 1)
  end.

Definition hexes : list Z := bytes_of "0123456789abcdef".

(** [strchr_P] also finds the terminating NUL of [hexes]. *)
Definition hexChar (c : Z) : Z :=
  let c := if (65 <=? c) && (c <=? 70) then wrap8u (c + (97 - 65)) else c in
  match index_of c (hexes ++ [0]) 0 with
  | Some i => i
  | None => 0
  end.

Fixpoint skip_commas (ptr : list Z) (num : nat) : option (list Z) :=
  match num with
  | O => Some ptr
  | S n =>
      match strchr ptr 44 with
      | None => None
      | Some p => skip_commas (tl p) n
      end
  end.

(** [strncmp_P(buf, lit, n) == 0] for a literal of [n] non-NUL characters. *)
Fixpoint list_eqb (a b : list Z) : bool :=
  match a, b with
  | [], [] => true
  | x :: a', y :: b' => (x =? y) && list_eqb a' b'
  | _, _ => false
  end.

Definition has_prefix (lit : string) (s : list Z) : bool :=
  let p := bytes_of lit in
  list_eqb (firstn (List.length p) s) p.

(** ** The sentence handler: [handleGPS] *)

Record gps : Type := mkGps {
  gps_locked : Z;
  pps_err_buf : list Z;
  pdop_buf : list Z;
  time_buf : list Z;
  date_buf : list Z
}.

(** The checksum loop: index of the first ['*'] at or after [i] (or the
    length of the line) and the XOR of the bytes passed. *)
Fixpoint checksum_scan (l : list Z) (i : Z) (checksum : Z) : Z * Z :=
  match l with
  | [] => (i, checksum)
  | c :: l' =>
      if c =? 42 then (i, checksum)
      else checksum_scan l' (i + 1) (Z.lxor checksum c)
  end.

(** [(strchr(ptr, ',')) - ptr], as [unsigned char], truncated to the
    capacity [cap] of the destination; the difference is undefined when
    no comma follows. *)
Definition field_len (ptr : list Z) (cap : Z) : res Z :=
  match strchr ptr 44 with
  | None => Fault Undefined
  | Some p =>
      let len := wrap8u (Z.of_nat (List.length ptr) - Z.of_nat (List.length p)) in
      Ok (if len >? cap then cap else len)
  end.

Definition handleGPS (rx_buf : list Z) (g : gps) : res gps :=
  let str_len := Z.of_nat (List.length rx_buf) in
  if str_len <? 9 then Ok g
  else
    let '(i, checksum) := checksum_scan (tl rx_buf) 1 0 in
    if i >? str_len - 3 then Ok g
    else
      let i := i + 1 in
      let sent_checksum :=
        wrap8u (Z.lor (Z.shiftl (hexChar (nth (Z.to_nat i) rx_buf 0)) 4)
                      (hexChar (nth (Z.to_nat (i + 1)) rx_buf 0))) in
      if negb (sent_checksum =? checksum) then Ok g
      else
        let ptr := cstring rx_buf in
        if has_prefix "$GPRMC" ptr then
          match skip_commas ptr 1 with
          | None => Ok g
          | Some ptr =>
              let g := mkGps (gps_locked g) (pps_err_buf g) (pdop_buf g)
                         (firstn 6 ptr) (date_buf g) in
              match skip_commas ptr 8 with
              | None => Ok g
              | Some ptr =>
                  Ok (mkGps (gps_locked g) (pps_err_buf g) (pdop_buf g)
                        (time_buf g) (firstn 6 ptr))
              end
          end
        else if has_prefix "$GPGSA" ptr then
          match skip_commas ptr 2 with
          | None => Ok g
          | Some ptr =>
              let c := hd 0 ptr in
              let g := mkGps (if (c =? 51) || (c =? 50) then 1 else 0)
                         (pps_err_buf g) (pdop_buf g) (time_buf g) (date_buf g) in
              match skip_commas ptr 13 with
              | None => Ok g
              | Some ptr =>
                  len <- field_len ptr 4 ;;
                  Ok (mkGps (gps_locked g) (pps_err_buf g)
                        (firstn (Z.to_nat len) ptr) (time_buf g) (date_buf g))
              end
          end
        else if has_prefix "$PSTI,00" ptr then
          match skip_commas ptr 4 with
          | None => Ok g
          | Some ptr =>
              len <- field_len ptr 4 ;;
              Ok (mkGps (gps_locked g) (firstn (Z.to_nat len) ptr)
                    (pdop_buf g) (time_buf g) (date_buf g))
          end
        else Ok g.

(** A line with its checksum appended, as a receiver would send it. *)
Definition hex_digit (n : Z) : Z := nth (Z.to_nat n) hexes 48.

Definition nmea (body : string) : list Z :=
  let b := bytes_of body in
  let ck := xor_bytes b in
  36 :: b ++ [42; hex_digit (Z.shiftr ck 4); hex_digit (Z.land ck 15)].

(** ** [atof]

    The library function, for the decimal syntax of the target's
    [strtod]: blanks, a sign, digits with an optional point, an optional
    exponent.  [None] stands for the non-finite results of ["inf"] and
    ["nan"], which have no rational value. *)

Definition isspace (c : Z) : bool := (c =? 32) || ((9 <=? c) && (c <=? 13)).
Definition isdigit (c : Z) : bool := (48 <=? c) && (c <=? 57).
Definition tolower (c : Z) : Z := if (65 <=? c) && (c <=? 90) then c + 32 else c.

Fixpoint skip_spaces (l : list Z) : list Z :=
  match l with
  | c :: l' => if isspace c then skip_spaces l' else l
  | [] => []
  end.

Fixpoint scan_digits (l : list Z) (acc : Z) (n : nat) : Z * nat * list Z :=
  match l with
  | c :: l' => if isdigit c then scan_digits l' (10 * acc + (c - 48)) (S n)
               else (acc, n, l)
  | [] => (acc, n, l)
  end.

Definition scan_sign (l : list Z) : bool * list Z :=
  match l with
  | 45 :: r => (true, r)
  | 43 :: r => (false, r)
  | _ => (false, l)
  end.

Definition pow10 (e : Z) : Q :=
  if e <? 0 then (1 # Pos.pow 10 (Z.to_pos (- e)))%Q else inject_Z (10 ^ e).

Definition scan_exponent (l : list Z) : Z :=
  match l with
  | c :: r =>
      if tolower c =? 101 then
        let '(eneg, r') := scan_sign r in
        let '(ev, ne, _) := scan_digits r' 0 0 in
        if (ne =? 0)%nat then 0 else if eneg then - ev else ev
      else 0
  | [] => 0
  end.

Definition atof (s : list Z) : option Q :=
  let '(neg, s) := scan_sign (skip_spaces s) in
  let low := map tolower (firstn 3 s) in
  if list_eqb low (bytes_of "inf") || list_eqb low (bytes_of "nan") then None
  else
    let '(ip, n1, s1) := scan_digits s 0 0 in
    let '(m, n2, s2) := match s1 with
                        | 46 :: r => scan_digits r ip 0
                        | _ => (ip, 0%nat, s1)
                        end in
    if (n1 + n2 =? 0)%nat then Some 0%Q
    else
      let v := (inject_Z m * pow10 (scan_exponent s2 - Z.of_nat n2))%Q in
      Some (if neg then (- v)%Q else v).


(** ** The whole machine *)

(** Interrupts are enabled while the main loop runs.  An interrupt
    handler runs as one step (the capture interrupt, of the higher
    level, cutting into the receive interrupt is not modelled).  The
    body of the main loop is cut where it
    hands over between the interrupt side and the control side, and an
    interrupt may be served at each cut: [AtHead] is the top of the
    [while(1)] body, [AtTakeQe] the atomic block that copies and clears
    the latch, [AtControl temp] the rest of the body, which reads the
    capture registers, holding the local copy [temp] of the latch. *)
Inductive loop_pc : Type :=
| AtHead
| AtTakeQe
| AtControl (temp : list Z).

Record capture : Type := mkCapture {
  pps_count : Z;
  irq_adc_value : Z;
  irq_time_span : Z;
  last_timer_val : Z
}.

(** One fused error observation: the capture registers read by the
    control tick and the quantization-error text it added to them.  The
    list [fused] of the observations made so far is a history variable;
    nothing in the program reads it. *)
Record observation : Type := mkObs {
  obs_adc : Z;
  obs_span : Z;
  obs_qe : list Z
}.

Record system : Type := mkSystem {
  ctl : control;
  cap : capture;
  nav : gps;
  rx_line : list Z;
  last_osc_locked : Z;
  last_gps_locked : Z;
  last_pps_count : Z;
  clk_rc32m : bool;
  pc : loop_pc;
  fused : list observation
}.

Definition set_ctl (s : system) (c : control) : system :=
  mkSystem c (cap s) (nav s) (rx_line s) (last_osc_locked s) (last_gps_locked s)
    (last_pps_count s) (clk_rc32m s) (pc s) (fused s).
Definition set_nav (s : system) (g : gps) : system :=
  mkSystem (ctl s) (cap s) g (rx_line s) (last_osc_locked s) (last_gps_locked s)
    (last_pps_count s) (clk_rc32m s) (pc s) (fused s).
Definition set_rx_line (s : system) (l : list Z) : system :=
  mkSystem (ctl s) (cap s) (nav s) l (last_osc_locked s) (last_gps_locked s)
    (last_pps_count s) (clk_rc32m s) (pc s) (fused s).
Definition set_pc (s : system) (p : loop_pc) : system :=
  mkSystem (ctl s) (cap s) (nav s) (rx_line s) (last_osc_locked s)
    (last_gps_locked s) (last_pps_count s) (clk_rc32m s) p (fused s).
Definition set_pps_err_buf (g : gps) (l : list Z) : gps :=
  mkGps (gps_locked g) l (pdop_buf g) (time_buf g) (date_buf g).

(** *** The capture interrupt, [ISR(TCC5_CCA_vect)] *)

Definition TCC5_CCA_vect (timer_val adc_value : Z) (s : system) : system :=
  let k := cap s in
  let k' := mkCapture (wrap32u (pps_count k + 1)) (wrap16u adc_value)
              (wrap32u (timer_val - last_timer_val k)) (wrap32u timer_val) in
  mkSystem (ctl s) k' (set_pps_err_buf (nav s) []) (rx_line s)
    (last_osc_locked s) (last_gps_locked s) (last_pps_count s) (clk_rc32m s)
    (pc s) (fused s).

(** *** The receive interrupt, [ISR(USARTC0_RXC_vect)]

    [rx_line] is [rx_buf[0 .. rx_str_len - 1]]. *)

Definition USARTC0_RXC_vect (rx_char : Z) (s : system) : res system :=
  if (Z.of_nat (List.length (rx_line s)) =? 0) && negb (rx_char =? 36) then Ok s
  else if (rx_char =? 13) || (rx_char =? 10) then
    g <- handleGPS (rx_line s) (nav s) ;;
    Ok (set_rx_line (set_nav s g) [])
  else
    let l := rx_line s ++ [rx_char] in
    if Z.of_nat (List.length l) =? RX_BUF_LEN then Ok (set_rx_line s [])
    else Ok (set_rx_line s l).

(** *** The main loop *)

(** What one pass of the loop reads from outside the program: whether the
    oscillator's lock pin reports lock ([(PORTC.IN & OSC_RDY) == 0]), and
    whether the button was just pushed with no blink in progress
    ([check_buttons() && button_blink_time == 0]). *)
Record inputs : Type := mkInputs {
  osc_lock_pin : bool;
  button : bool
}.

Definition Qltb (a b : Q) : bool := negb (Qle_bool b a).

(** Lines 705-722: the GPS lock edge. *)
Definition gps_edge (s : system) : res system :=
  let g := gps_locked (nav s) in
  if negb (g =? last_gps_locked s) then
    c <- (if negb (g =? 0) then Ok (ctl s)
          else if mode (ctl s) >? 0 then downgrade_mode (ctl s)
          else Ok (ctl s)) ;;
    Ok (mkSystem c (cap s) (nav s) (rx_line s) (last_osc_locked s) g
          (last_pps_count s) (clk_rc32m s) (pc s) (fused s))
  else Ok s.

(** Lines 725-738: the oscillator lock edge. *)
Definition osc_edge (osc_locked : Z) (s : system) : res system :=
  if negb (osc_locked =? last_osc_locked s) then
    c <- (if negb (osc_locked =? 0) then Ok (ctl s)
          else reset_pll (writeDacValue 0 false (ctl s))) ;;
    Ok (mkSystem c (cap s) (nav s) (rx_line s) osc_locked (last_gps_locked s)
          (last_pps_count s) (clk_rc32m s) (pc s) (fused s))
  else Ok s.

(** Lines 821-830: the non-volatile write on a button push. *)
Definition button_write (pushed : bool) (c : control) : res control :=
  if pushed && (mode c =? MODE_SLOW) then
    dac_value <- to_long (inject_Z DAC_SIGN * trim_value c) ;;
    Ok (writeDacValue dac_value true c)
  else Ok c.

(** Lines 692-862: from the top of the loop body to the point where an
    observation is about to be taken.  Every [continue] returns to
    [AtHead]. *)
Definition loop_head (inp : inputs) (s : system) : res system :=
  let osc_locked := if osc_lock_pin inp then 1 else 0 in
  s <- gps_edge s ;;
  s <- osc_edge osc_locked s ;;
  if negb (osc_locked =? 0) && clk_rc32m s then
    Ok (mkSystem (ctl s) (cap s) (nav s) (rx_line s) (last_osc_locked s)
          (last_gps_locked s) (last_pps_count s) false AtHead (fused s))
  else
    let unlocked := (gps_locked (nav s) =? 0) || (osc_locked =? 0) in
    c <- button_write (button inp) (ctl s) ;;
    let s := set_ctl s c in
    if last_pps_count s =? pps_count (cap s) then Ok s
    else
      match pps_err_buf (nav s) with
      | [] => Ok s
      | _ :: _ =>
          let s := mkSystem (ctl s) (cap s) (nav s) (rx_line s)
                     (last_osc_locked s) (last_gps_locked s)
                     (pps_count (cap s)) (clk_rc32m s) (pc s) (fused s) in
          if unlocked then Ok (set_nav s (set_pps_err_buf (nav s) []))
          else Ok (set_pc s AtTakeQe)
      end.

(** Lines 864-870: the atomic copy of the latch into [temp]. *)
Definition take_qe (s : system) : system :=
  set_pc (set_nav s (set_pps_err_buf (nav s) [])) (AtControl (pps_err_buf (nav s))).

(** Lines 879-891: the cycle count of the last second, split into whole
    seconds and the remainder. *)
Definition cycle_deltas (span : Z) : Z * Z :=
  let pps_cycle_delta := wrap32s (span - F_CPU) in
  let seconds_delta := wrap32u (pps_cycle_delta + F_CPU / 2) / F_CPU in
  let intracycle_delta :=
    wrap32s (pps_cycle_delta - wrap32s (wrap32u (seconds_delta * F_CPU))) in
  (seconds_delta, intracycle_delta).

(** Lines 923-925: the phase error in ns, ADC reading plus the rounded
    quantization error. *)
Definition phase_error (adc : Z) (temp : list Z) : res Z :=
  let base := Z.shiftr (wrap16s (PHASE_ADC_MIDPOINT - wrap16s adc)) 1 in
  match atof temp with
  | None => Fault Undefined
  | Some pps_err =>
      r <- to_int (QE_COMPENSATION * pps_err + (5 # 10))%Q ;;
      Ok (wrap16s (base + r))
  end.

(** Lines 929-937: the two rolling averages. *)
Definition update_filters (time_constant current_phase_error
                           intracycle_delta seconds_delta : Z)
                          (c : control) : res control :=
  let filter_time := inject_Z (time_constant / 10) in
  a <- fdiv (average_phase_error c) filter_time ;;
  let c := set_average_phase_error c (average_phase_error c - a)%Q in
  b <- fdiv (inject_Z current_phase_error) filter_time ;;
  let c := set_average_phase_error c (average_phase_error c + b)%Q in
  d <- fdiv (average_pps_error c) filter_time ;;
  let c := set_average_pps_error c (average_pps_error c - d)%Q in
  e <- fdiv (inject_Z intracycle_delta)
         (inject_Z (wrap32u (wrap32u (seconds_delta + 1) * (time_constant / 10)))) ;;
  Ok (set_average_pps_error c (average_pps_error c + e)%Q).

(** Lines 952-1001: the frequency-locked start mode. *)
Definition start_tick (c : control) : res control :=
  let adj_val :=
    ((inject_Z 1000000000 / inject_Z F_CPU) * average_pps_error c * START_GAIN)%Q in
  let c := set_trim_value c (trim_value c - adj_val)%Q in
  dac_value <- to_long (inject_Z DAC_SIGN * trim_value c) ;;
  let c := writeDacValue dac_value false c in
  if Qle_bool (fabs (average_pps_error c)) (25 # 100) then
    let c := set_exit_timer c (wrap16u (exit_timer c + 1)) in
    if ((60 <=? exit_timer c) && Qle_bool (fabs (average_phase_error c)) 20)
       || (600 <=? exit_timer c)
    then Ok (set_exit_timer (set_mode c MODE_FAST) 0)
    else Ok c
  else Ok (set_exit_timer c 0).

(** Lines 1016-1043: the test for a promotion. *)
Definition try_upgrade (c : control) : res control :=
  if negb (mode c =? MODE_SLOW) then
    if Qle_bool (fabs (average_phase_error c)) 5 then
      let c := set_exit_timer c (wrap16u (exit_timer c + 1)) in
      if wrap16u (wrap16s (200 * mode c * mode c)) <=? exit_timer c then
        let c := set_mode (set_exit_timer c 0) (wrap8u (mode c + 1)) in
        ratio <- fdiv (inject_Z (mode_to_tc (mode c)))
                      (inject_Z (mode_to_tc (wrap8u (mode c - 1)))) ;;
        Ok (set_iTerm c (iTerm c * ratio)%Q)
      else Ok c
    else Ok (set_exit_timer c 0)
  else Ok c.

(** Lines 1044-1056: the test for a demotion. *)
Definition try_downgrade (c : control) : res control :=
  if negb (mode c =? MODE_FAST) then
    if enter_timer c >? 0 then Ok (set_enter_timer c (wrap16u (enter_timer c - 1)))
    else if Qle_bool (50 * inject_Z (mode c)) (fabs (average_phase_error c))
         then downgrade_mode c
         else Ok c
  else Ok c.

(** Lines 1089-1099: off-loading the integral term into the trim value. *)
Definition offload (time_constant : Z) (c : control) : control :=
  let iTerm_modulo := (1000 * inject_Z time_constant)%Q in
  if Qltb iTerm_modulo (fabs (iTerm c)) then
    let sign := if Qltb (iTerm c) 0 then -1 else 1 in
    let c := set_iTerm c (iTerm c - inject_Z sign * iTerm_modulo)%Q in
    set_trim_value c (trim_value c - inject_Z (sign * 1000))%Q
  else c.

(** Lines 1076-1087: the PI controller and the value written. *)
Definition pi_update (time_constant : Z) (c : control) : res control :=
  let pTerm := (average_phase_error c * inject_Z GAIN)%Q in
  i <- fdiv pTerm (inject_Z time_constant * DAMPING) ;;
  let c := set_iTerm c (iTerm c + i)%Q in
  adj_val <- fdiv (pTerm + iTerm c) (inject_Z time_constant) ;;
  dac_value <- to_long (inject_Z DAC_SIGN * (trim_value c - adj_val) + (5 # 10)) ;;
  Ok (writeDacValue dac_value false c).

(** Lines 1003-1099: the phase-locked modes. *)
Definition pll_tick (c : control) : res control :=
  if Qle_bool (5 # 10) (fabs (average_pps_error c)) then reset_pll c
  else
    c <- try_upgrade c ;;
    c <- try_downgrade c ;;
    let time_constant := mode_to_tc (mode c) in
    c <- pi_update time_constant c ;;
    Ok (offload time_constant c).

(** Lines 879-1130: the control tick proper, on the capture registers as
    they are when it runs and the local copy of the latch. *)
Definition control_tick (temp : list Z) (s : system) : res system :=
  let span := irq_time_span (cap s) in
  let adc := irq_adc_value (cap s) in
  let '(seconds_delta, intracycle_delta) := cycle_deltas span in
  q <- zdiv (wrap32u (Z.abs intracycle_delta)) (wrap32u (seconds_delta + 1)) ;;
  if q >? F_CPU / 10000 then Ok (set_pc s AtHead)
  else
    let time_constant := mode_to_tc (mode (ctl s)) in
    current_phase_error <- phase_error adc temp ;;
    c <- update_filters time_constant current_phase_error intracycle_delta
           seconds_delta (ctl s) ;;
    c <- (if mode c =? MODE_START then start_tick c else pll_tick c) ;;
    Ok (mkSystem c (cap s) (nav s) (rx_line s) (last_osc_locked s)
          (last_gps_locked s) (last_pps_count s) (clk_rc32m s) AtHead
          (fused s ++ [mkObs adc span temp])).

(** One step of the main loop, from wherever it stands. *)
Definition main_step (inp : inputs) (s : system) : res system :=
  match pc s with
  | AtHead => loop_head inp s
  | AtTakeQe => Ok (take_qe s)
  | AtControl temp => control_tick temp s
  end.

(** *** Executions *)

Inductive event : Type :=
| EvPulse (timer_val adc_value : Z)
| EvRx (rx_char : Z)
| EvMain (inp : inputs).

Definition step (e : event) (s : system) : res system :=
  match e with
  | EvPulse t a => Ok (TCC5_CCA_vect t a s)
  | EvRx c => USARTC0_RXC_vect c s
  | EvMain inp => main_step inp s
  end.

Fixpoint run (es : list event) (s : system) : res system :=
  match es with
  | [] => Ok s
  | e :: es' => s' <- step e s ;; run es' s'
  end.

(** The state main() sets up before entering the loop (lines 624-653). *)
Definition boot : system :=
  mkSystem (mkControl 0x7fffffff 0 0 0 0 MODE_START 0 0 [])
    (mkCapture 0 0 0 0) (mkGps 0 [] [] [] []) [] 0xff 0xff 0 true AtHead [].

Inductive reachable : system -> Prop :=
| reach_boot : reachable boot
| reach_step : forall e s s', reachable s -> step e s = Ok s' -> reachable s'.

(** A whole sentence arriving, terminated by a carriage return. *)
Definition rx_sentence (line : list Z) : list event :=
  map EvRx (line ++ [13]).

(** One pass of the loop body with no interrupt in between: from the top
    of the body until control is back there. *)
Definition main_iter (inp : inputs) (s : system) : res system :=
  s1 <- loop_head inp s ;;
  match pc s1 with
  | AtTakeQe => control_tick (pps_err_buf (nav s1)) (take_qe s1)
  | _ => Ok s1
  end.

Fixpoint main_iters (inps : list inputs) (s : system) : res system :=
  match inps with
  | [] => Ok s
  | inp :: inps' => s' <- main_iter inp s ;; main_iters inps' s'
  end.

(** ** Reference definitions the properties are stated against *)

(** What it means for a line to carry a matching checksum: after its
    first byte comes a body free of ['*'], then ['*'] and two characters
    which, read as hexadecimal digits the way the handler reads them
    ([hexChar]), give the XOR of the body. *)
Definition hex_pair (d1 d2 : Z) : Z :=
  wrap8u (Z.lor (Z.shiftl (hexChar d1) 4) (hexChar d2)).

Definition checksum_matches (line : list Z) : Prop :=
  exists first body d1 d2 rest,
    line = first :: body ++ 42 :: d1 :: d2 :: rest /\
    ~ In 42 body /\
    xor_bytes body = hex_pair d1 d2.

(** The number of commas of a sentence. *)
Definition commas (l : list Z) : nat := count_occ Z.eq_dec l 44.

(** Modelled from the spec: the receiving end of the tuning frame, which
    is the oscillator and has no code in this repository.  A frame is
    [opcode, length_lo, length_hi, header_checksum, four payload bytes
    most significant first, payload_checksum]; the header checksum covers
    the three header bytes before it (0x25 and 0x27 are the XOR of the
    bytes the firmware sends ahead of them), the payload checksum is the
    XOR of the four payload bytes. *)
Definition frame_valid (f : list Z) : bool :=
  match f with
  | [op; lo; hi; hck; p3; p2; p1; p0; pck] =>
      (hck =? Z.lxor (Z.lxor op lo) hi) && (pck =? xor_bytes [p3; p2; p1; p0])
  | _ => false
  end.

(** Modelled from the spec: decoding gives back the persistence flag from
    the opcode and the tuning value from the payload, read as a signed
    32-bit number and shifted back down by [BIT_REDUCE]. *)
Definition decode_frame (f : list Z) : option (Z * bool) :=
  if frame_valid f then
    match f with
    | [op; lo; hi; hck; p3; p2; p1; p0; pck] =>
        let w := wrap32s (((p3 * 256 + p2) * 256 + p1) * 256 + p0) in
        if op =? 0x2c then Some (Z.shiftr w BIT_REDUCE, true)
        else if op =? 0x2e then Some (Z.shiftr w BIT_REDUCE, false)
        else None
    | _ => None
    end
  else None.

Definition frame_length_field (f : list Z) : Z :=
  nth 1 f 0 + 256 * nth 2 f 0.

(** The mode is one of Start, Fast, Med, Slow. *)
Definition mode_ok (c : control) : Prop := 0 <= mode c <= 3.

(** A computation is [safe] for a postcondition when it returns a result
    satisfying it, or stops on undefined behaviour; it never divides by
    zero. *)
Definition safe {A : Type} (P : A -> Prop) (r : res A) : Prop :=
  match r with
  | Ok a => P a
  | Fault f => f = Undefined
  end.

(** How the mode may move in one step: stay, one up, one down, or back to
    Start. *)
Definition mode_move (m m' : Z) : Prop :=
  0 <= m' <= 3 /\ (m' = m \/ m' = m + 1 \/ m' = m - 1 \/ m' = MODE_START).

(** A frame with byte [i] replaced by [b]. *)
Fixpoint set_nth (i : nat) (b : Z) (l : list Z) : list Z :=
  match l, i with
  | [], _ => []
  | _ :: l', O => b :: l'
  | x :: l', S i' => x :: set_nth i' b l'
  end.

(** The bounds that hold between steps: the integral term within a
    thousand time constants of the mode, the averaged phase error within
    the range of the 16-bit samples it averages. *)
Definition bounded (c : control) : Prop :=
  (Qabs (iTerm c) <= 1000 * inject_Z (mode_to_tc (mode c)))%Q /\
  (Qabs (average_phase_error c) <= 32768)%Q.

(** What [reset_pll] leaves behind. *)
Definition was_reset (c : control) : Prop :=
  mode c = MODE_START /\ iTerm c = 0%Q /\ average_phase_error c = 0%Q /\
  average_pps_error c = 0%Q /\ exit_timer c = 0.

(** How one step may leave the control state: within the bounds, with
    the mode where it was, one up, one down, or reset to Start. *)
Definition moved (c c' : control) : Prop :=
  bounded c' /\
  (mode c' = mode c \/ mode c' = mode c + 1 \/ mode c' = mode c - 1 \/ was_reset c').

(** The two tests of the start mode, on the averages of this tick and
    the exit timer as it was before it: the frequency error is within a
    quarter of a unit; the count, this tick included, has reached 60 with
    the phase error within 20 ns, or has reached 600. *)
Definition pps_in (c : control) : Prop :=
  (Qabs (average_pps_error c) <= 25 # 100)%Q.

Definition exit_reached (c : control) : Prop :=
  (60 <= exit_timer c + 1 /\ (Qabs (average_phase_error c) <= 20)%Q)
  \/ 600 <= exit_timer c + 1.

(** What stays put over any number of passes of the loop while the latch
    is empty. *)
Definition still_waiting (s s' : system) : Prop :=
  pc s' = AtHead /\ fused s' = fused s /\ pps_err_buf (nav s') = [] /\
  last_pps_count s' = last_pps_count s /\ cap s' = cap s /\ mode_ok (ctl s').

(** A pass of the loop with the latch empty either leaves the machine
    waiting, or stops on the conversion of the trim value that a push of
    the button asks for. *)
Definition waits (pushed : Prop) (s : system) (r : res system) : Prop :=
  match r with
  | Ok s' => still_waiting s s'
  | Fault f => f = Undefined /\ pushed
  end.

(** ** Scenarios *)

(** The oscillator reports lock and the button is left alone. *)
Definition locked : inputs := mkInputs true false.

(** The receiver reports a 3D fix and the loop takes note of it (and of
    the oscillator lock, and switches the clock over). *)
Definition lock_up : list event :=
  rx_sentence (nmea "GPGSA,A,3,02,06,12,24,25,29,,,,,,,1.61,1.33,0.90")
  ++ [EvMain locked].

Definition psti (qe : string) : list Z :=
  nmea ("PSTI,00,2,0," ++ qe ++ ",,").

(** Second [k]: the pulse comes exactly [F_CPU] cycles after the last one
    with the phase detector reading [adc], the receiver sends its
    quantization-error sentence with the text [qe], and the loop makes a
    pass. *)
Definition second (adc : Z) (qe : string) (k : Z) : list event :=
  [EvPulse (k * F_CPU) adc]
  ++ rx_sentence (psti qe)
  ++ [EvMain locked; EvMain locked; EvMain locked].

Fixpoint seconds (adc : Z) (qe : string) (n : nat) (k : Z) : list event :=
  match n with
  | O => []
  | S n' => second adc qe k ++ seconds adc qe n' (k + 1)
  end.

(** Seconds with the phase detector at its midpoint. *)
Definition nominal_seconds (qe : string) (n : nat) (k : Z) : list event :=
  seconds PHASE_ADC_MIDPOINT qe n k.

(** Thirty seconds into Start mode, the phase detector twelve
    nanoseconds off its midpoint throughout. *)
Definition half_minute_in_start : list event :=
  lock_up ++ seconds 1000 "0.0" 30 1.

(** The receiver reports that it has no fix any more, and the loop makes
    a pass. *)
Definition fix_lost : list event :=
  rx_sentence (nmea "GPGSA,A,1,,,,,,,,,,,,,99.9,99.9,99.9")
  ++ [EvMain locked].

(** Slow mode, fix just lost. *)
Definition slow_fix_lost : system :=
  mkSystem (mkControl 0 7200 0 3 0 MODE_SLOW 0 0 [])
    (mkCapture 5 1024 F_CPU 0) (mkGps 0 [] [] [] []) [] 1 1 5 false AtHead [].

(** Fast mode with the integral term just past a thousand time constants. *)
Definition fast_wound_up : control :=
  mkControl 0 100500 0 0 0 MODE_FAST 0 0 [].

(** The machine after lock with one capture pending and no
    quantization-error text. *)
Definition pulse_pending : system :=
  match run (lock_up ++ [EvPulse F_CPU 1000]) boot with
  | Ok s => s
  | Fault _ => boot
  end.

(** Pulse 1 (phase detector at 900) is followed by its quantization-error
    sentence, 5.8 ns; the loop starts its pass, takes the text out of the
    latch, and is then interrupted by pulse 2 (phase detector at 1100)
    before it has read the capture registers. *)
Definition preempted_pass : list event :=
  lock_up
  ++ [EvPulse F_CPU 900]
  ++ rx_sentence (psti "5.8")
  ++ [EvMain locked; EvMain locked]
  ++ [EvPulse (2 * F_CPU) 1100]
  ++ [EvMain locked].

(** The quantization-error sentence of pulse 2 then arrives, 1.0 ns, and
    the loop makes its next pass. *)
Definition preempted_pass_then_next : list event :=
  preempted_pass
  ++ rx_sentence (psti "1.0")
  ++ [EvMain locked; EvMain locked; EvMain locked].

(** After lock, a pulse with the phase detector at 1000 and no
    quantization-error sentence: the state of affairs after [n] passes
    of the loop in which the capture has not been processed. *)
Definition still_pending_after (n : nat) : Prop :=
  exists s,
    run (lock_up ++ [EvPulse F_CPU 1000] ++ repeat (EvMain locked) n) boot = Ok s /\
    pc s = AtHead /\
    irq_adc_value (cap s) = 1000 /\
    fused s = [] /\
    average_phase_error (ctl s) = 0%Q /\
    last_pps_count s = 0 /\ pps_count (cap s) = 1.

(** ** The diagnostic transmit queue: [tx_char], [ISR(USARTC0_DRE_vect)]

    [txbuf] is a ring of [TX_BUF_LEN] characters between the main
    program, which writes at [txbuf_head], and the data-register-empty
    interrupt, which sends from [txbuf_tail].  [tx_wire] collects the
    bytes written to [USARTC0.DATA]; [dre_enabled] is the interrupt
    level bit of [USARTC0.CTRLA]. *)

Definition TX_BUF_LEN : Z := 128.

Record txq : Type := mkTxq {
  txbuf : list Z;
  txbuf_head : Z;
  txbuf_tail : Z;
  dre_enabled : bool;
  tx_wire : list Z
}.

Definition USARTC0_DRE_vect (q : txq) : txq :=
  if txbuf_head q =? txbuf_tail q then
    mkTxq (txbuf q) (txbuf_head q) (txbuf_tail q) false (tx_wire q)
  else
    let wire := tx_wire q ++ [nth (Z.to_nat (txbuf_tail q)) (txbuf q) 0] in
    let tail := wrap16u (txbuf_tail q + 1) in
    mkTxq (txbuf q) (txbuf_head q) (if tail =? TX_BUF_LEN then 0 else tail)
      (dre_enabled q) wire.

(** The occupancy [tx_char] computes in its wait loop. *)
Definition buf_in_use (q : txq) : Z :=
  let d := wrap16s (wrap16u (txbuf_head q - txbuf_tail q)) in
  if d <? 0 then d + TX_BUF_LEN else d.

(** [tx_char] spins while the queue holds [TX_BUF_LEN - 2] characters or
    more, until the interrupt has made room: [None] is the call that
    cannot proceed in the state it is made in. *)
Definition tx_char (c : Z) (q : txq) : option txq :=
  if buf_in_use q >=? TX_BUF_LEN - 2 then None
  else
    let buf := set_nth (Z.to_nat (txbuf_head q)) c (txbuf q) in
    let head := wrap16u (txbuf_head q + 1) in
    Some (mkTxq buf (if head =? TX_BUF_LEN then 0 else head) (txbuf_tail q)
            true (tx_wire q)).

(** [tx_str] and [tx_pstr]: the characters of a string, one call each. *)
Fixpoint tx_str (buf : list Z) (q : txq) : option txq :=
  match buf with
  | [] => Some q
  | c :: buf' =>
      match tx_char c q with
      | None => None
      | Some q' => tx_str buf' q'
      end
  end.

(** The queue as main() leaves it (line 642), on a zeroed buffer. *)
Definition tx_boot : txq := mkTxq (repeat 0 (Z.to_nat TX_BUF_LEN)) 0 0 false [].

(** Calls of [tx_char] from the main program interleaved with the
    interrupt, which is served only while it is enabled. *)
Inductive tx_event : Type :=
| TxChar (c : Z)
| TxDre.

Definition tx_step (e : tx_event) (q : txq) : option txq :=
  match e with
  | TxChar c => tx_char c q
  | TxDre => Some (if dre_enabled q then USARTC0_DRE_vect q else q)
  end.

Fixpoint tx_run (es : list tx_event) (q : txq) : option txq :=
  match es with
  | [] => Some q
  | e :: es' =>
      match tx_step e q with
      | None => None
      | Some q' => tx_run es' q'
      end
  end.

(** The characters queued and not yet sent: the ring from [txbuf_tail]
    up to [txbuf_head]. *)
Definition tx_in_use (q : txq) : Z := (txbuf_head q - txbuf_tail q) mod TX_BUF_LEN.

Definition tx_slot (q : txq) (i : nat) : Z :=
  nth (Z.to_nat ((txbuf_tail q + Z.of_nat i) mod TX_BUF_LEN)) (txbuf q) 0.

Definition tx_pending (q : txq) : list Z :=
  map (tx_slot q) (seq 0 (Z.to_nat (tx_in_use q))).

Definition tx_chars (es : list tx_event) : list Z :=
  flat_map (fun e => match e with TxChar c => [c] | TxDre => [] end) es.

(** What holds of the queue between calls: the indices inside the
    buffer, at most [TX_BUF_LEN - 2] characters queued, and the interrupt
    enabled while any is. *)
Definition tx_ok (q : txq) : Prop :=
  List.length (txbuf q) = Z.to_nat TX_BUF_LEN /\
  0 <= txbuf_head q < TX_BUF_LEN /\
  0 <= txbuf_tail q < TX_BUF_LEN /\
  tx_in_use q <= TX_BUF_LEN - 2 /\
  (tx_in_use q <> 0 -> dre_enabled q = true).

(** ** The push button: [check_buttons]

    [now] is the value [timer_value()] returns and [port_in] the value
    read from [PORTD.IN]; the result is the new state and the value
    returned.  The end of the function, which the source marks as never
    reached, is a fault. *)

Definition SW_BIT : Z := 32.
Definition DEBOUNCE_TICKS : Z := F_CPU / 20.

Record buttons : Type := mkButtons {
  debounce_time : Z;
  button_down : Z
}.

Definition check_buttons (now port_in : Z) (b : buttons) : res (buttons * Z) :=
  if negb (debounce_time b =? 0) && (wrap32u (now - debounce_time b) <? DEBOUNCE_TICKS)
  then Ok (b, 0)
  else
    let b := mkButtons 0 (button_down b) in
    let status := Z.lxor (wrap8u (Z.land port_in SW_BIT)) SW_BIT in
    if negb (xorb (button_down b =? 0) (status =? 0)) then Ok (b, 0)
    else
      let t := if now =? 0 then wrap32u (now + 1) else now in
      let b := mkButtons t (button_down b) in
      if (button_down b =? 0) && negb (status =? 0) then Ok (mkButtons t 1, 1)
      else if negb (button_down b =? 0) && (status =? 0) then Ok (mkButtons t 0, 0)
      else Fault Undefined.

(** The test at the head of [check_buttons]: a debounce interval is
    running at time [now]. *)
Definition debouncing (now : Z) (b : buttons) : bool :=
  negb (debounce_time b =? 0) && (wrap32u (now - debounce_time b) <? DEBOUNCE_TICKS).

(** ** The LEDs and the blink after a stored value

    Lines 793-830 of the main loop.  Each [now] is the value
    [timer_value()] returns where the source reads it; [unlocked] and
    [mode] are the values the loop has at that point.  An LED is [true]
    when its output bit is set. *)

Definition BUTTON_BLINK_TICKS : Z := F_CPU / 2.

Record panel : Type := mkPanel {
  switch : buttons;
  button_blink_time : Z;
  led0 : bool;
  led1 : bool
}.

(** Lines 793-819. *)
Definition show_leds (now : Z) (unlocked : bool) (mode : Z) (p : panel) : panel :=
  if negb (button_blink_time p =? 0) then
    let blink_pos := wrap32u (now - button_blink_time p) in
    if blink_pos >? BUTTON_BLINK_TICKS then mkPanel (switch p) 0 (led0 p) (led1 p)
    else
      let blink_pos := wrap16u (wrap32u (blink_pos * 4) / BUTTON_BLINK_TICKS) in
      if negb (Z.land blink_pos 1 =? 0)
      then mkPanel (switch p) (button_blink_time p) true true
      else mkPanel (switch p) (button_blink_time p) false false
  else if negb unlocked then
    mkPanel (switch p) (button_blink_time p)
      (negb (Z.land mode 1 =? 0)) (negb (Z.land mode 2 =? 0))
  else
    let blink_pos := now mod F_CPU in
    let blink_pos := wrap32u (4 * blink_pos) / F_CPU in
    if negb (Z.land blink_pos 1 =? 0)
    then mkPanel (switch p) (button_blink_time p) false true
    else mkPanel (switch p) (button_blink_time p) true false.

(** Lines 821-830: the result says whether the block that stores the
    trim value is entered. *)
Definition poll_button (now_poll now_blink port_in mode : Z) (p : panel)
  : res (panel * bool) :=
  r <- check_buttons now_poll port_in (switch p) ;;
  if negb (snd r =? 0) && (mode =? MODE_SLOW) && (button_blink_time p =? 0) then
    let t := if now_blink =? 0 then wrap32u (now_blink + 1) else now_blink in
    Ok (mkPanel (fst r) t (led0 p) (led1 p), true)
  else Ok (mkPanel (fst r) (button_blink_time p) (led0 p) (led1 p), false).

Definition panel_pass (now_led now_poll now_blink port_in : Z) (unlocked : bool)
                      (mode : Z) (p : panel) : res (panel * bool) :=
  poll_button now_poll now_blink port_in mode (show_leds now_led unlocked mode p).

(** ** Reference definitions for the further properties *)

(** The receive buffer between interrupts: inside its array, free of line
    ends, and starting with ['$'] when it holds anything. *)
Definition rx_ok (s : system) : Prop :=
  (Z.of_nat (List.length (rx_line s)) < RX_BUF_LEN) /\
  (rx_line s = [] \/ hd 0 (rx_line s) = 36) /\
  ~ In 13 (rx_line s) /\ ~ In 10 (rx_line s).

(** The text buffers inside their arrays ([pps_err_buf[5]], [pdop_buf[5]],
    [time_buf[7]], [date_buf[7]], a NUL included), the latch free of
    commas and NULs, the fix flag 0 or 1. *)
Definition nav_ok (g : gps) : Prop :=
  (gps_locked g = 0 \/ gps_locked g = 1) /\
  (List.length (pps_err_buf g) <= 4)%nat /\
  ~ In 0 (pps_err_buf g) /\ ~ In 44 (pps_err_buf g) /\
  (List.length (pdop_buf g) <= 4)%nat /\
  (List.length (time_buf g) <= 6)%nat /\
  (List.length (date_buf g) <= 6)%nat.

(** [x] lies between [a] and [b], whichever is the larger. *)
Definition between (a b x : Q) : Prop :=
  ((a <= b)%Q -> (a <= x <= b)%Q) /\ ((b <= a)%Q -> (b <= x <= a)%Q).

(** The tuning commands behind a stream of frames: the values and their
    persistence flags, no value the same as the one before it, the first
    different from [prev]. *)
Fixpoint frames (cmds : list (Z * bool)) : list Z :=
  match cmds with
  | [] => []
  | (v, nv) :: r => dac_frame v nv ++ frames r
  end.

Fixpoint no_repeat (prev : Z) (cmds : list (Z * bool)) : Prop :=
  match cmds with
  | [] => True
  | (v, _) :: r => v <> prev /\ no_repeat v r
  end.

(** What was written to the oscillator is a sequence of whole frames with
    no value repeated, and [last_dac_value] is the value of the last of
    them (the initial 0x7fffffff before the first). *)
Definition out_ok (c : control) : Prop :=
  exists cmds,
    osc_out c = frames cmds /\
    no_repeat 0x7fffffff cmds /\
    last_dac_value c = last (map fst cmds) 0x7fffffff.

(** The two timers within the thresholds they are compared with. *)
Definition timers_ok (c : control) : Prop :=
  0 <= exit_timer c <= 799 /\ 0 <= enter_timer c <= 300.

Definition ctl_ok (c : control) : Prop :=
  mode_ok c /\ timers_ok c /\ out_ok c.

(** ** Reference definitions of the revised properties *)



(** One tick of the control loop taken in Start mode, from [c] to [c']:
    the two filters on some observation, then the start branch
    (lines 929-1001). *)
Definition start_pass (c c' : control) : Prop :=
  mode c = MODE_START /\
  exists cpe icd sd t,
    update_filters (mode_to_tc (mode c)) cpe icd sd c = Ok t /\
    start_tick t = Ok c'.

(** A stretch of consecutive ticks taken in Start mode, [cs] the control
    states they leave one after the other, each with the averaged
    frequency error within a quarter of a unit. *)
Fixpoint start_stretch (c : control) (cs : list control) : Prop :=
  match cs with
  | [] => True
  | c' :: r => start_pass c c' /\ pps_in c' /\ start_stretch c' r
  end.

(** The exit test of Start mode on a count [n] of ticks and the
    averaged phase error of [c]. *)
Definition count_reached (n : Z) (c : control) : Prop :=
  (60 <= n /\ (Qabs (average_phase_error c) <= 20)%Q) \/ 600 <= n.

(** The oscillator drops its lock for one pass of the loop and has it
    back on the next. *)
Definition lock_blip : list event :=
  [EvMain (mkInputs false false); EvMain locked].

(** Thirty nominal seconds, the lock of the oscillator lost and back,
    thirty nominal seconds more. *)
Definition blip_after_thirty : list event :=
  lock_up ++ nominal_seconds "0.0" 30 1 ++ lock_blip ++ nominal_seconds "0.0" 30 31.

(** A hundred seconds into Fast mode the receiver loses its fix and
    has it back. *)
Definition fix_blip_in_fast : list event :=
  lock_up ++ nominal_seconds "0.0" 160 1 ++ fix_lost ++ lock_up.

(** The execution up to, and without, its last step. *)
Definition before_last (es : list event) : list event := removelast es.

(** ** Sanity checks of the embedding *)

Example handleGPS_gsa :
  handleGPS (nmea "GPGSA,A,3,02,06,12,24,25,29,,,,,,,1.61,1.33,0.90")
            (mkGps 0 [] [] [] [])
  = Ok (mkGps 1 [] (bytes_of "1.61") [] []).
Proof. vm_compute. reflexivity. Qed.

Example handleGPS_psti :
  handleGPS (bytes_of "$PSTI,00,2,0,5.8,,*3F") (mkGps 1 [] [] [] [])
  = Ok (mkGps 1 (bytes_of "5.8") [] [] []).
Proof. vm_compute. reflexivity. Qed.

Example handleGPS_rmc :
  handleGPS (nmea "GPRMC,172313.000,A,3723.2475,N,12158.3416,W,0.01,180.80,260516,,,D")
            (mkGps 1 [] [] [] [])
  = Ok (mkGps 1 [] [] (bytes_of "172313") (bytes_of "260516")).
Proof. vm_compute. reflexivity. Qed.

Example atof_5_8 : atof (bytes_of "5.8") = Some (58 # 10)%Q.
Proof. reflexivity. Qed.

Example atof_empty : atof [] = Some 0%Q.
Proof. reflexivity. Qed.

Example atof_neg : atof (bytes_of "-1.5") = Some (- (15 # 10))%Q.
Proof. reflexivity. Qed.

Example handleGPS_bad_checksum :
  handleGPS (bytes_of "$PSTI,00,2,0,5.8,,*3E") (mkGps 1 [] [] [] [])
  = Ok (mkGps 1 [] [] [] []).
Proof. vm_compute. reflexivity. Qed.

Example checksum_matches_psti :
  checksum_matches (bytes_of "$PSTI,00,2,0,5.8,,*3F").
Proof.
  exists 36, (bytes_of "PSTI,00,2,0,5.8,,"), 51, 70, [].
  split; [reflexivity |]. split; [| reflexivity].
  simpl. intros H. repeat (destruct H as [H | H]; [discriminate H |]). exact H.
Qed.

Example header_checksums :
  Z.lxor (Z.lxor 0x2c 0x09) 0x00 = 0x25 /\ Z.lxor (Z.lxor 0x2e 0x09) 0x00 = 0x27.
Proof. split; reflexivity. Qed.

(** ** Reset: the integral term is folded into the trim value *)

Lemma mode_to_tc_pos (m : Z) : 0 <= m <= 3 -> 100 <= mode_to_tc m.
Proof.
  intros H.
  assert (m = 0 \/ m = 1 \/ m = 2 \/ m = 3) as [-> | [-> | [-> | ->]]] by lia;
    vm_compute; discriminate.
Qed.

Lemma fdiv_ok (a b : Q) : ~ (b == 0)%Q -> fdiv a b = Ok (a / b)%Q.
Proof.
  intros H. unfold fdiv.
  destruct (Qeq_bool b 0) eqn:E; [apply Qeq_bool_iff in E; contradiction | reflexivity].
Qed.

Lemma inject_Z_nonzero (z : Z) : z <> 0 -> ~ (inject_Z z == 0)%Q.
Proof.
  intros H E. apply H. unfold Qeq in E. simpl in E. lia.
Qed.

Lemma fdiv_tc (a : Q) (m : Z) :
  0 <= m <= 3 -> fdiv a (inject_Z (mode_to_tc m)) = Ok (a / inject_Z (mode_to_tc m))%Q.
Proof.
  intros H. apply fdiv_ok, inject_Z_nonzero.
  pose proof (mode_to_tc_pos m H). lia.
Qed.

(** C2, as stated, fails: in Fast mode with an integral term of 100 and a
    trim value of 0 the reset leaves a trim value of -1, not of
    0 + 100/100 = 1. *)
Lemma reset_pll_plus_counterexample :
  exists c c',
    c = mkControl 0 100 0 0 0 MODE_FAST 0 0 [] /\
    reset_pll c = Ok c' /\
    ~ (trim_value c' == trim_value c + iTerm c / inject_Z (mode_to_tc (mode c)))%Q.
Proof.
  eexists. eexists. split; [reflexivity |]. split; [reflexivity |].
  vm_compute. discriminate.
Qed.

Lemma reset_pll_ok (c : control) :
  mode_ok c -> exists c', reset_pll c = Ok c' /\ mode c' = MODE_START.
Proof.
  intros Hm. unfold reset_pll.
  destruct (negb (mode c =? MODE_START)).
  - rewrite (fdiv_tc _ _ Hm). cbn [bind]. eexists. split; reflexivity.
  - cbn [bind]. eexists. split; reflexivity.
Qed.

(** C2 (amended): a reset in mode m among Fast, Med, Slow leaves
    trim_value = trim_value_before - i_term_before / tc(m); in Start mode
    it leaves the trim value alone; in every mode it zeroes the integral
    term, both averages and the exit timer and sets the mode to Start. *)
Theorem reset_pll_folds (c : control) :
  0 <= mode c <= 3 ->
  exists c',
    reset_pll c = Ok c' /\
    (mode c <> MODE_START ->
     trim_value c' == trim_value c - iTerm c / inject_Z (mode_to_tc (mode c)))%Q /\
    (mode c = MODE_START -> trim_value c' = trim_value c) /\
    iTerm c' = 0%Q /\
    exit_timer c' = 0 /\
    average_phase_error c' = 0%Q /\
    average_pps_error c' = 0%Q /\
    mode c' = MODE_START.
Proof.
  intros Hm. unfold reset_pll.
  destruct (mode c =? MODE_START) eqn:E; cbn [negb].
  - apply Z.eqb_eq in E. eexists. split; [reflexivity |].
    cbn [trim_value iTerm exit_timer average_phase_error average_pps_error mode].
    split; [intros; contradiction |]. tauto.
  - apply Z.eqb_neq in E. rewrite (fdiv_tc _ _ Hm). cbn [bind].
    eexists. split; [reflexivity |].
    cbn [trim_value iTerm exit_timer average_phase_error average_pps_error mode].
    split; [intros _; unfold store; apply Qred_correct |].
    split; [intros; contradiction |]. tauto.
Qed.

Lemma reset_pll_folds_witness :
  exists c',
    reset_pll (mkControl 0 100 0 0 0 MODE_MED 7 0 []) = Ok c' /\
    (trim_value c' == 0 - 100 / inject_Z (mode_to_tc MODE_MED))%Q /\
    iTerm c' = 0%Q /\ exit_timer c' = 0 /\ mode c' = MODE_START.
Proof.
  destruct (reset_pll_folds (mkControl 0 100 0 0 0 MODE_MED 7 0 []))
    as (c' & H & Hf & _ & Hi & He & _ & _ & Hmd).
  - unfold mode_ok; simpl; unfold MODE_MED; lia.
  - exists c'. split; [exact H |]. split; [apply Hf; simpl; discriminate |].
    split; [exact Hi |]. split; [exact He | exact Hmd].
Defined.

(** ** Loss of the GPS fix *)

Lemma downgrade_mode_ok (c : control) :
  1 <= mode c <= 3 ->
  downgrade_mode c =
  Ok (mkControl (last_dac_value c)
        (store (iTerm c * (inject_Z (mode_to_tc (mode c - 1))
                           / inject_Z (mode_to_tc (mode c)))))
        (trim_value c) (average_phase_error c) (average_pps_error c)
        (mode c - 1) (exit_timer c) (100 * mode c) (osc_out c)).
Proof.
  intros H. unfold downgrade_mode.
  assert (E1 : wrap8u (mode c - 1) = mode c - 1)
    by (unfold wrap8u; apply Z.mod_small; lia).
  assert (E2 : wrap16u (100 * mode c) = 100 * mode c)
    by (unfold wrap16u; apply Z.mod_small; lia).
  rewrite E1, E2.
  replace (wrap8u (mode c - 1 + 1)) with (mode c)
    by (unfold wrap8u; rewrite Z.mod_small; lia).
  rewrite fdiv_tc by lia. reflexivity.
Qed.

(** C3, as stated, fails: the fix is lost thirty seconds into Start
    mode; the pass of the loop that sees it leaves the control state as
    it is, the exit timer at 30 and the averaged phase error at its
    value, where a reset would have zeroed them. *)
Lemma gps_unlock_at_start_counterexample :
  exists s s',
    run half_minute_in_start boot = Ok s /\
    mode (ctl s) = MODE_START /\
    last_gps_locked s = 1 /\
    run fix_lost s = Ok s' /\
    gps_locked (nav s') = 0 /\
    last_gps_locked s' = 0 /\
    ctl s' = ctl s /\
    exit_timer (ctl s') = 30 /\
    ~ (average_phase_error (ctl s') == 0)%Q /\
    reset_pll (ctl s) <> Ok (ctl s').
Proof.
  eexists. eexists.
  split; [vm_compute; reflexivity |].
  split; [reflexivity |]. split; [reflexivity |].
  split; [vm_compute; reflexivity |].
  split; [reflexivity |]. split; [reflexivity |].
  split; [reflexivity |]. split; [reflexivity |].
  split; vm_compute; discriminate.
Qed.

(** C3 (amended): when the loop sees the fix status go from locked to
    unlocked it takes the mode down by one step if the mode is above
    Start ([enter_timer] set to 100 times the old mode, the integral term
    rescaled by the ratio of the time constants, everything else kept),
    and leaves the control state as it is if the mode is Start; the
    filter values play no part. *)
Theorem gps_unlock_edge (s : system) :
  gps_locked (nav s) = 0 ->
  last_gps_locked s <> 0 ->
  mode_ok (ctl s) ->
  exists s',
    gps_edge s = Ok s' /\
    last_gps_locked s' = 0 /\
    (mode (ctl s) = MODE_START -> ctl s' = ctl s) /\
    (MODE_START < mode (ctl s) ->
     downgrade_mode (ctl s) = Ok (ctl s') /\
     mode (ctl s') = mode (ctl s) - 1 /\
     enter_timer (ctl s') = 100 * mode (ctl s) /\
     (iTerm (ctl s') ==
        iTerm (ctl s) * (inject_Z (mode_to_tc (mode (ctl s) - 1))
                         / inject_Z (mode_to_tc (mode (ctl s)))))%Q /\
     trim_value (ctl s') = trim_value (ctl s) /\
     average_phase_error (ctl s') = average_phase_error (ctl s) /\
     average_pps_error (ctl s') = average_pps_error (ctl s) /\
     exit_timer (ctl s') = exit_timer (ctl s)).
Proof.
  intros Hg Hl Hm. unfold gps_edge. rewrite Hg.
  destruct (0 =? last_gps_locked s) eqn:E; [apply Z.eqb_eq in E; congruence |].
  simpl. unfold mode_ok, MODE_START in *.
  destruct (mode (ctl s) >? 0) eqn:Em.
  - apply Z.gtb_lt in Em.
    rewrite downgrade_mode_ok by lia. simpl.
    eexists. split; [reflexivity |]. simpl.
    split; [reflexivity |]. split; [intros; lia |].
    intros _. split; [reflexivity |]. split; [reflexivity |].
    split; [reflexivity |]. split; [unfold store; apply Qred_correct |].
    tauto.
  - assert (mode (ctl s) = 0) by (rewrite Z.gtb_ltb in Em; apply Z.ltb_ge in Em; lia).
    simpl. eexists. split; [reflexivity |]. simpl.
    split; [reflexivity |]. split; [reflexivity | intros; lia].
Qed.

Lemma gps_unlock_edge_witness :
  exists s',
    gps_edge slow_fix_lost = Ok s' /\
    mode (ctl s') = MODE_MED /\ enter_timer (ctl s') = 300.
Proof.
  destruct (gps_unlock_edge slow_fix_lost) as (s' & H & _ & _ & Hd).
  - reflexivity.
  - simpl. discriminate.
  - unfold mode_ok. simpl. unfold MODE_SLOW. lia.
  - exists s'. split; [exact H |].
    destruct Hd as (_ & Hmd & He & _); [reflexivity |].
    split; [exact Hmd | exact He].
Defined.

(** ** Integral anti-windup *)

Lemma Qltb_true (a b : Q) : Qltb a b = true <-> (a < b)%Q.
Proof.
  unfold Qltb. rewrite negb_true_iff. split; intros H.
  - apply Qnot_le_lt. intros L. apply Qle_bool_iff in L. congruence.
  - destruct (Qle_bool b a) eqn:E; [| reflexivity].
    apply Qle_bool_iff in E. exfalso. apply (Qlt_not_le _ _ H E).
Qed.

Lemma Qltb_false (a b : Q) : Qltb a b = false <-> (b <= a)%Q.
Proof.
  unfold Qltb. rewrite negb_false_iff. apply Qle_bool_iff.
Qed.

Lemma Qabs_neg_lt (x : Q) : (x < 0)%Q -> (Qabs x == - x)%Q.
Proof. intros H. apply Qabs_neg. apply Qlt_le_weak, H. Qed.

Section Offload.

Variable tc : Z.
Hypothesis tc_pos : 0 < tc.

Let T : Q := inject_Z tc.

Lemma T_pos : (0 < T)%Q.
Proof. unfold T, Qlt. simpl. lia. Qed.

(** The off-loading step moves 1000 time constants out of the integral
    term and 1000 out of the trim value, on the side the integral term
    is on. *)
Lemma offload_negative (c : control) :
  (1000 * T < Qabs (iTerm c))%Q -> (iTerm c < 0)%Q ->
  (iTerm (offload tc c) == iTerm c + 1000 * T)%Q /\
  (trim_value (offload tc c) == trim_value c + 1000)%Q.
Proof.
  intros Hbig Hneg. unfold offload, fabs. fold T.
  apply Qltb_true in Hbig. rewrite Hbig.
  apply Qltb_true in Hneg. rewrite Hneg.
  cbn [iTerm trim_value set_iTerm set_trim_value].
  change (inject_Z (-1)) with (-1 # 1)%Q.
  change (inject_Z (-1 * 1000)) with (-1000 # 1)%Q.
  unfold store. rewrite !Qred_correct.
  split; lra.
Qed.

Lemma offload_positive (c : control) :
  (1000 * T < Qabs (iTerm c))%Q -> (0 <= iTerm c)%Q ->
  (iTerm (offload tc c) == iTerm c - 1000 * T)%Q /\
  (trim_value (offload tc c) == trim_value c - 1000)%Q.
Proof.
  intros Hbig Hpos. unfold offload, fabs. fold T.
  apply Qltb_true in Hbig. rewrite Hbig.
  apply Qltb_false in Hpos. rewrite Hpos.
  cbn [iTerm trim_value set_iTerm set_trim_value].
  change (inject_Z 1) with (1 # 1)%Q.
  change (inject_Z (1 * 1000)) with (1000 # 1)%Q.
  unfold store. rewrite !Qred_correct.
  split; lra.
Qed.

Lemma offload_idle (c : control) :
  (Qabs (iTerm c) <= 1000 * T)%Q -> offload tc c = c.
Proof.
  intros H. unfold offload, fabs. fold T.
  apply Qltb_false in H. rewrite H. reflexivity.
Qed.

Lemma offload_shrinks (c : control) :
  (1000 * T < Qabs (iTerm c))%Q ->
  (Qabs (iTerm (offload tc c)) == Qabs (iTerm c) - 1000 * T)%Q.
Proof.
  intros Hbig. pose proof T_pos as HT.
  destruct (Qlt_le_dec (iTerm c) 0) as [Hneg | Hpos].
  - destruct (offload_negative c Hbig Hneg) as [Hi _].
    rewrite (Qabs_neg_lt _ Hneg) in *.
    rewrite Hi. rewrite Qabs_neg by lra. lra.
  - destruct (offload_positive c Hbig Hpos) as [Hi _].
    rewrite (Qabs_pos _ Hpos) in *.
    rewrite Hi. rewrite Qabs_pos by lra. lra.
Qed.

Lemma offload_net (c : control) (p : Q) :
  (trim_value (offload tc c) - (p + iTerm (offload tc c)) / T ==
   trim_value c - (p + iTerm c) / T)%Q.
Proof.
  pose proof T_pos as HT.
  destruct (Qlt_le_dec (1000 * T) (Qabs (iTerm c))) as [Hbig | Hsmall].
  - destruct (Qlt_le_dec (iTerm c) 0) as [Hneg | Hpos].
    + destruct (offload_negative c Hbig Hneg) as [Hi Ht].
      rewrite Hi, Ht. field. lra.
    + destruct (offload_positive c Hbig Hpos) as [Hi Ht].
      rewrite Hi, Ht. field. lra.
  - rewrite (offload_idle c Hsmall). reflexivity.
Qed.

End Offload.

Lemma bind_Ok {A B : Type} (m : res A) (k : A -> res B) (b : B) :
  bind m k = Ok b -> exists a, m = Ok a /\ k a = Ok b.
Proof.
  destruct m as [a | f]; simpl; intros H; [exists a; auto | discriminate].
Qed.

Lemma fdiv_Ok_inv (a b x : Q) : fdiv a b = Ok x -> ~ (b == 0)%Q /\ x = (a / b)%Q.
Proof.
  unfold fdiv. destruct (Qeq_bool b 0) eqn:E; intros H; [discriminate |].
  split; [| congruence].
  intros Hb. apply Qeq_bool_iff in Hb. congruence.
Qed.

Lemma mode_to_tc_nonneg (m : Z) : 0 <= mode_to_tc m.
Proof.
  unfold mode_to_tc.
  repeat match goal with |- context [if ?b then _ else _] => destruct b end;
    vm_compute; discriminate.
Qed.

Lemma writeDacValue_mode (v : Z) (nv : bool) (c : control) :
  mode (writeDacValue v nv c) = mode c.
Proof. unfold writeDacValue. destruct (v =? last_dac_value c); reflexivity. Qed.

Lemma pi_update_inv (tc : Z) (c c1 : control) :
  pi_update tc c = Ok c1 -> mode c1 = mode c /\ tc <> 0.
Proof.
  unfold pi_update. intros H.
  apply bind_Ok in H. destruct H as (i & _ & H).
  apply bind_Ok in H. destruct H as (adj & Hadj & H).
  apply bind_Ok in H. destruct H as (dv & _ & H).
  injection H as <-. split; [rewrite writeDacValue_mode; reflexivity |].
  apply fdiv_Ok_inv in Hadj. destruct Hadj as [Hnz _].
  intros ->. apply Hnz. reflexivity.
Qed.

(** On a phase-tracking tick that does not reset: [c1] is the control
    state once the PI update has been applied and the tuning value
    written; the tick ends with the off-loading step on [c1]. *)
Lemma offload_step (c c' : control) :
  Qle_bool (5 # 10) (fabs (average_pps_error c)) = false ->
  pll_tick c = Ok c' ->
  exists c0 c1 : control,
    (x <- try_upgrade c ;; try_downgrade x) = Ok c0 /\
    pi_update (mode_to_tc (mode c0)) c0 = Ok c1 /\
    mode c1 = mode c0 /\
    c' = offload (mode_to_tc (mode c1)) c1 /\
    let T := inject_Z (mode_to_tc (mode c1)) in
    (0 < T)%Q /\
    ((1000 * T < Qabs (iTerm c1))%Q ->
     (0 <= iTerm c1 ->
      iTerm c' == iTerm c1 - 1000 * T /\ trim_value c' == trim_value c1 - 1000)%Q /\
     (iTerm c1 < 0 ->
      iTerm c' == iTerm c1 + 1000 * T /\ trim_value c' == trim_value c1 + 1000)%Q /\
     (Qabs (iTerm c') == Qabs (iTerm c1) - 1000 * T)%Q /\
     (Qabs (iTerm c1) <= 2000 * T -> Qabs (iTerm c') <= 1000 * T)%Q) /\
    ((Qabs (iTerm c1) <= 1000 * T)%Q -> c' = c1) /\
    (forall p : Q,
       trim_value c' - (p + iTerm c') / T == trim_value c1 - (p + iTerm c1) / T)%Q.
Proof.
  intros Hnr H. unfold pll_tick in H. rewrite Hnr in H.
  apply bind_Ok in H. destruct H as (cu & Hu & H).
  apply bind_Ok in H. destruct H as (c0 & Hd & H).
  apply bind_Ok in H. destruct H as (c1 & Hpi & H).
  injection H as <-.
  destruct (pi_update_inv _ _ _ Hpi) as [Hmode Htc].
  pose proof (mode_to_tc_nonneg (mode c0)) as Hnn.
  assert (Hpos : 0 < mode_to_tc (mode c1)) by (rewrite Hmode; lia).
  exists c0, c1.
  split; [rewrite Hu; exact Hd |].
  split; [exact Hpi |].
  split; [exact Hmode |].
  rewrite <- Hmode. split; [reflexivity |].
  cbv zeta.
  split; [apply T_pos; exact Hpos |].
  split; [| split].
  - intros Hbig. split; [| split; [| split]].
    + intros Hp. apply (offload_positive _ c1 Hbig Hp).
    + intros Hn. apply (offload_negative _ c1 Hbig Hn).
    + apply (offload_shrinks _ Hpos c1 Hbig).
    + intros H2. rewrite (offload_shrinks _ Hpos c1 Hbig). lra.
  - intros Hs. apply (offload_idle _ c1 Hs).
  - intros p. apply (offload_net _ Hpos).
Qed.


(** ** The tuning frame *)

Lemma lxor_cancel_l (a b c : Z) : Z.lxor a b = Z.lxor a c -> b = c.
Proof.
  intros H.
  assert (E : Z.lxor a (Z.lxor a b) = Z.lxor a (Z.lxor a c)) by (rewrite H; reflexivity).
  rewrite <- !Z.lxor_assoc, Z.lxor_nilpotent, !Z.lxor_0_l in E. exact E.
Qed.

Lemma lxor_cancel_r (a b c : Z) : Z.lxor b a = Z.lxor c a -> b = c.
Proof.
  rewrite (Z.lxor_comm b a), (Z.lxor_comm c a). apply lxor_cancel_l.
Qed.

(** Any change of a single byte of a valid frame is caught by one of the
    two checksums. *)
Lemma frame_valid_single_byte (f : list Z) (i : nat) (b : Z) :
  frame_valid f = true ->
  (i < 9)%nat ->
  b <> nth i f 0 ->
  frame_valid (set_nth i b f) = false.
Proof.
  intros Hv Hi Hb.
  destruct f as [| op [| lo [| hi [| hck [| p3 [| p2 [| p1 [| p0 [| pck [| x f]]]]]]]]]];
    try discriminate Hv.
  unfold frame_valid in Hv. apply andb_true_iff in Hv. destruct Hv as [Hh Hp].
  apply Z.eqb_eq in Hh. apply Z.eqb_eq in Hp.
  unfold xor_bytes in Hp. simpl in Hp.
  do 9 (destruct i as [| i]; [simpl in Hb |- *; unfold xor_bytes; simpl;
    apply andb_false_iff;
    first [ left; apply Z.eqb_neq; intros E; apply Hb; subst;
            first [ reflexivity
                  | repeat (first [ apply lxor_cancel_r in E
                                  | apply lxor_cancel_l in E ]); congruence ]
          | right; apply Z.eqb_neq; intros E; apply Hb; subst;
            first [ reflexivity
                  | repeat (first [ apply lxor_cancel_r in E
                                  | apply lxor_cancel_l in E ]); congruence ] ] |]).
  lia.
Qed.

Lemma octets_value (w : Z) :
  exists b3 b2 b1 b0,
    octets w = [b3; b2; b1; b0] /\
    0 <= b3 < 256 /\ 0 <= b2 < 256 /\ 0 <= b1 < 256 /\ 0 <= b0 < 256 /\
    ((b3 * 256 + b2) * 256 + b1) * 256 + b0 = wrap32u w.
Proof.
  unfold octets, wrap8u, wrap32u. simpl map.
  rewrite !Z.shiftr_div_pow2 by lia.
  change (2 ^ 24) with 16777216. change (2 ^ 16) with 65536.
  change (2 ^ 8) with 256. change (2 ^ 0) with 1.
  rewrite Z.div_1_r.
  do 4 eexists. split; [reflexivity |].
  pose proof (Z.mod_pos_bound (w / 16777216) 256 ltac:(lia)).
  pose proof (Z.mod_pos_bound (w / 65536) 256 ltac:(lia)).
  pose proof (Z.mod_pos_bound (w / 256) 256 ltac:(lia)).
  pose proof (Z.mod_pos_bound w 256 ltac:(lia)).
  repeat (split; [lia |]).
  pose proof (Z.div_mod w 256 ltac:(lia)) as E0.
  pose proof (Z.div_mod (w / 256) 256 ltac:(lia)) as E1.
  pose proof (Z.div_mod (w / 65536) 256 ltac:(lia)) as E2.
  pose proof (Z.div_mod (w / 16777216) 256 ltac:(lia)) as E3.
  replace (w / 256 / 256) with (w / 65536) in E1
    by (rewrite Z.div_div by lia; reflexivity).
  replace (w / 65536 / 256) with (w / 16777216) in E2
    by (rewrite Z.div_div by lia; reflexivity).
  apply Z.mod_unique with (q := w / 16777216 / 256); [left |]; lia.
Qed.

Lemma wrap32s_small (x : Z) : -2147483648 <= x < 2147483648 -> wrap32s x = x.
Proof. intros H. unfold wrap32s. rewrite Z.mod_small; lia. Qed.

Lemma wrap32s_wrap32u (x : Z) : wrap32s (wrap32u x) = wrap32s x.
Proof.
  unfold wrap32s, wrap32u. f_equal.
  rewrite Zplus_mod_idemp_l. reflexivity.
Qed.

Lemma dac_frame_valid (value : Z) (nv : bool) : frame_valid (dac_frame value nv) = true.
Proof.
  unfold dac_frame.
  destruct (octets_value (wrap32s (Z.shiftl value BIT_REDUCE)))
    as (b3 & b2 & b1 & b0 & -> & _).
  destruct nv; simpl; rewrite Z.eqb_refl; reflexivity.
Qed.

(** C8, as stated, fails on the length field: the frame written for the
    tuning value 1 carries the length bytes 9, 0 (the length of the whole
    frame), not 4. *)
Lemma dac_frame_length_counterexample :
  osc_out (writeDacValue 1 false (ctl boot)) = [0x2e; 9; 0; 0x27; 0; 0; 0; 4; 4] /\
  frame_length_field (osc_out (writeDacValue 1 false (ctl boot))) <> 4.
Proof. split; [reflexivity | vm_compute; discriminate]. Qed.

(** C8 (amended): for every tuning value that is a 32-bit [long] and
    either persistence flag, [writeDacValue] sends nothing when the value
    is the one sent last, and otherwise one frame of nine bytes: the
    opcode (0x2c persistent, 0x2e volatile), the length bytes 9 and 0,
    the header checksum (0x25, 0x27: the XOR of the three bytes before
    it), four payload bytes that hold, most significant first, the value
    shifted left by BIT_REDUCE and cut to 32 bits, and the XOR of the
    four payload bytes.  The frame passes the checksum validation; it no
    longer does once any single byte is changed; and it decodes to the
    value and the persistence flag it was built from whenever the value
    fits 30 signed bits. *)
Theorem dac_frame_round_trip (value : Z) (nv : bool) (c : control) :
  -2147483648 <= value < 2147483648 ->
  osc_out (writeDacValue value nv c)
  = (if value =? last_dac_value c then osc_out c
     else osc_out c ++ dac_frame value nv) /\
  (exists b3 b2 b1 b0,
     dac_frame value nv
     = [ (if nv then 0x2c else 0x2e); 9; 0; (if nv then 0x25 else 0x27);
         b3; b2; b1; b0; Z.lxor (Z.lxor (Z.lxor b3 b2) b1) b0 ] /\
     0 <= b3 < 256 /\ 0 <= b2 < 256 /\ 0 <= b1 < 256 /\ 0 <= b0 < 256 /\
     ((b3 * 256 + b2) * 256 + b1) * 256 + b0 = (value * 2 ^ BIT_REDUCE) mod 2 ^ 32) /\
  frame_length_field (dac_frame value nv) = 9 /\
  frame_valid (dac_frame value nv) = true /\
  (forall (i : nat) (b : Z),
     (i < 9)%nat -> b <> nth i (dac_frame value nv) 0 ->
     frame_valid (set_nth i b (dac_frame value nv)) = false) /\
  (- 2 ^ 29 <= value < 2 ^ 29 ->
   decode_frame (dac_frame value nv) = Some (value, nv)).
Proof.
  intros Hr.
  split.
  { unfold writeDacValue. destruct (value =? last_dac_value c); reflexivity. }
  pose proof (dac_frame_valid value nv) as Hv.
  destruct (octets_value (wrap32s (Z.shiftl value BIT_REDUCE)))
    as (b3 & b2 & b1 & b0 & Ho & H3 & H2 & H1 & H0 & Hsum).
  assert (Hf : dac_frame value nv
               = [ (if nv then 0x2c else 0x2e); 9; 0; (if nv then 0x25 else 0x27);
                   b3; b2; b1; b0; Z.lxor (Z.lxor (Z.lxor b3 b2) b1) b0 ]).
  { unfold dac_frame. rewrite Ho. reflexivity. }
  assert (Hw : wrap32u (wrap32s (Z.shiftl value BIT_REDUCE))
               = (value * 2 ^ BIT_REDUCE) mod 2 ^ 32).
  { rewrite Z.shiftl_mul_pow2 by (unfold BIT_REDUCE; lia).
    unfold wrap32u, wrap32s.
    change (2 ^ 32) with 4294967296.
    rewrite <- Zminus_mod_idemp_l, Z.mod_mod by lia.
    rewrite Zminus_mod_idemp_l. f_equal. lia. }
  split.
  { exists b3, b2, b1, b0. rewrite <- Hw. auto 10. }
  split; [rewrite Hf; reflexivity |].
  split; [exact Hv |].
  split; [intros i b Hi Hb; apply frame_valid_single_byte; assumption |].
  intros H29. unfold decode_frame. rewrite Hv. rewrite Hf.
  rewrite Hsum, wrap32s_wrap32u.
  assert (Hs : wrap32s (Z.shiftl value BIT_REDUCE) = value * 4).
  { rewrite Z.shiftl_mul_pow2 by (unfold BIT_REDUCE; lia).
    change (2 ^ BIT_REDUCE) with 4. apply wrap32s_small. lia. }
  rewrite wrap32s_small by (rewrite Hs; lia).
  rewrite Hs, Z.shiftr_div_pow2 by (unfold BIT_REDUCE; lia).
  change (2 ^ BIT_REDUCE) with 4. rewrite Z.div_mul by lia.
  destruct nv; reflexivity.
Qed.

Lemma dac_frame_round_trip_witness :
  frame_valid (dac_frame (-1004) false) = true /\
  decode_frame (dac_frame (-1004) false) = Some (-1004, false).
Proof.
  destruct (dac_frame_round_trip (-1004) false (ctl boot))
    as (_ & _ & _ & Hv & _ & Hd).
  - lia.
  - split; [exact Hv | apply Hd; lia].
Defined.

(** ** The mode and the divisors *)

Lemma safe_bind {A B : Type} (P : A -> Prop) (Q : B -> Prop)
      (m : res A) (k : A -> res B) :
  safe P m -> (forall a, P a -> safe Q (k a)) -> safe Q (bind m k).
Proof.
  destruct m as [a | f]; simpl; intros Hm Hk; [apply Hk, Hm | exact Hm].
Qed.

Lemma safe_weaken {A : Type} (P Q : A -> Prop) (r : res A) :
  safe P r -> (forall a, P a -> Q a) -> safe Q r.
Proof. destruct r; simpl; auto. Qed.

Lemma safe_Ok_inv {A : Type} (P : A -> Prop) (r : res A) (a : A) :
  safe P r -> r = Ok a -> P a.
Proof. intros H ->. exact H. Qed.

Lemma safe_no_div {A : Type} (P : A -> Prop) (r : res A) :
  safe P r -> r <> Fault DivByZero.
Proof. intros H ->. simpl in H. discriminate. Qed.

Lemma to_long_safe (q : Q) (P : Z -> Prop) : (forall z, P z) -> safe P (to_long q).
Proof.
  intros H. unfold to_long.
  destruct ((-2147483648 <=? Qtrunc q) && (Qtrunc q <=? 2147483647)); simpl; auto.
Qed.

Lemma to_int_safe (q : Q) (P : Z -> Prop) : (forall z, P z) -> safe P (to_int q).
Proof.
  intros H. unfold to_int.
  destruct ((-32768 <=? Qtrunc q) && (Qtrunc q <=? 32767)); simpl; auto.
Qed.

Lemma fdiv_safe (a b : Q) (P : Q -> Prop) :
  ~ (b == 0)%Q -> (forall q, P q) -> safe P (fdiv a b).
Proof. intros Hb H. rewrite fdiv_ok by exact Hb. simpl. apply H. Qed.

Lemma reset_pll_safe (c : control) :
  mode_ok c -> safe (fun c' => mode c' = MODE_START) (reset_pll c).
Proof.
  intros H. destruct (reset_pll_ok c H) as (c' & -> & Hc').
  exact Hc'.
Qed.

Lemma downgrade_mode_safe (c : control) :
  1 <= mode c <= 3 -> safe (fun c' => mode c' = mode c - 1) (downgrade_mode c).
Proof. intros H. rewrite downgrade_mode_ok by exact H. reflexivity. Qed.

Lemma gps_edge_safe (s : system) :
  mode_ok (ctl s) ->
  safe (fun s' => mode_move (mode (ctl s)) (mode (ctl s'))
                  /\ (mode (ctl s') = mode (ctl s) \/ mode (ctl s') = mode (ctl s) - 1))
       (gps_edge s).
Proof.
  intros H. unfold gps_edge, mode_move, mode_ok in *.
  destruct (negb (gps_locked (nav s) =? last_gps_locked s)); [| simpl; lia].
  destruct (negb (gps_locked (nav s) =? 0)); [simpl; lia |].
  destruct (mode (ctl s) >? 0) eqn:E; [| simpl; lia].
  apply Z.gtb_lt in E.
  rewrite downgrade_mode_ok by lia. simpl. lia.
Qed.

Lemma osc_edge_safe (o : Z) (s : system) :
  mode_ok (ctl s) ->
  safe (fun s' => mode (ctl s') = mode (ctl s) \/ mode (ctl s') = MODE_START)
       (osc_edge o s).
Proof.
  intros H. unfold osc_edge.
  destruct (negb (o =? last_osc_locked s)); [| simpl; auto].
  destruct (negb (o =? 0)); [simpl; auto |].
  eapply safe_bind.
  - apply reset_pll_safe. unfold mode_ok. rewrite writeDacValue_mode. exact H.
  - intros c' Hc'. simpl. auto.
Qed.

Lemma button_write_safe (b : bool) (c : control) :
  safe (fun c' => mode c' = mode c) (button_write b c).
Proof.
  unfold button_write. destruct (b && (mode c =? MODE_SLOW)); [| reflexivity].
  eapply safe_bind; [apply to_long_safe with (P := fun _ => True); auto |].
  intros z _. simpl. apply writeDacValue_mode.
Qed.

Lemma loop_head_safe (inp : inputs) (s : system) :
  mode_ok (ctl s) ->
  safe (fun s' => mode_move (mode (ctl s)) (mode (ctl s'))) (loop_head inp s).
Proof.
  intros H. unfold loop_head.
  eapply safe_bind; [apply gps_edge_safe; exact H |].
  intros s1 [[Hr1 _] H1].
  eapply safe_bind; [apply osc_edge_safe; exact Hr1 |].
  intros s2 H2.
  assert (Hm : mode_move (mode (ctl s)) (mode (ctl s2))).
  { unfold mode_move, mode_ok, MODE_START in *. lia. }
  destruct (negb ((if osc_lock_pin inp then 1 else 0) =? 0) && clk_rc32m s2);
    [simpl; exact Hm |].
  eapply safe_bind; [apply button_write_safe |].
  intros c Hc. rewrite <- Hc in Hm. simpl.
  repeat match goal with
         | |- safe _ (if ?b then _ else _) => destruct b
         | |- safe _ (match ?l with [] => _ | _ :: _ => _ end) => destruct l
         end; simpl; exact Hm.
Qed.

Lemma cycle_deltas_seconds (span : Z) : 0 <= fst (cycle_deltas span) <= 143.
Proof.
  unfold cycle_deltas, wrap32u, F_CPU. simpl fst.
  pose proof (Z.mod_pos_bound (wrap32s (span - 30000000) + 30000000 / 2) 4294967296
                ltac:(lia)) as Hb.
  split.
  - apply Z.div_pos; lia.
  - apply Z.lt_succ_r. apply Z.div_lt_upper_bound; lia.
Qed.

Lemma filter_time_cases (m : Z) :
  0 <= m <= 3 ->
  mode_to_tc m / 10 = 10 \/ mode_to_tc m / 10 = 180 \/ mode_to_tc m / 10 = 720.
Proof.
  intros H.
  assert (m = 0 \/ m = 1 \/ m = 2 \/ m = 3) as [-> | [-> | [-> | ->]]] by lia;
    vm_compute; auto.
Qed.

Lemma update_filters_safe (m cpe icd sd : Z) (c : control) :
  0 <= m <= 3 -> 0 <= sd <= 143 ->
  safe (fun c' => mode c' = mode c) (update_filters (mode_to_tc m) cpe icd sd c).
Proof.
  intros Hm Hsd. unfold update_filters.
  assert (Hft : 10 <= mode_to_tc m / 10 <= 720)
    by (destruct (filter_time_cases m Hm) as [-> | [-> | ->]]; lia).
  assert (Hnz : ~ (inject_Z (mode_to_tc m / 10) == 0)%Q)
    by (apply inject_Z_nonzero; lia).
  assert (Hnz2 : ~ (inject_Z (wrap32u (wrap32u (sd + 1) * (mode_to_tc m / 10))) == 0)%Q).
  { apply inject_Z_nonzero. unfold wrap32u.
    rewrite (Z.mod_small (sd + 1)) by lia.
    rewrite Z.mod_small by nia. nia. }
  cbv zeta. repeat (rewrite fdiv_ok by assumption; cbn [bind]).
  reflexivity.
Qed.

Lemma start_tick_safe (c : control) :
  mode c = MODE_START ->
  safe (fun c' => mode c' = MODE_START \/ mode c' = MODE_FAST) (start_tick c).
Proof.
  intros H. unfold start_tick.
  eapply safe_bind; [apply to_long_safe with (P := fun _ => True); auto |].
  intros z _.
  repeat match goal with
         | |- safe _ (if ?b then _ else _) => destruct b
         end; simpl; rewrite ?writeDacValue_mode; auto.
Qed.

Lemma try_upgrade_safe (c : control) :
  1 <= mode c <= 3 ->
  safe (fun c' => 1 <= mode c' <= 3 /\ (mode c' = mode c \/ mode c' = mode c + 1))
       (try_upgrade c).
Proof.
  intros H. unfold try_upgrade.
  destruct (mode c =? MODE_SLOW) eqn:Es; cbn [negb]; [simpl; lia |].
  apply Z.eqb_neq in Es. unfold MODE_SLOW in Es.
  destruct (Qle_bool _ _); [| simpl; lia].
  cbv zeta. cbn [mode exit_timer iTerm set_mode set_exit_timer].
  match goal with |- safe _ (if ?b then _ else _) => destruct b end; [| simpl; lia].
  assert (E1 : wrap8u (mode c + 1) = mode c + 1)
    by (unfold wrap8u; apply Z.mod_small; lia).
  rewrite E1.
  replace (wrap8u (mode c + 1 - 1)) with (mode c)
    by (unfold wrap8u; rewrite Z.mod_small; lia).
  rewrite fdiv_tc by lia. simpl. lia.
Qed.

Lemma try_downgrade_safe (c : control) :
  1 <= mode c <= 3 ->
  safe (fun c' => 1 <= mode c' <= 3 /\ (mode c' = mode c \/ mode c' = mode c - 1))
       (try_downgrade c).
Proof.
  intros H. unfold try_downgrade.
  destruct (mode c =? MODE_FAST) eqn:Ef; cbn [negb]; [simpl; lia |].
  apply Z.eqb_neq in Ef. unfold MODE_FAST in Ef.
  destruct (enter_timer c >? 0); [simpl; lia |].
  destruct (Qle_bool _ _); [| simpl; lia].
  rewrite downgrade_mode_ok by lia. simpl. lia.
Qed.

Lemma damped_tc_nonzero (m : Z) :
  0 <= m <= 3 -> ~ (inject_Z (mode_to_tc m) * DAMPING == 0)%Q.
Proof.
  intros H.
  assert (m = 0 \/ m = 1 \/ m = 2 \/ m = 3) as [-> | [-> | [-> | ->]]] by lia;
    vm_compute; discriminate.
Qed.

Lemma pi_update_safe (c : control) :
  1 <= mode c <= 3 ->
  safe (fun c' => mode c' = mode c) (pi_update (mode_to_tc (mode c)) c).
Proof.
  intros H. unfold pi_update.
  rewrite fdiv_ok by (apply damped_tc_nonzero; lia). simpl bind.
  rewrite fdiv_tc by lia. simpl bind.
  eapply safe_bind; [apply to_long_safe with (P := fun _ => True); auto |].
  intros z _. simpl. rewrite writeDacValue_mode. reflexivity.
Qed.

Lemma offload_mode (tc : Z) (c : control) : mode (offload tc c) = mode c.
Proof.
  unfold offload. destruct (Qltb _ _); reflexivity.
Qed.

Lemma pll_tick_safe (c : control) :
  1 <= mode c <= 3 ->
  safe (fun c' => mode_move (mode c) (mode c')) (pll_tick c).
Proof.
  intros H. unfold pll_tick.
  destruct (Qle_bool (5 # 10) (fabs (average_pps_error c))).
  - eapply safe_weaken; [apply reset_pll_safe; unfold mode_ok; lia |].
    intros c' Hc'. unfold mode_move, MODE_START in *. lia.
  - eapply safe_bind; [apply try_upgrade_safe; exact H |].
    intros c1 [Hr1 H1].
    eapply safe_bind; [apply try_downgrade_safe; exact Hr1 |].
    intros c2 [Hr2 H2].
    eapply safe_bind; [apply pi_update_safe; exact Hr2 |].
    intros c3 H3. simpl. rewrite offload_mode, H3.
    unfold mode_move. lia.
Qed.

Lemma control_tick_safe (temp : list Z) (s : system) :
  mode_ok (ctl s) ->
  safe (fun s' => mode_move (mode (ctl s)) (mode (ctl s'))) (control_tick temp s).
Proof.
  intros H. unfold control_tick.
  pose proof (cycle_deltas_seconds (irq_time_span (cap s))) as Hsd.
  destruct (cycle_deltas (irq_time_span (cap s))) as [sd icd]. simpl fst in Hsd.
  assert (Hstay : mode_move (mode (ctl s)) (mode (ctl s)))
    by (unfold mode_move, mode_ok in *; lia).
  unfold zdiv.
  replace (wrap32u (sd + 1) =? 0) with false
    by (symmetry; apply Z.eqb_neq; unfold wrap32u; rewrite Z.mod_small; lia).
  simpl bind.
  destruct (_ >? _); [simpl; exact Hstay |].
  eapply safe_bind.
  { unfold phase_error. destruct (atof temp) as [q |]; [| reflexivity].
    eapply safe_bind; [apply to_int_safe with (P := fun _ => True); auto |].
    intros z _. simpl. instantiate (1 := fun _ => True). exact I. }
  intros cpe _.
  eapply safe_bind; [apply update_filters_safe; [exact H | exact Hsd] |].
  intros c1 H1. simpl in H1.
  eapply safe_bind with (P := fun c' => mode_move (mode (ctl s)) (mode c')).
  - destruct (mode c1 =? MODE_START) eqn:E.
    + apply Z.eqb_eq in E.
      eapply safe_weaken; [apply start_tick_safe; exact E |].
      intros c' Hc'. simpl in Hc'. rewrite <- H1, E.
      unfold mode_move, MODE_START, MODE_FAST in *. lia.
    + apply Z.eqb_neq in E. rewrite <- H1.
      apply pll_tick_safe. unfold mode_ok, MODE_START in *. lia.
  - intros c' Hc'. simpl. exact Hc'.
Qed.

Lemma step_safe (e : event) (s : system) :
  mode_ok (ctl s) ->
  safe (fun s' => mode_move (mode (ctl s)) (mode (ctl s'))) (step e s).
Proof.
  intros H.
  assert (Hstay : mode_move (mode (ctl s)) (mode (ctl s)))
    by (unfold mode_move, mode_ok in *; lia).
  destruct e as [t a | ch | inp]; simpl.
  - exact Hstay.
  - unfold USARTC0_RXC_vect.
    repeat match goal with
           | |- safe _ (if ?b then _ else _) => destruct b
           end; simpl; try exact Hstay.
    destruct (handleGPS (rx_line s) (nav s)) as [g | f] eqn:E; simpl; [exact Hstay |].
    revert E. unfold handleGPS, field_len.
    repeat match goal with
           | |- context [if ?b then _ else _] => destruct b
           | |- context [match ?x with Some _ => _ | None => _ end] => destruct x
           | |- context [let '(_, _) := ?p in _] => destruct p
           end; simpl; congruence.
  - unfold main_step. destruct (pc s).
    + apply loop_head_safe; exact H.
    + simpl. exact Hstay.
    + apply control_tick_safe; exact H.
Qed.

(** ** The integral term stays bounded *)

Ltac qconst :=
  unfold inject_Z in *; unfold Qdiv in *; cbn [Qinv Qnum Qden Z.to_pos] in *.

Ltac tc_values :=
  repeat match goal with
         | |- context [mode_to_tc ?m] =>
             let v := eval vm_compute in (mode_to_tc m) in
             change (mode_to_tc m) with v
         | H : context [mode_to_tc ?m] |- _ =>
             let v := eval vm_compute in (mode_to_tc m) in
             change (mode_to_tc m) with v in H
         end.

Lemma store_eq (q : Q) : (store q == q)%Q.
Proof. apply Qred_correct. Qed.

Lemma writeDacValue_same (v : Z) (nv : bool) (c : control) :
  iTerm (writeDacValue v nv c) = iTerm c /\
  average_phase_error (writeDacValue v nv c) = average_phase_error c /\
  average_pps_error (writeDacValue v nv c) = average_pps_error c /\
  exit_timer (writeDacValue v nv c) = exit_timer c /\
  mode (writeDacValue v nv c) = mode c.
Proof. unfold writeDacValue. destruct (v =? last_dac_value c); simpl; tauto. Qed.

Lemma reset_pll_reset (c c' : control) : reset_pll c = Ok c' -> was_reset c'.
Proof.
  unfold reset_pll. intros H. apply bind_Ok in H. destruct H as (t & _ & H).
  injection H as <-. unfold was_reset. simpl. tauto.
Qed.

Lemma was_reset_bounded (c : control) : was_reset c -> bounded c.
Proof.
  intros (Hm & Hi & Ha & _). unfold bounded. rewrite Hm, Hi, Ha.
  split; vm_compute; discriminate.
Qed.

Lemma rescale_down (c : control) :
  1 <= mode c <= 3 ->
  (Qabs (iTerm c) <= 1000 * inject_Z (mode_to_tc (mode c)))%Q ->
  (Qabs (store (iTerm c * (inject_Z (mode_to_tc (mode c - 1))
                           / inject_Z (mode_to_tc (mode c)))))
   <= 1000 * inject_Z (mode_to_tc (mode c - 1)))%Q.
Proof.
  intros Hm Hb. rewrite store_eq.
  apply Qabs_Qle_condition in Hb. apply Qabs_Qle_condition.
  assert (E : mode c = 1 \/ mode c = 2 \/ mode c = 3) by lia.
  destruct E as [E | [E | E]]; rewrite E in *; tc_values; qconst; lra.
Qed.

Lemma rescale_up (c : control) :
  1 <= mode c <= 2 ->
  (Qabs (iTerm c) <= 1000 * inject_Z (mode_to_tc (mode c)))%Q ->
  (Qabs (store (iTerm c * (inject_Z (mode_to_tc (mode c + 1))
                           / inject_Z (mode_to_tc (mode c)))))
   <= 1000 * inject_Z (mode_to_tc (mode c + 1)))%Q.
Proof.
  intros Hm Hb. rewrite store_eq.
  apply Qabs_Qle_condition in Hb. apply Qabs_Qle_condition.
  assert (E : mode c = 1 \/ mode c = 2) by lia.
  destruct E as [E | E]; rewrite E in *; tc_values; qconst; lra.
Qed.

Lemma downgrade_mode_bounded (c c' : control) :
  1 <= mode c <= 3 -> bounded c -> downgrade_mode c = Ok c' ->
  bounded c' /\ mode c' = mode c - 1.
Proof.
  intros Hm [Hi Ha] H. rewrite downgrade_mode_ok in H by exact Hm.
  injection H as <-. unfold bounded. cbn [iTerm mode average_phase_error].
  split; [| reflexivity]. split; [apply rescale_down; assumption | exact Ha].
Qed.

Lemma wrap16s_range (x : Z) : -32768 <= wrap16s x <= 32767.
Proof.
  unfold wrap16s. pose proof (Z.mod_pos_bound (x + 32768) 65536 ltac:(lia)). lia.
Qed.

Lemma phase_error_range (adc : Z) (temp : list Z) (cpe : Z) :
  phase_error adc temp = Ok cpe -> -32768 <= cpe <= 32767.
Proof.
  unfold phase_error. destruct (atof temp); [| discriminate].
  intros H. apply bind_Ok in H. destruct H as (r & _ & H).
  injection H as <-. apply wrap16s_range.
Qed.

Lemma update_filters_bounded (m cpe icd sd : Z) (c c' : control) :
  0 <= m <= 3 -> -32768 <= cpe <= 32767 ->
  (Qabs (average_phase_error c) <= 32768)%Q ->
  update_filters (mode_to_tc m) cpe icd sd c = Ok c' ->
  mode c' = mode c /\ iTerm c' = iTerm c /\ exit_timer c' = exit_timer c /\
  (Qabs (average_phase_error c') <= 32768)%Q.
Proof.
  intros Hm Hc Ha H. unfold update_filters in H.
  apply bind_Ok in H. destruct H as (a & Ea & H).
  apply bind_Ok in H. destruct H as (b & Eb & H).
  apply bind_Ok in H. destruct H as (d & _ & H).
  apply bind_Ok in H. destruct H as (e & _ & H).
  injection H as <-. cbn [mode iTerm exit_timer average_phase_error
                           set_average_pps_error set_average_phase_error].
  split; [reflexivity |]. split; [reflexivity |]. split; [reflexivity |].
  apply fdiv_Ok_inv in Ea. destruct Ea as [_ ->].
  apply fdiv_Ok_inv in Eb. destruct Eb as [_ ->].
  rewrite !store_eq.
  apply Qabs_Qle_condition in Ha. apply Qabs_Qle_condition.
  assert (H1 : (- (32768) <= inject_Z cpe)%Q) by (unfold Qle; simpl; lia).
  assert (H2 : (inject_Z cpe <= 32768)%Q) by (unfold Qle; simpl; lia).
  generalize dependent (inject_Z cpe). intros q H1 H2.
  destruct (filter_time_cases m Hm) as [-> | [-> | ->]]; qconst; lra.
Qed.

Lemma start_tick_bounded (c c' : control) :
  mode c = MODE_START -> bounded c -> start_tick c = Ok c' ->
  bounded c' /\ (mode c' = MODE_START \/ mode c' = MODE_FAST).
Proof.
  intros Hm [Hi Ha] H. unfold start_tick in H.
  apply bind_Ok in H. destruct H as (dv & _ & H).
  set (c1 := writeDacValue dv false _) in H.
  destruct (writeDacValue_same dv false
              (set_trim_value c (trim_value c -
                 inject_Z 1000000000 / inject_Z F_CPU * average_pps_error c
                 * START_GAIN))) as (Ki & Ka & _ & _ & Km).
  fold c1 in Ki, Ka, Km. cbn [iTerm average_phase_error mode set_trim_value] in Ki, Ka, Km.
  rewrite Hm in Hi.
  assert (Hb : forall m e, m = MODE_START \/ m = MODE_FAST ->
                 bounded (set_exit_timer (set_mode c1 m) e)).
  { intros m e Hme. unfold bounded.
    cbn [iTerm mode average_phase_error set_exit_timer set_mode].
    rewrite Ki, Ka. split; [| exact Ha].
    destruct Hme as [-> | ->]; exact Hi. }
  assert (Hb0 : forall e, bounded (set_exit_timer c1 e)).
  { intros e. unfold bounded.
    cbn [iTerm mode average_phase_error set_exit_timer].
    rewrite Ki, Ka, Km, Hm. split; [exact Hi | exact Ha]. }
  destruct (Qle_bool _ _).
  - destruct (_ || _); injection H as <-.
    + split; [| right; reflexivity].
      unfold bounded. cbn [iTerm mode average_phase_error set_exit_timer set_mode].
      rewrite Ki, Ka. split; [exact Hi | exact Ha].
    + split; [apply Hb0 | left]. cbn [mode set_exit_timer]. congruence.
  - injection H as <-. split; [apply Hb0 | left].
    cbn [mode set_exit_timer]. congruence.
Qed.

Lemma try_upgrade_bounded (c c' : control) :
  1 <= mode c <= 3 -> bounded c -> try_upgrade c = Ok c' ->
  bounded c' /\ 1 <= mode c' <= 3 /\ (mode c' = mode c \/ mode c' = mode c + 1).
Proof.
  intros Hm [Hi Ha] H. unfold try_upgrade in H.
  destruct (mode c =? MODE_SLOW) eqn:Es; cbn [negb] in H.
  { injection H as <-. unfold bounded. auto. }
  apply Z.eqb_neq in Es. unfold MODE_SLOW in Es.
  destruct (Qle_bool _ _).
  2:{ injection H as <-. unfold bounded. cbn [iTerm mode average_phase_error set_exit_timer].
      auto. }
  cbv zeta in H. cbn [mode exit_timer iTerm set_mode set_exit_timer] in H.
  destruct (_ <=? _).
  2:{ injection H as <-. unfold bounded. cbn [iTerm mode average_phase_error set_exit_timer].
      auto. }
  assert (E1 : wrap8u (mode c + 1) = mode c + 1)
    by (unfold wrap8u; apply Z.mod_small; lia).
  rewrite E1 in H.
  replace (wrap8u (mode c + 1 - 1)) with (mode c) in H
    by (unfold wrap8u; rewrite Z.mod_small; lia).
  rewrite fdiv_tc in H by lia. cbn [bind] in H. injection H as <-.
  unfold bounded. cbn [iTerm mode average_phase_error set_iTerm set_mode set_exit_timer].
  split; [| lia]. split; [| exact Ha].
  rewrite store_eq. rewrite <- (store_eq (_ * _)). apply rescale_up; [lia | exact Hi].
Qed.

Lemma try_downgrade_bounded (c c' : control) :
  1 <= mode c <= 3 -> bounded c -> try_downgrade c = Ok c' ->
  bounded c' /\ 1 <= mode c' <= 3 /\ (mode c' = mode c \/ mode c' = mode c - 1).
Proof.
  intros Hm [Hi Ha] H. unfold try_downgrade in H.
  destruct (mode c =? MODE_FAST) eqn:Ef; cbn [negb] in H.
  { injection H as <-. unfold bounded. auto. }
  apply Z.eqb_neq in Ef. unfold MODE_FAST in Ef.
  destruct (enter_timer c >? 0).
  { injection H as <-. unfold bounded. cbn [iTerm mode average_phase_error set_enter_timer].
    auto. }
  destruct (Qle_bool _ _).
  2:{ injection H as <-. unfold bounded. auto. }
  destruct (downgrade_mode_bounded c c' Hm (conj Hi Ha) H) as [Hb Hmd].
  split; [exact Hb | lia].
Qed.

Lemma pi_update_bounded (c c' : control) :
  1 <= mode c <= 3 -> bounded c ->
  pi_update (mode_to_tc (mode c)) c = Ok c' ->
  mode c' = mode c /\
  (Qabs (iTerm c') <= 2000 * inject_Z (mode_to_tc (mode c)))%Q /\
  (Qabs (average_phase_error c') <= 32768)%Q.
Proof.
  intros Hm [Hi Ha] H. unfold pi_update in H.
  apply bind_Ok in H. destruct H as (i & Ei & H).
  apply bind_Ok in H. destruct H as (adj & _ & H).
  apply bind_Ok in H. destruct H as (dv & _ & H).
  injection H as <-.
  destruct (writeDacValue_same dv false (set_iTerm c (iTerm c + i)))
    as (Ki & Ka & _ & _ & Km).
  rewrite Ki, Ka, Km. cbn [iTerm mode average_phase_error set_iTerm].
  split; [reflexivity |]. split; [| exact Ha].
  apply fdiv_Ok_inv in Ei. destruct Ei as [_ ->].
  rewrite store_eq.
  apply Qabs_Qle_condition in Hi. apply Qabs_Qle_condition in Ha.
  apply Qabs_Qle_condition.
  change (inject_Z GAIN) with (366 # 1)%Q.
  assert (E : mode c = 1 \/ mode c = 2 \/ mode c = 3) by lia.
  destruct E as [E | [E | E]]; rewrite E in *; tc_values.
  - setoid_replace (inject_Z 100 * DAMPING)%Q with (175 # 1)%Q by reflexivity.
    qconst; lra.
  - setoid_replace (inject_Z 1800 * DAMPING)%Q with (3150 # 1)%Q by reflexivity.
    qconst; lra.
  - setoid_replace (inject_Z 7200 * DAMPING)%Q with (12600 # 1)%Q by reflexivity.
    qconst; lra.
Qed.

Lemma offload_bounded (tc : Z) (c : control) :
  0 < tc ->
  (Qabs (iTerm c) <= 2000 * inject_Z tc)%Q ->
  (Qabs (iTerm (offload tc c)) <= 1000 * inject_Z tc)%Q /\
  average_phase_error (offload tc c) = average_phase_error c.
Proof.
  intros Htc Hi. split.
  - destruct (Qlt_le_dec (1000 * inject_Z tc) (Qabs (iTerm c))) as [Hbig | Hsmall].
    + rewrite (offload_shrinks tc Htc c Hbig). lra.
    + rewrite (offload_idle tc c Hsmall). exact Hsmall.
  - unfold offload. destruct (Qltb _ _); reflexivity.
Qed.

Lemma pll_tick_bounded (c c' : control) :
  1 <= mode c <= 3 -> bounded c -> pll_tick c = Ok c' -> moved c c'.
Proof.
  intros Hm Hb H. unfold pll_tick in H.
  destruct (Qle_bool (5 # 10) _).
  - apply reset_pll_reset in H. split; [apply was_reset_bounded, H | auto].
  - apply bind_Ok in H. destruct H as (c1 & H1 & H).
    apply bind_Ok in H. destruct H as (c2 & H2 & H).
    apply bind_Ok in H. destruct H as (c3 & H3 & H).
    injection H as <-.
    destruct (try_upgrade_bounded c c1 Hm Hb H1) as (Hb1 & Hm1 & Hd1).
    destruct (try_downgrade_bounded c1 c2 Hm1 Hb1 H2) as (Hb2 & Hm2 & Hd2).
    destruct (pi_update_bounded c2 c3 Hm2 Hb2 H3) as (Hm3 & Hi3 & Ha3).
    assert (Hpos : 0 < mode_to_tc (mode c2))
      by (pose proof (mode_to_tc_pos (mode c2)); lia).
    destruct (offload_bounded _ c3 Hpos Hi3) as [Ho Hoa].
    split.
    + unfold bounded. rewrite offload_mode, Hoa, Hm3. split; [exact Ho | exact Ha3].
    + rewrite offload_mode. lia.
Qed.

Lemma control_tick_bounded (temp : list Z) (s s' : system) :
  mode_ok (ctl s) -> bounded (ctl s) -> control_tick temp s = Ok s' ->
  moved (ctl s) (ctl s').
Proof.
  intros Hm Hb H. unfold control_tick in H.
  assert (Hstay : moved (ctl s) (ctl s)) by (split; auto).
  destruct (cycle_deltas (irq_time_span (cap s))) as [sd icd].
  apply bind_Ok in H. destruct H as (q & _ & H).
  destruct (q >? F_CPU / 10000); [injection H as <-; exact Hstay |].
  apply bind_Ok in H. destruct H as (cpe & Hc & H).
  apply bind_Ok in H. destruct H as (c1 & H1 & H).
  apply bind_Ok in H. destruct H as (c2 & H2 & H).
  injection H as <-. cbn [ctl].
  apply phase_error_range in Hc.
  destruct Hb as [Hi Ha].
  destruct (update_filters_bounded _ _ _ _ _ _ Hm Hc Ha H1) as (Km & Ki & _ & Ka).
  assert (Hb1 : bounded c1) by (unfold bounded; rewrite Km, Ki; auto).
  unfold moved. rewrite <- Km.
  destruct (mode c1 =? MODE_START) eqn:E.
  - apply Z.eqb_eq in E.
    destruct (start_tick_bounded c1 c2 E Hb1 H2) as [Hb2 Hd].
    split; [exact Hb2 |]. unfold MODE_START, MODE_FAST in *. lia.
  - apply Z.eqb_neq in E.
    apply (pll_tick_bounded c1 c2); [| exact Hb1 | exact H2].
    unfold mode_ok, MODE_START in *. lia.
Qed.

Lemma gps_edge_bounded (s s' : system) :
  mode_ok (ctl s) -> bounded (ctl s) -> gps_edge s = Ok s' ->
  bounded (ctl s') /\
  (mode (ctl s') = mode (ctl s) \/ mode (ctl s') = mode (ctl s) - 1).
Proof.
  intros Hm Hb H. unfold gps_edge in H.
  destruct (negb (gps_locked (nav s) =? last_gps_locked s));
    [| injection H as <-; auto].
  apply bind_Ok in H. destruct H as (c & Hc & H). injection H as <-. cbn [ctl].
  destruct (negb (gps_locked (nav s) =? 0)); [injection Hc as <-; auto |].
  destruct (mode (ctl s) >? 0) eqn:E; [| injection Hc as <-; auto].
  apply Z.gtb_lt in E. unfold mode_ok in Hm.
  destruct (downgrade_mode_bounded (ctl s) c ltac:(lia) Hb Hc) as [Hb' Hd].
  auto.
Qed.

Lemma osc_edge_bounded (o : Z) (s s' : system) :
  bounded (ctl s) -> osc_edge o s = Ok s' ->
  bounded (ctl s') /\ (mode (ctl s') = mode (ctl s) \/ was_reset (ctl s')).
Proof.
  intros Hb H. unfold osc_edge in H.
  destruct (negb (o =? last_osc_locked s)); [| injection H as <-; auto].
  apply bind_Ok in H. destruct H as (c & Hc & H). injection H as <-. cbn [ctl].
  destruct (negb (o =? 0)); [injection Hc as <-; auto |].
  apply reset_pll_reset in Hc. split; [apply was_reset_bounded, Hc | auto].
Qed.

Lemma button_write_bounded (b : bool) (c c' : control) :
  button_write b c = Ok c' ->
  iTerm c' = iTerm c /\ average_phase_error c' = average_phase_error c /\
  average_pps_error c' = average_pps_error c /\ exit_timer c' = exit_timer c /\
  mode c' = mode c.
Proof.
  unfold button_write. destruct (b && (mode c =? MODE_SLOW)).
  - intros H. apply bind_Ok in H. destruct H as (dv & _ & H).
    injection H as <-. apply writeDacValue_same.
  - intros H. injection H as <-. tauto.
Qed.

Lemma loop_head_bounded (inp : inputs) (s s' : system) :
  mode_ok (ctl s) -> bounded (ctl s) -> loop_head inp s = Ok s' ->
  moved (ctl s) (ctl s').
Proof.
  intros Hm Hb H. unfold loop_head in H.
  apply bind_Ok in H. destruct H as (s1 & H1 & H).
  apply bind_Ok in H. destruct H as (s2 & H2 & H).
  destruct (gps_edge_bounded s s1 Hm Hb H1) as [Hb1 Hd1].
  destruct (osc_edge_bounded _ s1 s2 Hb1 H2) as [Hb2 Hd2].
  assert (Hmv : moved (ctl s) (ctl s2)).
  { split; [exact Hb2 |]. destruct Hd2 as [Hd2 | Hd2]; [| auto].
    rewrite Hd2. destruct Hd1 as [-> | ->]; auto. }
  destruct (negb _ && clk_rc32m s2); [injection H as <-; exact Hmv |].
  apply bind_Ok in H. destruct H as (c & Hc & H).
  destruct (button_write_bounded _ _ _ Hc) as (Ki & Ka & Kp & Ke & Km).
  assert (Hmv' : moved (ctl s) c).
  { destruct Hmv as [[Hbi Hba] Hd]. unfold moved, bounded, was_reset in *.
    rewrite Ki, Ka, Kp, Ke, Km. auto. }
  cbn [last_pps_count set_ctl cap nav pps_count] in H.
  destruct (_ =? _); [injection H as <-; exact Hmv' |].
  destruct (pps_err_buf (nav s2)); [injection H as <-; exact Hmv' |].
  destruct (_ || _); injection H as <-; exact Hmv'.
Qed.

Lemma step_bounded (e : event) (s s' : system) :
  mode_ok (ctl s) -> bounded (ctl s) -> step e s = Ok s' ->
  moved (ctl s) (ctl s').
Proof.
  intros Hm Hb H.
  assert (Hstay : moved (ctl s) (ctl s)) by (split; auto).
  destruct e as [t a | ch | inp]; cbn [step] in H.
  - injection H as <-. exact Hstay.
  - unfold USARTC0_RXC_vect in H.
    destruct (_ && _); [injection H as <-; exact Hstay |].
    destruct (_ || _).
    + apply bind_Ok in H. destruct H as (g & _ & H). injection H as <-. exact Hstay.
    + destruct (_ =? _); injection H as <-; exact Hstay.
  - unfold main_step in H. destruct (pc s).
    + apply (loop_head_bounded inp s s' Hm Hb H).
    + injection H as <-. exact Hstay.
    + apply (control_tick_bounded temp s s' Hm Hb H).
Qed.

Lemma reachable_bounded (s : system) :
  reachable s -> mode_ok (ctl s) /\ bounded (ctl s).
Proof.
  induction 1 as [| e s s' Hr [IHm IHb] Hs].
  - split; [unfold mode_ok; simpl; unfold MODE_START; lia |].
    split; vm_compute; discriminate.
  - split.
    + pose proof (safe_Ok_inv _ _ _ (step_safe e s IHm) Hs) as [Hm' _]. exact Hm'.
    + apply (step_bounded e s s' IHm IHb Hs).
Qed.

(** C9: on a phase-tracking tick (one that does not reset), let [c0] be
    the control state after the tests for promotion and demotion, [c1]
    the state once the PI update has been applied to it and the tuning
    value written, and tc the time constant of its mode.  The tick ends
    with the off-loading step on [c1].  When |i_term| exceeds 1000 * tc,
    that step takes 1000 * tc out of the integral term on the side it is
    on, which is 1000 tuning units of correction, and moves these 1000
    units into the trim value; |i_term| goes down by 1000 * tc, so it is
    back within 1000 * tc whenever it had not passed 2000 * tc; and for
    any proportional term p the net correction
    trim_value - (p + i_term) / tc is the same before and after.  When
    |i_term| is within 1000 * tc the step changes nothing.  And the
    integral term stays bounded: in every reachable state it is within
    1000 * tc of the mode. *)
Theorem anti_windup :
  (forall c c' : control,
     Qle_bool (5 # 10) (fabs (average_pps_error c)) = false ->
     pll_tick c = Ok c' ->
     exists c0 c1 : control,
       (x <- try_upgrade c ;; try_downgrade x) = Ok c0 /\
       pi_update (mode_to_tc (mode c0)) c0 = Ok c1 /\
       mode c1 = mode c0 /\
       c' = offload (mode_to_tc (mode c1)) c1 /\
       let T := inject_Z (mode_to_tc (mode c1)) in
       (0 < T)%Q /\
       ((1000 * T < Qabs (iTerm c1))%Q ->
        (0 <= iTerm c1 ->
         iTerm c' == iTerm c1 - 1000 * T /\ trim_value c' == trim_value c1 - 1000)%Q /\
        (iTerm c1 < 0 ->
         iTerm c' == iTerm c1 + 1000 * T /\ trim_value c' == trim_value c1 + 1000)%Q /\
        (Qabs (iTerm c') == Qabs (iTerm c1) - 1000 * T)%Q /\
        (Qabs (iTerm c1) <= 2000 * T -> Qabs (iTerm c') <= 1000 * T)%Q) /\
       ((Qabs (iTerm c1) <= 1000 * T)%Q -> c' = c1) /\
       (forall p : Q,
          trim_value c' - (p + iTerm c') / T == trim_value c1 - (p + iTerm c1) / T)%Q) /\
  (forall s : system,
     reachable s ->
     (Qabs (iTerm (ctl s)) <= 1000 * inject_Z (mode_to_tc (mode (ctl s))))%Q).
Proof.
  split.
  - intros c c' Hnr H.
    exact (offload_step c c' Hnr H).
  - intros s Hr. destruct (reachable_bounded s Hr) as [_ [Hi _]]. exact Hi.
Qed.

Lemma anti_windup_witness :
  (exists c',
     pll_tick fast_wound_up = Ok c' /\
     (iTerm c' == 500)%Q /\ (trim_value c' == - (1000))%Q) /\
  (Qabs (iTerm (ctl boot)) <= 1000 * inject_Z (mode_to_tc (mode (ctl boot))))%Q.
Proof.
  destruct anti_windup as [Hstep Hbound]. split.
  - eassert (Hrun : pll_tick fast_wound_up = Ok _) by (vm_compute; reflexivity).
    assert (Hnr : Qle_bool (5 # 10) (fabs (average_pps_error fast_wound_up)) = false)
      by reflexivity.
    destruct (Hstep fast_wound_up _ Hnr Hrun) as (c0 & c1 & _ & _ & _ & Hc' & _).
    eexists. split; [exact Hrun |].
    split; vm_compute; reflexivity.
  - apply Hbound. apply reach_boot.
Defined.

Lemma reachable_mode_ok (s : system) : reachable s -> mode_ok (ctl s).
Proof.
  induction 1 as [| e s s' Hr IH Hs].
  - unfold mode_ok. simpl. unfold MODE_START. lia.
  - pose proof (safe_Ok_inv _ _ _ (step_safe e s IH) Hs) as [Hm _].
    exact Hm.
Qed.

Lemma run_reachable (es : list event) (s s' : system) :
  reachable s -> run es s = Ok s' -> reachable s'.
Proof.
  revert s. induction es as [| e es IH]; simpl; intros s Hr H.
  - injection H as <-. exact Hr.
  - apply bind_Ok in H. destruct H as (s1 & H1 & H2).
    apply (IH s1); [| exact H2].
    apply (reach_step e s s1 Hr H1).
Qed.

(** C10: in every reachable state the mode is Start, Fast, Med or Slow,
    so the time constant of the mode and the filter window derived from
    it are not zero, and no step of the machine (an interrupt or any part
    of a pass of the main loop, with [reset_pll], [downgrade_mode], the
    promotion and the PI update in it) divides by zero. *)
Theorem no_division_by_zero (s : system) :
  reachable s ->
  0 <= mode (ctl s) <= 3 /\
  mode_to_tc (mode (ctl s)) <> 0 /\
  mode_to_tc (mode (ctl s)) / 10 <> 0 /\
  forall e : event, step e s <> Fault DivByZero.
Proof.
  intros Hr. pose proof (reachable_mode_ok s Hr) as Hm.
  split; [exact Hm |].
  split; [pose proof (mode_to_tc_pos _ Hm); lia |].
  split; [destruct (filter_time_cases _ Hm) as [-> | [-> | ->]]; lia |].
  intros e. eapply safe_no_div. apply step_safe. exact Hm.
Qed.

Lemma no_division_by_zero_witness :
  (exists s s',
     run (before_last (lock_up ++ nominal_seconds "0.0" 61 1)) boot = Ok s /\
     mode (ctl s) = MODE_FAST /\ pc s = AtControl (bytes_of "0.0") /\
     step (EvMain locked) s = Ok s' /\
     mode_to_tc (mode (ctl s)) <> 0 /\ mode_to_tc (mode (ctl s)) / 10 <> 0 /\
     step (EvMain locked) s <> Fault DivByZero) /\
  (exists s s',
     run (lock_up ++ nominal_seconds "0.0" 160 1 ++ before_last fix_lost) boot = Ok s /\
     mode (ctl s) = MODE_FAST /\
     step (EvMain locked) s = Ok s' /\ mode (ctl s') = MODE_START /\
     step (EvMain locked) s <> Fault DivByZero) /\
  (exists s s',
     run (lock_up ++ nominal_seconds "0.0" 260 1) boot = Ok s /\
     mode (ctl s) = MODE_MED /\
     step (EvMain (mkInputs false false)) s = Ok s' /\ mode (ctl s') = MODE_START /\
     step (EvMain (mkInputs false false)) s <> Fault DivByZero).
Proof.
  split; [| split].
  - eassert (Hrun : run (before_last (lock_up ++ nominal_seconds "0.0" 61 1)) boot = Ok _)
      by (vm_compute; reflexivity).
    match type of Hrun with
    | _ = Ok ?s =>
        eassert (Hs : step (EvMain locked) s = Ok _) by (vm_compute; reflexivity)
    end.
    do 2 eexists. split; [exact Hrun |]. split; [reflexivity |].
    split; [reflexivity |]. split; [exact Hs |].
    destruct (no_division_by_zero _ (run_reachable _ _ _ reach_boot Hrun))
      as (_ & Htc & Hft & Hdiv).
    split; [exact Htc |]. split; [exact Hft | apply Hdiv].
  - eassert (Hrun : run (lock_up ++ nominal_seconds "0.0" 160 1
                         ++ before_last fix_lost) boot = Ok _)
      by (vm_compute; reflexivity).
    match type of Hrun with
    | _ = Ok ?s =>
        eassert (Hs : step (EvMain locked) s = Ok _) by (vm_compute; reflexivity)
    end.
    do 2 eexists. split; [exact Hrun |]. split; [reflexivity |].
    split; [exact Hs |]. split; [reflexivity |].
    destruct (no_division_by_zero _ (run_reachable _ _ _ reach_boot Hrun))
      as (_ & _ & _ & Hdiv).
    apply Hdiv.
  - eassert (Hrun : run (lock_up ++ nominal_seconds "0.0" 260 1) boot = Ok _)
      by (vm_compute; reflexivity).
    match type of Hrun with
    | _ = Ok ?s =>
        eassert (Hs : step (EvMain (mkInputs false false)) s = Ok _)
          by (vm_compute; reflexivity)
    end.
    do 2 eexists. split; [exact Hrun |]. split; [reflexivity |].
    split; [exact Hs |]. split; [reflexivity |].
    destruct (no_division_by_zero _ (run_reachable _ _ _ reach_boot Hrun))
      as (_ & _ & _ & Hdiv).
    apply Hdiv.
Defined.

(** ** The mode moves one step at a time, except on a reset *)

(** C6, as stated, fails: 260 nominal seconds after lock the machine is
    in Med mode; when the oscillator then drops its lock the next pass of
    the loop resets it, and the mode goes from Med to Start in one move,
    past Fast. *)
Lemma mode_reset_counterexample :
  exists s s',
    run (lock_up ++ nominal_seconds "0.0" 260 1) boot = Ok s /\
    mode (ctl s) = MODE_MED /\
    step (EvMain (mkInputs false false)) s = Ok s' /\
    mode (ctl s') = MODE_START /\
    mode (ctl s') <> mode (ctl s) + 1 /\
    mode (ctl s') <> mode (ctl s) - 1.
Proof.
  eexists. eexists.
  split; [vm_compute; reflexivity |].
  split; [reflexivity |].
  split; [vm_compute; reflexivity |].
  split; [reflexivity |].
  split; vm_compute; discriminate.
Qed.

(** C6 (amended): in every reachable execution the mode stays within
    [Start, Slow], and every step of the machine leaves it where it was,
    moves it one step up, moves it one step down, or is a reset, which
    puts it back to Start from whatever mode it was in (with the integral
    term, both averages and the exit timer zeroed); in particular no step
    takes it from Fast to Slow or from Start to Med or Slow. *)
Theorem mode_moves (s s' : system) (e : event) :
  reachable s ->
  step e s = Ok s' ->
  0 <= mode (ctl s) <= 3 /\
  0 <= mode (ctl s') <= 3 /\
  (mode (ctl s') = mode (ctl s) \/
   mode (ctl s') = mode (ctl s) + 1 \/
   mode (ctl s') = mode (ctl s) - 1 \/
   was_reset (ctl s')) /\
  (mode (ctl s) < mode (ctl s') -> mode (ctl s') = mode (ctl s) + 1).
Proof.
  intros Hr Hs. destruct (reachable_bounded s Hr) as [Hm Hb].
  pose proof (safe_Ok_inv _ _ _ (step_safe e s Hm) Hs) as [Hm' _].
  destruct (step_bounded e s s' Hm Hb Hs) as [_ Hmv].
  split; [exact Hm |]. split; [exact Hm' |]. split; [exact Hmv |].
  unfold was_reset, MODE_START, mode_ok in *. lia.
Qed.

Lemma mode_moves_witness :
  (exists s s',
     run (before_last (lock_up ++ nominal_seconds "0.0" 60 1)) boot = Ok s /\
     step (EvMain locked) s = Ok s' /\
     mode (ctl s) = MODE_START /\ mode (ctl s') = MODE_FAST /\
     mode (ctl s') = mode (ctl s) + 1) /\
  (exists s s',
     run (lock_up ++ nominal_seconds "0.0" 160 1
          ++ before_last fix_lost) boot = Ok s /\
     step (EvMain locked) s = Ok s' /\
     mode (ctl s) = MODE_FAST /\ mode (ctl s') = MODE_START /\
     (mode (ctl s') = mode (ctl s) - 1 \/ was_reset (ctl s'))) /\
  (exists s s',
     run (lock_up ++ nominal_seconds "0.0" 260 1) boot = Ok s /\
     step (EvMain (mkInputs false false)) s = Ok s' /\
     mode (ctl s) = MODE_MED /\ mode (ctl s') = MODE_START /\
     was_reset (ctl s')).
Proof.
  split; [| split].
  - eassert (Hrun : run (before_last (lock_up ++ nominal_seconds "0.0" 60 1)) boot = Ok _)
      by (vm_compute; reflexivity).
    match type of Hrun with
    | _ = Ok ?s =>
        eassert (Hs : step (EvMain locked) s = Ok _) by (vm_compute; reflexivity)
    end.
    do 2 eexists. split; [exact Hrun |]. split; [exact Hs |].
    split; [reflexivity |]. split; [reflexivity |].
    destruct (mode_moves _ _ _ (run_reachable _ _ _ reach_boot Hrun) Hs)
      as (_ & _ & _ & Hup).
    apply Hup. vm_compute. reflexivity.
  - eassert (Hrun : run (lock_up ++ nominal_seconds "0.0" 160 1
                         ++ before_last fix_lost) boot = Ok _)
      by (vm_compute; reflexivity).
    match type of Hrun with
    | _ = Ok ?s =>
        eassert (Hs : step (EvMain locked) s = Ok _) by (vm_compute; reflexivity)
    end.
    do 2 eexists. split; [exact Hrun |]. split; [exact Hs |].
    split; [reflexivity |]. split; [reflexivity |].
    destruct (mode_moves _ _ _ (run_reachable _ _ _ reach_boot Hrun) Hs)
      as (_ & _ & [Hmv | [Hmv | [Hmv | Hmv]]] & _).
    + discriminate Hmv.
    + discriminate Hmv.
    + left. exact Hmv.
    + right. exact Hmv.
  - eassert (Hrun : run (lock_up ++ nominal_seconds "0.0" 260 1) boot = Ok _)
      by (vm_compute; reflexivity).
    match type of Hrun with
    | _ = Ok ?s =>
        eassert (Hs : step (EvMain (mkInputs false false)) s = Ok _)
          by (vm_compute; reflexivity)
    end.
    do 2 eexists. split; [exact Hrun |]. split; [exact Hs |].
    split; [reflexivity |]. split; [reflexivity |].
    destruct (mode_moves _ _ _ (run_reachable _ _ _ reach_boot Hrun) Hs)
      as (_ & _ & [Hmv | [Hmv | [Hmv | Hmv]]] & _).
    + discriminate Hmv.
    + discriminate Hmv.
    + discriminate Hmv.
    + exact Hmv.
Defined.

(** ** Rejected sentences *)

Lemma strchr_none_count (l : list Z) (c : Z) :
  strchr l c = None <-> count_occ Z.eq_dec l c = 0%nat.
Proof.
  induction l as [| x l IH]; simpl.
  - tauto.
  - destruct (x =? c) eqn:E.
    + apply Z.eqb_eq in E. subst. destruct (Z.eq_dec c c); [| contradiction].
      split; discriminate.
    + apply Z.eqb_neq in E. destruct (Z.eq_dec x c); [contradiction | exact IH].
Qed.

Lemma strchr_some_count (l p : list Z) (c : Z) :
  strchr l c = Some p -> S (count_occ Z.eq_dec (tl p) c) = count_occ Z.eq_dec l c.
Proof.
  induction l as [| x l IH]; simpl.
  - discriminate.
  - destruct (x =? c) eqn:E.
    + apply Z.eqb_eq in E. subst. intros H. injection H as <-. simpl.
      destruct (Z.eq_dec c c); [reflexivity | contradiction].
    + apply Z.eqb_neq in E. destruct (Z.eq_dec x c); [contradiction | exact IH].
Qed.

(** [skip_commas] fails exactly on the sentences with too few commas. *)
Lemma skip_commas_none (n : nat) (l : list Z) :
  skip_commas l n = None <-> (commas l < n)%nat.
Proof.
  revert l. induction n as [| n IH]; intros l; simpl.
  - split; [discriminate | lia].
  - destruct (strchr l 44) as [p |] eqn:E.
    + apply strchr_some_count in E. rewrite IH. unfold commas in *. lia.
    + apply strchr_none_count in E. unfold commas. split; [lia | reflexivity].
Qed.




Lemma forallb_seq (f : Z -> bool) (n : nat) :
  forallb f (map Z.of_nat (seq 0 n)) = true ->
  forall c, 0 <= c < Z.of_nat n -> f c = true.
Proof.
  intros H c Hc. rewrite forallb_forall in H. apply H.
  apply in_map_iff. exists (Z.to_nat c). split; [lia |].
  apply in_seq. lia.
Qed.

Lemma checksum_scan_app (body r : list Z) (i ck : Z) :
  ~ In 42 body ->
  checksum_scan (body ++ 42 :: r) i ck =
  (i + Z.of_nat (List.length body), fold_left Z.lxor body ck).
Proof.
  revert i ck. induction body as [| c body IH]; simpl; intros i ck H.
  - f_equal. lia.
  - destruct (c =? 42) eqn:E.
    + apply Z.eqb_eq in E. exfalso. apply H. left. exact E.
    + rewrite IH by (intros Hi; apply H; right; exact Hi). f_equal. lia.
Qed.

(** A line that carries a matching checksum gets past the two checksum
    tests of the handler. *)
Lemma checks_pass (line : list Z) :
  checksum_matches line ->
  exists i ck,
    checksum_scan (tl line) 1 0 = (i, ck) /\
    (i >? Z.of_nat (List.length line) - 3) = false /\
    (wrap8u (Z.lor (Z.shiftl (hexChar (nth (Z.to_nat (i + 1)) line 0)) 4)
                   (hexChar (nth (Z.to_nat (i + 1 + 1)) line 0))) =? ck) = true.
Proof.
  intros (first & body & d1 & d2 & rest & -> & Hn & Hx).
  exists (1 + Z.of_nat (List.length body)), (xor_bytes body).
  simpl tl. rewrite (checksum_scan_app _ _ _ _ Hn).
  split; [reflexivity |]. split.
  - rewrite Z.gtb_ltb. apply Z.ltb_ge.
    simpl List.length. rewrite length_app. simpl List.length. lia.
  - apply Z.eqb_eq. rewrite Hx. unfold hex_pair.
    replace (Z.to_nat (1 + Z.of_nat (List.length body) + 1))
      with (S (List.length body + 1)) by lia.
    replace (Z.to_nat (1 + Z.of_nat (List.length body) + 1 + 1))
      with (S (List.length body + 2)) by lia.
    simpl nth. rewrite !app_nth2_plus. reflexivity.
Qed.

Lemma list_eqb_eq (a b : list Z) : list_eqb a b = true <-> a = b.
Proof.
  revert b. induction a as [| x a IH]; intros [| y b]; simpl;
    try (split; [discriminate | congruence]); [tauto |].
  rewrite andb_true_iff, Z.eqb_eq, IH. split; [intros [-> ->] | intros H; injection H]; auto.
Qed.

Lemma has_prefix_true (lit : string) (l : list Z) :
  has_prefix lit l = true -> exists r, l = bytes_of lit ++ r.
Proof.
  unfold has_prefix. intros H. apply list_eqb_eq in H.
  exists (skipn (List.length (bytes_of lit)) l).
  rewrite <- H at 1. symmetry. apply firstn_skipn.
Qed.

Lemma has_prefix_exclusive (l : list Z) :
  (has_prefix "$GPGSA" l = true -> has_prefix "$GPRMC" l = false) /\
  (has_prefix "$PSTI,00" l = true ->
   has_prefix "$GPRMC" l = false /\ has_prefix "$GPGSA" l = false).
Proof.
  split; intros H; apply has_prefix_true in H; destruct H as [r ->];
    try split; reflexivity.
Qed.

(** The checks done, what is left of the handler on each of the
    sentences it knows. *)
Lemma handleGPS_gsa_body (line : list Z) (g : gps) :
  (9 <= List.length line)%nat -> checksum_matches line ->
  has_prefix "$GPGSA" (cstring line) = true ->
  handleGPS line g =
  match skip_commas (cstring line) 2 with
  | None => Ok g
  | Some ptr =>
      let c := hd 0 ptr in
      let g := mkGps (if (c =? 51) || (c =? 50) then 1 else 0)
                 (pps_err_buf g) (pdop_buf g) (time_buf g) (date_buf g) in
      match skip_commas ptr 13 with
      | None => Ok g
      | Some ptr =>
          len <- field_len ptr 4 ;;
          Ok (mkGps (gps_locked g) (pps_err_buf g)
                (firstn (Z.to_nat len) ptr) (time_buf g) (date_buf g))
      end
  end.
Proof.
  intros Hl Hm Hp. unfold handleGPS.
  destruct (checks_pass line Hm) as (i & ck & Hs & Hi & Hc).
  replace (Z.of_nat (List.length line) <? 9) with false
    by (symmetry; apply Z.ltb_ge; lia).
  rewrite Hs, Hi, Hc. cbn [negb].
  rewrite (proj1 (has_prefix_exclusive _) Hp), Hp. reflexivity.
Qed.

Lemma handleGPS_psti_body (line : list Z) (g : gps) :
  (9 <= List.length line)%nat -> checksum_matches line ->
  has_prefix "$PSTI,00" (cstring line) = true ->
  handleGPS line g =
  match skip_commas (cstring line) 4 with
  | None => Ok g
  | Some ptr =>
      len <- field_len ptr 4 ;;
      Ok (set_pps_err_buf g (firstn (Z.to_nat len) ptr))
  end.
Proof.
  intros Hl Hm Hp. unfold handleGPS.
  destruct (checks_pass line Hm) as (i & ck & Hs & Hi & Hc).
  replace (Z.of_nat (List.length line) <? 9) with false
    by (symmetry; apply Z.ltb_ge; lia).
  rewrite Hs, Hi, Hc. cbn [negb].
  destruct (proj2 (has_prefix_exclusive _) Hp) as [-> ->]. rewrite Hp. reflexivity.
Qed.

Lemma field_len_none (ptr : list Z) (cap : Z) :
  commas ptr = 0%nat -> field_len ptr cap = Fault Undefined.
Proof.
  intros H. unfold field_len.
  replace (strchr ptr 44) with (@None (list Z)); [reflexivity |].
  symmetry. apply strchr_none_count. exact H.
Qed.










(** ** Waiting for the quantization-error sentence *)

Lemma gps_edge_frame (s s' : system) :
  gps_edge s = Ok s' ->
  cap s' = cap s /\ nav s' = nav s /\ rx_line s' = rx_line s /\
  last_osc_locked s' = last_osc_locked s /\
  last_pps_count s' = last_pps_count s /\ clk_rc32m s' = clk_rc32m s /\
  pc s' = pc s /\ fused s' = fused s.
Proof.
  unfold gps_edge.
  destruct (negb (gps_locked (nav s) =? last_gps_locked s)).
  - intros H. apply bind_Ok in H. destruct H as (c & _ & H).
    injection H as <-. simpl. tauto.
  - intros H. injection H as <-. tauto.
Qed.

Lemma osc_edge_frame (o : Z) (s s' : system) :
  osc_edge o s = Ok s' ->
  cap s' = cap s /\ nav s' = nav s /\ rx_line s' = rx_line s /\
  last_gps_locked s' = last_gps_locked s /\
  last_pps_count s' = last_pps_count s /\ clk_rc32m s' = clk_rc32m s /\
  pc s' = pc s /\ fused s' = fused s.
Proof.
  unfold osc_edge.
  destruct (negb (o =? last_osc_locked s)).
  - intros H. apply bind_Ok in H. destruct H as (c & _ & H).
    injection H as <-. simpl. tauto.
  - intros H. injection H as <-. tauto.
Qed.

Lemma loop_head_waits (inp : inputs) (s : system) :
  mode_ok (ctl s) -> pc s = AtHead -> pps_err_buf (nav s) = [] ->
  waits (button inp = true) s (loop_head inp s).
Proof.
  intros Hm Hpc Hq. unfold loop_head.
  pose proof (gps_edge_safe s Hm) as Hg.
  destruct (gps_edge s) as [s1 | f] eqn:E1.
  2:{ exfalso. simpl in Hg. subst f.
      revert E1. unfold gps_edge.
      destruct (negb _); [| discriminate].
      destruct (negb _); [discriminate |].
      destruct (mode (ctl s) >? 0) eqn:Em; [| discriminate].
      apply Z.gtb_lt in Em. unfold mode_ok in Hm.
      rewrite downgrade_mode_ok by lia. discriminate. }
  simpl in Hg. destruct Hg as [[Hm1 _] _].
  destruct (gps_edge_frame _ _ E1) as (Hc1 & Hn1 & _ & _ & Hl1 & _ & Hp1 & Hf1).
  cbn [bind].
  pose proof (osc_edge_safe (if osc_lock_pin inp then 1 else 0) s1 Hm1) as Ho.
  destruct (osc_edge (if osc_lock_pin inp then 1 else 0) s1) as [s2 | f] eqn:E2.
  2:{ exfalso. simpl in Ho. subst f.
      revert E2. unfold osc_edge.
      destruct (negb _); [| discriminate].
      destruct (negb _); [discriminate |].
      destruct (reset_pll_ok (writeDacValue 0 false (ctl s1))) as (c' & -> & _).
      - unfold mode_ok. rewrite writeDacValue_mode. exact Hm1.
      - discriminate. }
  simpl in Ho.
  assert (Hm2 : mode_ok (ctl s2))
    by (unfold mode_ok, MODE_START in *; lia).
  destruct (osc_edge_frame _ _ _ E2) as (Hc2 & Hn2 & _ & _ & Hl2 & _ & Hp2 & Hf2).
  cbn [bind].
  assert (Hw : still_waiting s s2).
  { unfold still_waiting. rewrite Hp2, Hp1, Hf2, Hf1, Hn2, Hn1, Hl2, Hl1, Hc2, Hc1.
    auto 10. }
  destruct (negb _ && clk_rc32m s2).
  - unfold waits, still_waiting in *. simpl. tauto.
  - pose proof (button_write_safe (button inp) (ctl s2)) as Hbw.
    destruct (button_write (button inp) (ctl s2)) as [c | f] eqn:Eb.
    + simpl in Hbw. cbn [bind].
      assert (Hw' : still_waiting s (set_ctl s2 c)).
      { unfold still_waiting, mode_ok in *. simpl. rewrite Hbw. tauto. }
      destruct Hw' as (? & ? & Hq2 & ? & ? & ?).
      destruct (last_pps_count (set_ctl s2 c) =? pps_count (cap (set_ctl s2 c)));
        [unfold waits, still_waiting; tauto |].
      rewrite Hq2. unfold waits, still_waiting; tauto.
    + simpl in Hbw. subst f. cbn [bind]. unfold waits. split; [reflexivity |].
      destruct (button inp); [reflexivity | discriminate Eb].
Qed.

Lemma still_waiting_trans (s s1 s2 : system) :
  still_waiting s s1 -> still_waiting s1 s2 -> still_waiting s s2.
Proof.
  unfold still_waiting.
  intros (H1 & H2 & H3 & H4 & H5 & H6) (K1 & K2 & K3 & K4 & K5 & K6).
  split; [exact K1 |]. split; [congruence |]. split; [exact K3 |].
  split; [congruence |]. split; [congruence | exact K6].
Qed.

Lemma main_iter_waits (inp : inputs) (s : system) :
  mode_ok (ctl s) -> pc s = AtHead -> pps_err_buf (nav s) = [] ->
  waits (button inp = true) s (main_iter inp s).
Proof.
  intros Hm Hpc Hq. unfold main_iter.
  pose proof (loop_head_waits inp s Hm Hpc Hq) as H.
  destruct (loop_head inp s) as [s1 | f]; [| exact H].
  cbn [bind]. simpl in H. destruct H as (Hp1 & H).
  rewrite Hp1. unfold waits, still_waiting. tauto.
Qed.

(** C4, as stated, fails: a pulse arrives (phase detector at 1000, twelve
    nanoseconds off the midpoint) and no quantization-error sentence
    follows; after one pass of the loop, after two and after four the
    capture is still pending unprocessed: nothing has been fused, the
    average phase error is still 0 and [last_pps_count] is still behind
    [pps_count]. *)
Lemma qe_wait_counterexample :
  still_pending_after 1 /\ still_pending_after 2 /\ still_pending_after 4.
Proof.
  unfold still_pending_after.
  repeat split; (eexists; split; [vm_compute; reflexivity |]; simpl; tauto).
Qed.

(** C4 (amended): when a new capture is pending and no quantization-error
    text has arrived for it, a pass of the loop defers it, and so does
    every further pass for as long as no text arrives: however many
    passes the loop makes, nothing is fused, the capture registers and
    [last_pps_count] are as they were (the capture is still pending) and
    the latch is still empty; the capture is never processed with a zero
    correction.  The passes go through, unless a push of the button
    stops one on the conversion of the trim value.  The next pulse then
    overwrites the pending capture. *)
Theorem qe_wait (inps : list inputs) (s : system) :
  mode_ok (ctl s) ->
  pc s = AtHead ->
  pps_err_buf (nav s) = [] ->
  last_pps_count s <> pps_count (cap s) ->
  match main_iters inps s with
  | Ok s' =>
      run (map EvMain inps) s = Ok s' /\
      pc s' = AtHead /\
      fused s' = fused s /\
      pps_err_buf (nav s') = [] /\
      cap s' = cap s /\
      last_pps_count s' = last_pps_count s /\
      last_pps_count s' <> pps_count (cap s') /\
      (forall t a,
         irq_adc_value (cap (TCC5_CCA_vect t a s')) = wrap16u a /\
         fused (TCC5_CCA_vect t a s') = fused s)
  | Fault f => f = Undefined /\ Exists (fun inp => button inp = true) inps
  end.
Proof.
  revert s. induction inps as [| inp inps IH]; intros s Hm Hpc Hq Hne.
  - simpl. repeat split; auto.
  - cbn [main_iters].
    pose proof (main_iter_waits inp s Hm Hpc Hq) as Hw.
    assert (Hrun1 : forall s1, main_iter inp s = Ok s1 -> pc s1 = AtHead ->
                               step (EvMain inp) s = Ok s1).
    { intros s1 H1 _. unfold main_iter in H1.
      pose proof (loop_head_waits inp s Hm Hpc Hq) as Hh.
      cbn [step]. unfold main_step. rewrite Hpc.
      destruct (loop_head inp s) as [s0 | f0]; cbn [bind] in H1; [| discriminate].
      simpl in Hh. destruct Hh as (Hp0 & _).
      rewrite Hp0 in H1. exact H1. }
    destruct (main_iter inp s) as [s1 | f] eqn:E1; cbn [bind].
    + simpl in Hw. destruct Hw as (Hp1 & Hf1 & Hq1 & Hl1 & Hc1 & Hm1).
      assert (Hne1 : last_pps_count s1 <> pps_count (cap s1)) by congruence.
      specialize (IH s1 Hm1 Hp1 Hq1 Hne1).
      destruct (main_iters inps s1) as [s' | f].
      * destruct IH as (Hr & Hp' & Hf' & Hq' & Hc' & Hl' & Hne' & Hisr).
        cbn [map run]. rewrite (Hrun1 s1 eq_refl Hp1). cbn [bind].
        split; [exact Hr |]. split; [exact Hp' |]. split; [congruence |].
        split; [exact Hq' |]. split; [congruence |]. split; [congruence |].
        split; [exact Hne' |].
        intros t a. destruct (Hisr t a) as [Ha Hfu]. split; [exact Ha | congruence].
      * destruct IH as [-> Hex]. split; [reflexivity |]. apply Exists_cons_tl, Hex.
    + simpl in Hw. destruct Hw as [-> Hb]. split; [reflexivity |].
      apply Exists_cons_hd, Hb.
Qed.

Lemma qe_wait_witness :
  exists s',
    main_iters [locked; locked] pulse_pending = Ok s' /\
    fused s' = [] /\
    last_pps_count s' <> pps_count (cap s').
Proof.
  assert (H1 : mode_ok (ctl pulse_pending)) by (vm_compute; split; discriminate).
  assert (H2 : pc pulse_pending = AtHead) by reflexivity.
  assert (H3 : pps_err_buf (nav pulse_pending) = []) by reflexivity.
  assert (H4 : last_pps_count pulse_pending <> pps_count (cap pulse_pending))
    by (vm_compute; discriminate).
  pose proof (qe_wait [locked; locked] pulse_pending H1 H2 H3 H4) as H.
  destruct (main_iters [locked; locked] pulse_pending) as [s' | f].
  - destruct H as (_ & _ & Hf & _ & _ & _ & Hl & _).
    exists s'. split; [reflexivity |]. split; [exact Hf | exact Hl].
  - exfalso. destruct H as [_ Hex].
    inversion Hex as [? ? Hb | ? ? Hex']; [discriminate Hb |].
    inversion Hex' as [? ? Hb | ? ? Hex'']; [discriminate Hb |].
    inversion Hex''.
Defined.

(** ** From Start to Fast *)

(** C5, as stated, fails: with the quantization-error text empty each
    second the loop never takes an observation; after 60 nominal seconds
    the machine is still in Start mode, its exit timer still at 0. *)
Lemma start_empty_qe_counterexample :
  exists s,
    run (lock_up ++ nominal_seconds "" 60 1) boot = Ok s /\
    pps_count (cap s) = 60 /\
    mode (ctl s) = MODE_START /\
    exit_timer (ctl s) = 0 /\
    fused s = [].
Proof.
  eexists. split; [vm_compute; reflexivity |].
  simpl. tauto.
Qed.

Lemma pps_in_iff (c : control) :
  Qle_bool (fabs (average_pps_error c)) (25 # 100) = true <-> pps_in c.
Proof. unfold pps_in, fabs. apply Qle_bool_iff. Qed.

Lemma exit_reached_iff (c : control) :
  ((60 <=? exit_timer c + 1) && Qle_bool (fabs (average_phase_error c)) 20)
  || (600 <=? exit_timer c + 1) = true <-> exit_reached c.
Proof.
  unfold exit_reached, fabs.
  rewrite orb_true_iff, andb_true_iff, !Z.leb_le, Qle_bool_iff. tauto.
Qed.

Lemma start_tick_exit (c c' : control) :
  0 <= exit_timer c < 65535 ->
  start_tick c = Ok c' ->
  average_pps_error c' = average_pps_error c /\
  average_phase_error c' = average_phase_error c /\
  (pps_in c /\ exit_reached c -> mode c' = MODE_FAST /\ exit_timer c' = 0) /\
  (pps_in c /\ ~ exit_reached c ->
   mode c' = mode c /\ exit_timer c' = exit_timer c + 1) /\
  (~ pps_in c -> mode c' = mode c /\ exit_timer c' = 0).
Proof.
  intros Het H. unfold start_tick in H.
  apply bind_Ok in H. destruct H as (dv & _ & H).
  set (c1 := writeDacValue dv false _) in H.
  assert (Hpps : average_pps_error c1 = average_pps_error c)
    by (unfold c1, writeDacValue; destruct (_ =? _); reflexivity).
  assert (Hph : average_phase_error c1 = average_phase_error c)
    by (unfold c1, writeDacValue; destruct (_ =? _); reflexivity).
  assert (Hmd : mode c1 = mode c)
    by (unfold c1; rewrite writeDacValue_mode; reflexivity).
  assert (Hex : exit_timer c1 = exit_timer c)
    by (unfold c1, writeDacValue; destruct (_ =? _); reflexivity).
  assert (Hw : wrap16u (exit_timer c + 1) = exit_timer c + 1)
    by (unfold wrap16u; apply Z.mod_small; lia).
  cbn [exit_timer set_exit_timer average_phase_error] in H.
  rewrite Hpps, Hph, Hex, Hw in H.
  pose proof (pps_in_iff c) as Ip. pose proof (exit_reached_iff c) as Ie.
  destruct (Qle_bool (fabs (average_pps_error c)) (25 # 100)).
  - destruct (((60 <=? exit_timer c + 1)
               && Qle_bool (fabs (average_phase_error c)) 20)
              || (600 <=? exit_timer c + 1)).
    + injection H as <-. simpl.
      split; [exact Hpps |]. split; [exact Hph |].
      split; [intros _; split; reflexivity |].
      split; [intros [_ Hn]; exfalso; apply Hn, Ie; reflexivity |].
      intros Hn. exfalso. apply Hn, Ip. reflexivity.
    + injection H as <-. simpl.
      split; [exact Hpps |]. split; [exact Hph |].
      split; [intros [_ He]; apply Ie in He; discriminate |].
      split; [intros _; split; [exact Hmd | reflexivity] |].
      intros Hn. exfalso. apply Hn, Ip. reflexivity.
  - injection H as <-. simpl.
    split; [exact Hpps |]. split; [exact Hph |].
    split; [intros [Hp _]; apply Ip in Hp; discriminate |].
    split; [intros [Hp _]; apply Ip in Hp; discriminate |].
    intros _. split; [exact Hmd | reflexivity].
Qed.

Lemma nominal_run (n : nat) :
  (n <= 60)%nat ->
  exists s,
    run (lock_up ++ nominal_seconds "0.0" n 1) boot = Ok s /\
    pc s = AtHead /\
    List.length (fused s) = n /\
    average_pps_error (ctl s) = 0%Q /\
    average_phase_error (ctl s) = 0%Q /\
    mode (ctl s) = (if (n <? 60)%nat then MODE_START else MODE_FAST) /\
    exit_timer (ctl s) = (if (n <? 60)%nat then Z.of_nat n else 0).
Proof.
  intros Hn.
  do 61 (destruct n as [| n];
         [eexists; split; [vm_compute; reflexivity | repeat split] |]).
  lia.
Qed.

Lemma update_filters_keeps (tc cpe icd sd : Z) (c t : control) :
  update_filters tc cpe icd sd c = Ok t ->
  mode t = mode c /\ exit_timer t = exit_timer c.
Proof.
  intros H. unfold update_filters in H.
  apply bind_Ok in H. destruct H as (a & _ & H).
  apply bind_Ok in H. destruct H as (b & _ & H).
  apply bind_Ok in H. destruct H as (d & _ & H).
  apply bind_Ok in H. destruct H as (e & _ & H).
  injection H as <-. split; reflexivity.
Qed.

(** What one tick in Start mode with the frequency error in range does
    to the count. *)
Lemma start_pass_rule (c c' : control) :
  0 <= exit_timer c < 65535 ->
  start_pass c c' -> pps_in c' ->
  (mode c' = MODE_START /\ exit_timer c' = exit_timer c + 1 /\
   ~ count_reached (exit_timer c + 1) c') \/
  (mode c' = MODE_FAST /\ exit_timer c' = 0 /\
   count_reached (exit_timer c + 1) c').
Proof.
  intros He (Hm & cpe & icd & sd & t & Hf & Ht) Hp.
  destruct (update_filters_keeps _ _ _ _ _ _ Hf) as [Hmt Het].
  rewrite <- Het in He.
  destruct (start_tick_exit t c' He Ht) as (Epps & Eph & H1 & H2 & _).
  assert (Hpt : pps_in t) by (unfold pps_in in *; rewrite <- Epps; exact Hp).
  assert (Hiff : exit_reached t <-> count_reached (exit_timer c + 1) c').
  { unfold exit_reached, count_reached. rewrite Het, Eph. tauto. }
  destruct (Qle_bool (fabs (average_phase_error t)) 20) eqn:Eq.
  - apply Qle_bool_iff in Eq. unfold fabs in Eq.
    destruct (Z_le_gt_dec 60 (exit_timer t + 1)) as [L | G].
    + right. destruct H1 as [K1 K2]; [split; [exact Hpt | left; auto] |].
      split; [exact K1 |]. split; [exact K2 |]. apply Hiff. left. auto.
    + left. assert (Hn : ~ exit_reached t) by (intros [[L _] | L]; lia).
      destruct H2 as [K1 K2]; [auto |].
      split; [congruence |]. split; [lia |]. rewrite <- Hiff. exact Hn.
  - assert (Hq : ~ (Qabs (average_phase_error t) <= 20)%Q).
    { intros L. apply Qle_bool_iff in L. unfold fabs in Eq. congruence. }
    destruct (Z_le_gt_dec 600 (exit_timer t + 1)) as [L | G].
    + right. destruct H1 as [K1 K2]; [split; [exact Hpt | right; exact L] |].
      split; [exact K1 |]. split; [exact K2 |]. apply Hiff. right. exact L.
    + left. assert (Hn : ~ exit_reached t) by (intros [[_ L] | L]; [contradiction | lia]).
      destruct H2 as [K1 K2]; [auto |].
      split; [congruence |]. split; [lia |]. rewrite <- Hiff. exact Hn.
Qed.

Lemma last_default {A : Type} (l : list A) (a d d' : A) :
  last (a :: l) d = last (a :: l) d'.
Proof.
  revert a. induction l as [| b l IH]; intros a; [reflexivity |].
  change (last (b :: l) d = last (b :: l) d'). apply IH.
Qed.

(** Along a stretch of ticks in range the count goes up by one a tick,
    and only the last tick of the stretch can be the promotion. *)
Lemma start_stretch_count (cs : list control) (c : control) :
  0 <= exit_timer c < 65535 ->
  cs <> [] ->
  start_stretch c cs ->
  (mode (last cs c) = MODE_START /\
   exit_timer (last cs c) = exit_timer c + Z.of_nat (List.length cs) /\
   ~ count_reached (exit_timer c + Z.of_nat (List.length cs)) (last cs c)) \/
  (mode (last cs c) = MODE_FAST /\ exit_timer (last cs c) = 0 /\
   count_reached (exit_timer c + Z.of_nat (List.length cs)) (last cs c)).
Proof.
  revert c. induction cs as [| c1 r IH]; intros c He Hne Hs; [contradiction |].
  destruct Hs as (Hp & Hin & Hr).
  pose proof (start_pass_rule c c1 He Hp Hin) as Hrule.
  destruct r as [| c2 r'].
  - simpl last. simpl List.length. exact Hrule.
  - assert (Hm1 : mode c1 = MODE_START) by (destruct Hr as ((Hm1 & _) & _); exact Hm1).
    destruct Hrule as [(_ & E1 & Hn1) | (Hf & _)];
      [| rewrite Hm1 in Hf; discriminate Hf].
    assert (He1 : 0 <= exit_timer c1 < 65535).
    { assert (~ 600 <= exit_timer c + 1) by (intros L; apply Hn1; right; exact L). lia. }
    assert (Hne1 : c2 :: r' <> []) by discriminate.
    specialize (IH c1 He1 Hne1 Hr).
    change (last (c1 :: c2 :: r') c) with (last (c2 :: r') c).
    rewrite (last_default r' c2 c c1).
    replace (exit_timer c + Z.of_nat (List.length (c1 :: c2 :: r')))
      with (exit_timer c1 + Z.of_nat (List.length (c2 :: r')))
      by (rewrite E1; simpl List.length; lia).
    exact IH.
Qed.

(** A tick of the loop that takes an observation in Start mode is a
    Start pass on the control state. *)
Lemma control_tick_start_pass (temp : list Z) (s s' : system) :
  mode (ctl s) = MODE_START ->
  control_tick temp s = Ok s' ->
  fused s' <> fused s ->
  start_pass (ctl s) (ctl s').
Proof.
  intros Hm H Hf. unfold control_tick in H.
  destruct (cycle_deltas (irq_time_span (cap s))) as [sd icd].
  apply bind_Ok in H. destruct H as (q & _ & H).
  destruct (q >? F_CPU / 10000).
  { injection H as <-. exfalso. apply Hf. reflexivity. }
  apply bind_Ok in H. destruct H as (cpe & _ & H).
  apply bind_Ok in H. destruct H as (c1 & Hu & H).
  apply bind_Ok in H. destruct H as (c2 & Ht & H).
  injection H as <-. cbn [ctl].
  destruct (update_filters_keeps _ _ _ _ _ _ Hu) as [Hm1 _].
  replace (mode c1 =? MODE_START) with true in Ht
    by (symmetry; apply Z.eqb_eq; congruence).
  split; [exact Hm |]. exists cpe, icd, sd, c1. auto.
Qed.

(** C5 (amended): starting from boot and lock (Start mode, averages at
    zero), if second after second the cycle span is exactly F_CPU, the
    phase detector sits at its midpoint and the quantization-error text
    that arrives reads zero ("0.0"), then every second is taken as an
    observation, both averages stay 0, the machine is in Start mode with
    its exit timer at n after n < 60 seconds, and in Fast mode after the
    60th.  In general the test of Start mode is on the counter
    [exit_timer] and on this tick's averages, not on a history of the
    error: a tick in Start mode with the averaged frequency error within
    0.25 promotes to Fast, clearing the counter, when the counter plus
    one has reached 60 with the averaged phase error within 20, or has
    reached 600 whatever the phase error, and otherwise stays in Start
    with the counter one up; a tick with the frequency error out of
    range stays in Start and clears the counter.  Every tick of the loop
    that takes an observation in Start mode is such a tick.  So along an
    uninterrupted stretch of Start ticks with the frequency error in
    range, from a counter at e, the machine after k ticks is in Start
    with the counter at e + k as long as e + k < 60, or e + k < 600 with
    the phase error out of range, and is promoted on the tick at which
    e + k >= 60 with the phase error in range, or e + k >= 600.  The
    counter is the number of consecutive ticks in range only if it was 0
    at their start and nothing but the ticks touched it: [reset_pll]
    clears it (thirty nominal seconds, the lock of the oscillator lost
    and back, thirty more: sixty ticks in range one after the other, and
    the machine is in Start with the counter at 30), and
    [downgrade_mode] leaves it what it was in the mode it leaves (the
    fix lost and back a hundred seconds into Fast mode: Start with the
    counter at 100, and the first tick promotes). *)
Theorem start_to_fast :
  (forall n : nat, (n <= 60)%nat ->
   exists s,
     run (lock_up ++ nominal_seconds "0.0" n 1) boot = Ok s /\
     List.length (fused s) = n /\
     average_pps_error (ctl s) = 0%Q /\
     average_phase_error (ctl s) = 0%Q /\
     ((n < 60)%nat -> mode (ctl s) = MODE_START /\ exit_timer (ctl s) = Z.of_nat n) /\
     (n = 60%nat -> mode (ctl s) = MODE_FAST /\ exit_timer (ctl s) = 0)) /\
  (forall c c' : control,
     mode c = MODE_START ->
     0 <= exit_timer c < 65535 ->
     start_tick c = Ok c' ->
     (pps_in c /\ exit_reached c -> mode c' = MODE_FAST /\ exit_timer c' = 0) /\
     (pps_in c /\ ~ exit_reached c ->
      mode c' = MODE_START /\ exit_timer c' = exit_timer c + 1) /\
     (~ pps_in c -> mode c' = MODE_START /\ exit_timer c' = 0)) /\
  (forall temp s s',
     mode (ctl s) = MODE_START ->
     control_tick temp s = Ok s' ->
     fused s' <> fused s ->
     start_pass (ctl s) (ctl s')) /\
  (forall c cs,
     0 <= exit_timer c < 65535 ->
     cs <> [] ->
     start_stretch c cs ->
     let n := exit_timer c + Z.of_nat (List.length cs) in
     let l := last cs c in
     (n < 60 -> mode l = MODE_START /\ exit_timer l = n) /\
     (60 <= n -> (Qabs (average_phase_error l) <= 20)%Q ->
      mode l = MODE_FAST /\ exit_timer l = 0) /\
     (60 <= n < 600 -> ~ (Qabs (average_phase_error l) <= 20)%Q ->
      mode l = MODE_START /\ exit_timer l = n) /\
     (600 <= n -> mode l = MODE_FAST /\ exit_timer l = 0)) /\
  (exists s,
     run blip_after_thirty boot = Ok s /\
     List.length (fused s) = 60%nat /\
     mode (ctl s) = MODE_START /\ exit_timer (ctl s) = 30) /\
  (exists s s',
     run fix_blip_in_fast boot = Ok s /\
     mode (ctl s) = MODE_START /\ exit_timer (ctl s) = 100 /\
     run (nominal_seconds "0.0" 1 161) s = Ok s' /\
     mode (ctl s') = MODE_FAST).
Proof.
  split; [| split; [| split; [| split; [| split]]]].
  - intros n Hn. destruct (nominal_run n Hn) as (s & Hr & _ & Hf & Hp & Hph & Hm & He).
    exists s. split; [exact Hr |]. split; [exact Hf |]. split; [exact Hp |].
    split; [exact Hph |]. split.
    + intros Hlt. apply Nat.ltb_lt in Hlt. rewrite Hlt in Hm, He. auto.
    + intros ->. auto.
  - intros c c' Hm Het H.
    destruct (start_tick_exit c c' Het H) as (_ & _ & H1 & H2 & H3).
    rewrite Hm in H2, H3. auto.
  - exact control_tick_start_pass.
  - intros c cs He Hne Hs. cbv zeta.
    destruct (start_stretch_count cs c He Hne Hs) as [(Hm & Hx & Hn) | (Hm & Hx & Hy)];
      unfold count_reached in *.
    + split; [auto |].
      split; [intros L Hq; exfalso; apply Hn; left; auto |].
      split; [auto |].
      intros L. exfalso. apply Hn. right. exact L.
    + assert (Hsf : MODE_FAST <> MODE_START) by discriminate.
      split; [intros L; exfalso; destruct Hy as [[L' _] | L']; lia |].
      split; [auto |].
      split; [| auto].
      intros L Hq. exfalso. destruct Hy as [[_ Hq'] | L']; [contradiction | lia].
  - eexists. split; [vm_compute; reflexivity |]. repeat split.
  - eexists. eexists. split; [vm_compute; reflexivity |].
    split; [reflexivity |]. split; [reflexivity |].
    split; [vm_compute; reflexivity | reflexivity].
Qed.

Lemma start_to_fast_witness :
  (exists s,
     run (lock_up ++ nominal_seconds "0.0" 60 1) boot = Ok s /\
     mode (ctl s) = MODE_FAST) /\
  (exists s,
     run (lock_up ++ nominal_seconds "0.0" 59 1) boot = Ok s /\
     mode (ctl s) = MODE_START) /\
  (exists c',
     start_tick (mkControl 0 0 0 0 0 MODE_START 59 0 []) = Ok c' /\
     mode c' = MODE_FAST /\ exit_timer c' = 0) /\
  (exists c1 c2,
     start_stretch (mkControl 0 0 0 0 0 MODE_START 58 0 []) [c1; c2] /\
     mode c1 = MODE_START /\ mode c2 = MODE_FAST /\ exit_timer c2 = 0).
Proof.
  destruct start_to_fast as (Hrun & Hone & _ & Hcount & _).
  split; [| split; [| split]].
  - destruct (Hrun 60%nat) as (s & Hr & _ & _ & _ & _ & H60); [lia |].
    exists s. split; [exact Hr | apply H60; reflexivity].
  - destruct (Hrun 59%nat) as (s & Hr & _ & _ & _ & H59 & _); [lia |].
    exists s. split; [exact Hr | apply H59; lia].
  - eassert (Ht : start_tick (mkControl 0 0 0 0 0 MODE_START 59 0 []) = Ok _)
      by (vm_compute; reflexivity).
    eexists. split; [exact Ht |].
    pose proof (fun He => Hone (mkControl 0 0 0 0 0 MODE_START 59 0 []) _ eq_refl He Ht) as P.
    destruct P as (H1 & _); [simpl; lia |].
    apply H1. split.
    + unfold pps_in. apply Qle_bool_iff. reflexivity.
    + left. split; [simpl; lia | apply Qle_bool_iff; reflexivity].
  - eassert (Hf1 : update_filters (mode_to_tc MODE_START) 0 0 0
                     (mkControl 0 0 0 0 0 MODE_START 58 0 []) = Ok _)
      by (vm_compute; reflexivity).
    match type of Hf1 with
    | _ = Ok ?t =>
        eassert (Ht1 : start_tick t = Ok _) by (vm_compute; reflexivity)
    end.
    match type of Ht1 with
    | _ = Ok ?c1 =>
        eassert (Hf2 : update_filters (mode_to_tc MODE_START) 0 0 0 c1 = Ok _)
          by (vm_compute; reflexivity)
    end.
    match type of Hf2 with
    | _ = Ok ?t =>
        eassert (Ht2 : start_tick t = Ok _) by (vm_compute; reflexivity)
    end.
    eassert (Hs : start_stretch (mkControl 0 0 0 0 0 MODE_START 58 0 []) [_; _]).
    { split; [split; [reflexivity |]; exists 0, 0, 0; eexists;
              split; [exact Hf1 | exact Ht1] |].
      split; [unfold pps_in; apply Qle_bool_iff; reflexivity |].
      split; [split; [reflexivity |]; exists 0, 0, 0; eexists;
              split; [exact Hf2 | exact Ht2] |].
      split; [unfold pps_in; apply Qle_bool_iff; reflexivity | exact I]. }
    do 2 eexists. split; [exact Hs |]. split; [reflexivity |].
    pose proof (fun He Hne => Hcount _ _ He Hne Hs) as P.
    destruct P as (_ & P & _).
    + simpl. lia.
    + discriminate.
    + apply P; [simpl; lia | apply Qle_bool_iff; reflexivity].
Defined.

(** ** The quantization error and the capture it is added to *)

(** C1 fails on this execution: the tick adds the quantization error
    reported for pulse 1 to the capture of pulse 2 (and, the edge counter
    not having been taken along, the capture of pulse 2 is fused a second
    time once its own sentence has arrived). *)
Theorem preempted_pass_fuses_stale_qe :
  (exists s,
     run preempted_pass boot = Ok s /\
     pps_count (cap s) = 2 /\
     fused s = [mkObs 1100 F_CPU (bytes_of "5.8")] /\
     (average_phase_error (ctl s) == - (29 # 10))%Q) /\
  (exists s,
     run preempted_pass_then_next boot = Ok s /\
     pps_count (cap s) = 2 /\
     fused s = [mkObs 1100 F_CPU (bytes_of "5.8");
                mkObs 1100 F_CPU (bytes_of "1.0")]).
Proof.
  split; eexists; (split; [vm_compute; reflexivity |]); simpl; repeat split.
Qed.

Lemma control_tick_fused (temp : list Z) (s s' : system) :
  control_tick temp s = Ok s' ->
  fused s' = fused s \/
  fused s' = fused s ++ [mkObs (irq_adc_value (cap s)) (irq_time_span (cap s)) temp].
Proof.
  unfold control_tick.
  destruct (cycle_deltas (irq_time_span (cap s))) as [sd icd].
  intros H. apply bind_Ok in H. destruct H as (q & _ & H).
  destruct (q >? F_CPU / 10000).
  - injection H as <-. left. reflexivity.
  - apply bind_Ok in H. destruct H as (cpe & _ & H).
    apply bind_Ok in H. destruct H as (c1 & _ & H).
    apply bind_Ok in H. destruct H as (c2 & _ & H).
    injection H as <-. right. reflexivity.
Qed.

Lemma loop_head_frame (inp : inputs) (s s1 : system) :
  pc s = AtHead ->
  loop_head inp s = Ok s1 ->
  fused s1 = fused s /\ cap s1 = cap s /\
  (pc s1 = AtHead \/
   (pc s1 = AtTakeQe /\ nav s1 = nav s /\ pps_err_buf (nav s) <> [])).
Proof.
  intros Hpc H. unfold loop_head in H.
  apply bind_Ok in H. destruct H as (sa & Ha & H).
  apply bind_Ok in H. destruct H as (sb & Hb & H).
  destruct (gps_edge_frame _ _ Ha) as (Hc1 & Hn1 & _ & _ & _ & _ & Hp1 & Hf1).
  destruct (osc_edge_frame _ _ _ Hb) as (Hc2 & Hn2 & _ & _ & _ & _ & Hp2 & Hf2).
  assert (Hf : fused sb = fused s) by congruence.
  assert (Hc : cap sb = cap s) by congruence.
  assert (Hn : nav sb = nav s) by congruence.
  assert (Hp : pc sb = AtHead) by congruence.
  destruct (negb _ && clk_rc32m sb).
  - injection H as <-. simpl. auto.
  - apply bind_Ok in H. destruct H as (c & _ & H).
    cbn [last_pps_count set_ctl cap nav pps_count] in H.
    destruct (last_pps_count sb =? pps_count (cap sb)).
    + injection H as <-. simpl. auto.
    + destruct (pps_err_buf (nav sb)) as [| x l] eqn:El.
      * injection H as <-. simpl. auto.
      * destruct (_ || _); injection H as <-; simpl.
        -- auto.
        -- split; [exact Hf |]. split; [exact Hc |]. right.
           split; [reflexivity |]. split; [exact Hn |].
           rewrite <- Hn, El. discriminate.
Qed.

(** A pass of the loop that is not interrupted fuses at most one
    observation, made of the capture registers and of the non-empty
    latch as they were when the pass began; and a pulse leaves the latch
    empty.  So with interrupts kept out of a pass, the text fused with a
    capture was stored after the pulse that made the capture. *)
Lemma uninterrupted_pass_fusion (inp : inputs) (s s' : system) :
  pc s = AtHead ->
  main_iter inp s = Ok s' ->
  (fused s' = fused s \/
   (pps_err_buf (nav s) <> [] /\
    fused s' = fused s ++ [mkObs (irq_adc_value (cap s)) (irq_time_span (cap s))
                                 (pps_err_buf (nav s))])) /\
  (forall t a, pps_err_buf (nav (TCC5_CCA_vect t a s')) = []).
Proof.
  intros Hpc H. split; [| intros; reflexivity].
  unfold main_iter in H.
  apply bind_Ok in H. destruct H as (s1 & H1 & H).
  destruct (loop_head_frame inp s s1 Hpc H1) as (Hf & Hc & [Hp | (Hp & Hn & Hq)]).
  - rewrite Hp in H. injection H as <-. left. exact Hf.
  - rewrite Hp in H. apply control_tick_fused in H.
    simpl in H. rewrite Hf, Hc, Hn in H.
    destruct H as [H | H]; [left; exact H | right; split; [exact Hq | exact H]].
Qed.

(** * Further properties of the code *)

Lemma Ok_inj {A : Type} (a b : A) : Ok a = Ok b -> a = b.
Proof. intros H. injection H as ->. reflexivity. Qed.

(** ** Hexadecimal digits *)

(** X1: [hexChar] on a byte: a decimal digit gives its value, a letter
    [a]-[f] or [A]-[F] gives 10 to 15, NUL gives 16 (the terminator of
    [hexes] is found by [strchr_P]), and every other byte gives 0. *)
Theorem hexChar_table (c : Z) :
  0 <= c < 256 ->
  hexChar c = (if (48 <=? c) && (c <=? 57) then c - 48
               else if (97 <=? c) && (c <=? 102) then c - 87
               else if (65 <=? c) && (c <=? 70) then c - 55
               else if c =? 0 then 16
               else 0).
Proof.
  intros Hc. apply Z.eqb_eq.
  apply (forallb_seq
           (fun c => hexChar c =?
                     (if (48 <=? c) && (c <=? 57) then c - 48
                      else if (97 <=? c) && (c <=? 102) then c - 87
                      else if (65 <=? c) && (c <=? 70) then c - 55
                      else if c =? 0 then 16
                      else 0)) 256);
    [vm_compute; reflexivity | exact Hc].
Qed.

Lemma hexChar_table_witness :
  hexChar 70 = 15 /\ hexChar 102 = 15 /\ hexChar 57 = 9 /\ hexChar 71 = 0.
Proof.
  split; [apply (hexChar_table 70); lia |].
  split; [apply (hexChar_table 102); lia |].
  split; [apply (hexChar_table 57); lia | apply (hexChar_table 71); lia].
Defined.

(** ** Fields of a sentence *)

Lemma strchr_app (a p : list Z) (c : Z) :
  ~ In c a -> strchr (a ++ c :: p) c = Some (c :: p).
Proof.
  induction a as [| x a IH]; simpl; intros H.
  - rewrite Z.eqb_refl. reflexivity.
  - destruct (x =? c) eqn:E.
    + apply Z.eqb_eq in E. exfalso. apply H. left. exact E.
    + apply IH. intros Hi. apply H. right. exact Hi.
Qed.

Lemma strchr_split (l q : list Z) (c : Z) :
  strchr l c = Some q ->
  exists a p, l = a ++ c :: p /\ q = c :: p /\ ~ In c a.
Proof.
  induction l as [| x l IH]; simpl; [discriminate |].
  destruct (x =? c) eqn:E.
  - apply Z.eqb_eq in E. subst x. intros H. injection H as <-.
    exists [], l. simpl. auto.
  - apply Z.eqb_neq in E. intros H. apply IH in H.
    destruct H as (a & p & -> & -> & Hn).
    exists (x :: a), p. simpl. repeat split; auto.
    intros [H | H]; [congruence | contradiction].
Qed.

Lemma commas_app (a b : list Z) : commas (a ++ b) = (commas a + commas b)%nat.
Proof. unfold commas. apply count_occ_app. Qed.

Lemma commas_cons_comma (l : list Z) : commas (44 :: l) = S (commas l).
Proof. unfold commas. simpl. destruct (Z.eq_dec 44 44); [reflexivity | contradiction]. Qed.

Lemma commas_none (a : list Z) : ~ In 44 a <-> commas a = 0%nat.
Proof. unfold commas. apply count_occ_not_In. Qed.

(** The first comma of a list that has one. *)
Lemma first_comma (l : list Z) :
  (0 < commas l)%nat ->
  exists a p, l = a ++ 44 :: p /\ ~ In 44 a.
Proof.
  intros H. destruct (strchr l 44) as [q |] eqn:E.
  - apply strchr_split in E. destruct E as (a & p & -> & _ & Hn). eauto.
  - apply strchr_none_count in E. unfold commas in H. lia.
Qed.

Lemma skip_commas_some (l p : list Z) (k : nat) :
  skip_commas l (S k) = Some p <->
  exists pre, l = pre ++ 44 :: p /\ commas pre = k.
Proof.
  revert l. induction k as [| k IH]; intros l.
  - simpl. split.
    + destruct (strchr l 44) as [q |] eqn:E; [| discriminate].
      intros H. injection H as <-.
      apply strchr_split in E. destruct E as (a & p & -> & -> & Hn).
      exists a. split; [reflexivity |]. apply commas_none. exact Hn.
    + intros (pre & -> & Hc). apply commas_none in Hc.
      rewrite (strchr_app _ _ _ Hc). reflexivity.
  - change (skip_commas l (S (S k)))
      with (match strchr l 44 with
            | None => None
            | Some q => skip_commas (tl q) (S k)
            end).
    split.
    + destruct (strchr l 44) as [q |] eqn:E; [| discriminate].
      apply strchr_split in E. destruct E as (a & r & -> & -> & Hn).
      simpl tl. intros H. apply IH in H. destruct H as (pre & -> & Hc).
      exists (a ++ 44 :: pre). split.
      * rewrite <- app_assoc. reflexivity.
      * rewrite commas_app, commas_cons_comma, Hc.
        apply commas_none in Hn. lia.
    + intros (pre & -> & Hc).
      destruct (first_comma pre) as (a & r & -> & Hn); [lia |].
      rewrite <- app_assoc. simpl app.
      rewrite (strchr_app _ _ _ Hn). simpl tl. apply IH.
      exists r. split; [reflexivity |].
      rewrite commas_app, commas_cons_comma in Hc.
      apply commas_none in Hn. lia.
Qed.

(** X2: [skip_commas] over [k + 1] commas fails exactly when the string
    has at most [k] commas, and otherwise returns what follows the
    [(k + 1)]-th comma: the string splits into a part with exactly [k]
    commas, a comma, and the result. *)
Theorem skip_commas_spec (l : list Z) (k : nat) :
  (skip_commas l (S k) = None <-> (commas l <= k)%nat) /\
  (forall p, skip_commas l (S k) = Some p <->
             exists pre, l = pre ++ 44 :: p /\ commas pre = k).
Proof.
  split.
  - rewrite skip_commas_none. lia.
  - intros p. apply skip_commas_some.
Qed.

(** ** Accepted sentences *)

Lemma cstring_length (l : list Z) : (List.length (cstring l) <= List.length l)%nat.
Proof.
  induction l as [| c l IH]; simpl; [lia |].
  destruct (c =? 0); simpl; lia.
Qed.

Lemma cstring_no_nul (l : list Z) : ~ In 0 (cstring l).
Proof.
  induction l as [| c l IH]; simpl; [tauto |].
  destruct (c =? 0) eqn:E; simpl; [tauto |].
  apply Z.eqb_neq in E. intros [H | H]; [congruence | contradiction].
Qed.

Lemma field_len_comma (field rest : list Z) (cap : Z) :
  ~ In 44 field -> (List.length field < 256)%nat ->
  field_len (field ++ 44 :: rest) cap =
  Ok (Z.min (Z.of_nat (List.length field)) cap).
Proof.
  intros Hn Hl. unfold field_len. rewrite (strchr_app _ _ _ Hn).
  rewrite length_app. simpl List.length.
  replace (Z.of_nat (List.length field + S (List.length rest)) -
           Z.of_nat (S (List.length rest))) with (Z.of_nat (List.length field)) by lia.
  unfold wrap8u. rewrite Z.mod_small by lia.
  f_equal. destruct (Z.of_nat (List.length field) >? cap) eqn:E.
  - rewrite Z.gtb_ltb in E. apply Z.ltb_lt in E. lia.
  - rewrite Z.gtb_ltb in E. apply Z.ltb_ge in E. lia.
Qed.

Lemma firstn_min_app (n : nat) (field rest : list Z) :
  firstn (Nat.min (List.length field) n) (field ++ rest) = firstn n field.
Proof.
  rewrite firstn_app.
  replace (Nat.min (List.length field) n - List.length field)%nat with 0%nat by lia.
  simpl. rewrite app_nil_r.
  destruct (Nat.le_ge_cases (List.length field) n) as [H | H].
  - rewrite Nat.min_l by exact H. rewrite firstn_all. symmetry. apply firstn_all2. exact H.
  - rewrite Nat.min_r by exact H. reflexivity.
Qed.

(** X4: a quantization-error sentence of nine to 255 characters with a
    matching checksum stores the first four characters of its fifth field
    (the text between the fourth comma and the next) in the latch, and
    changes nothing else. *)
Theorem handleGPS_latches_qe (line pre field rest : list Z) (g : gps) :
  (9 <= List.length line < 256)%nat ->
  checksum_matches line ->
  has_prefix "$PSTI,00" (cstring line) = true ->
  cstring line = pre ++ 44 :: field ++ 44 :: rest ->
  commas pre = 3%nat ->
  ~ In 44 field ->
  handleGPS line g = Ok (set_pps_err_buf g (firstn 4 field)).
Proof.
  intros Hl Hm Hp Hs Hc Hn.
  rewrite handleGPS_psti_body by (auto; lia).
  replace (skip_commas (cstring line) 4) with (Some (field ++ 44 :: rest))
    by (symmetry; apply skip_commas_some; eauto).
  assert (Hf : (List.length field < 256)%nat).
  { pose proof (cstring_length line) as H. rewrite Hs in H.
    rewrite length_app in H. simpl in H. rewrite length_app in H. lia. }
  rewrite (field_len_comma _ _ _ Hn Hf). cbn [bind].
  do 2 f_equal.
  replace (Z.to_nat (Z.min (Z.of_nat (List.length field)) 4))
    with (Nat.min (List.length field) 4) by lia.
  apply firstn_min_app.
Qed.

Lemma handleGPS_latches_qe_witness :
  handleGPS (nmea "PSTI,00,2,0,-12.75,,") (mkGps 1 [] [] [] []) =
  Ok (mkGps 1 (bytes_of "-12.") [] [] []).
Proof.
  eapply (handleGPS_latches_qe (nmea "PSTI,00,2,0,-12.75,,")
            (bytes_of "$PSTI,00,2,0") (bytes_of "-12.75")).
  - simpl; lia.
  - exists 36, (bytes_of "PSTI,00,2,0,-12.75,,"). do 3 eexists.
    split; [reflexivity |]. split; [| reflexivity].
    simpl. intros H. repeat (destruct H as [H | H]; [discriminate H |]). exact H.
  - reflexivity.
  - vm_compute. reflexivity.
  - reflexivity.
  - simpl. intros H. repeat (destruct H as [H | H]; [discriminate H |]). exact H.
Defined.

(** X3: a fix-status sentence of at least nine characters with a
    matching checksum, whose fix-type field [p] follows the second comma
    and is not followed by exactly thirteen more commas, is handled
    without a fault: [gps_locked] becomes 1 when the field starts with
    ['2'] or ['3'] and 0 otherwise, and the latch and the time and date
    texts are left as they were. *)
Theorem handleGPS_fix_status (line pre p : list Z) (g : gps) :
  (9 <= List.length line)%nat ->
  checksum_matches line ->
  has_prefix "$GPGSA" (cstring line) = true ->
  cstring line = pre ++ 44 :: p ->
  commas pre = 1%nat ->
  commas p <> 13%nat ->
  exists g',
    handleGPS line g = Ok g' /\
    gps_locked g' = (if (hd 0 p =? 51) || (hd 0 p =? 50) then 1 else 0) /\
    pps_err_buf g' = pps_err_buf g /\
    time_buf g' = time_buf g /\ date_buf g' = date_buf g.
Proof.
  intros Hl Hm Hp Hs Hc Hn.
  rewrite handleGPS_gsa_body by auto.
  replace (skip_commas (cstring line) 2) with (Some p)
    by (symmetry; apply skip_commas_some; eauto).
  cbv zeta.
  destruct (skip_commas p 13) as [q |] eqn:E.
  - apply skip_commas_some in E. destruct E as (pre' & Hq & Hc').
    assert (Hq' : (0 < commas q)%nat).
    { rewrite Hq, commas_app, commas_cons_comma in Hn. lia. }
    destruct (first_comma q Hq') as (a & r & -> & Ha).
    unfold field_len. rewrite (strchr_app _ _ _ Ha). cbn [bind].
    eexists. split; [reflexivity |]. simpl. auto.
  - eexists. split; [reflexivity |]. simpl. auto.
Qed.

Lemma handleGPS_fix_status_witness :
  exists g',
    handleGPS (nmea "GPGSA,A,2,02,06") (mkGps 0 [53] [] [] []) = Ok g' /\
    gps_locked g' = 1 /\ pps_err_buf g' = [53].
Proof.
  destruct (handleGPS_fix_status (nmea "GPGSA,A,2,02,06")
              (bytes_of "$GPGSA,A") (skipn 9 (nmea "GPGSA,A,2,02,06"))
              (mkGps 0 [53] [] [] []))
    as (g' & H & Hk & Hq & _).
  - simpl; lia.
  - exists 36, (bytes_of "GPGSA,A,2,02,06"). do 3 eexists.
    split; [reflexivity |]. split; [| reflexivity].
    simpl. intros H. repeat (destruct H as [H | H]; [discriminate H |]). exact H.
  - reflexivity.
  - vm_compute. reflexivity.
  - reflexivity.
  - vm_compute. lia.
  - exists g'. auto.
Defined.

(** X5: a sentence with a matching checksum in which no comma follows
    the field that is copied (a quantization-error sentence with exactly
    four commas, a fix-status sentence with exactly fifteen) makes the
    handler take the difference of a null pointer: the [strchr] for the
    end of the field finds nothing and its result is not tested. *)
Theorem handleGPS_unterminated_field (line : list Z) (g : gps) :
  (9 <= List.length line)%nat ->
  checksum_matches line ->
  (has_prefix "$PSTI,00" (cstring line) = true /\ commas (cstring line) = 4%nat) \/
  (has_prefix "$GPGSA" (cstring line) = true /\ commas (cstring line) = 15%nat) ->
  handleGPS line g = Fault Undefined.
Proof.
  intros Hl Hm [[Hp Hc] | [Hp Hc]].
  - rewrite handleGPS_psti_body by auto.
    destruct (skip_commas (cstring line) 4) as [p |] eqn:E.
    + apply skip_commas_some in E. destruct E as (pre & Hs & Hc').
      rewrite Hs, commas_app, commas_cons_comma in Hc.
      rewrite field_len_none by lia. reflexivity.
    + apply skip_commas_none in E. lia.
  - rewrite handleGPS_gsa_body by auto.
    destruct (skip_commas (cstring line) 2) as [p |] eqn:E.
    + apply skip_commas_some in E. destruct E as (pre & Hs & Hc').
      rewrite Hs, commas_app, commas_cons_comma in Hc. cbv zeta.
      destruct (skip_commas p 13) as [q |] eqn:E2.
      * apply skip_commas_some in E2. destruct E2 as (pre2 & Hs2 & Hc2).
        rewrite Hs2, commas_app, commas_cons_comma in Hc.
        rewrite field_len_none by lia. reflexivity.
      * apply skip_commas_none in E2. lia.
    + apply skip_commas_none in E. lia.
Qed.

Lemma handleGPS_unterminated_field_witness :
  handleGPS (nmea "PSTI,00,2,0,5.8") (mkGps 1 [] [] [] []) = Fault Undefined.
Proof.
  apply handleGPS_unterminated_field.
  - simpl; lia.
  - exists 36, (bytes_of "PSTI,00,2,0,5.8"). do 3 eexists.
    split; [reflexivity |]. split; [| reflexivity].
    simpl. intros H. repeat (destruct H as [H | H]; [discriminate H |]). exact H.
  - left. split; [reflexivity | vm_compute; reflexivity].
Defined.

(** ** The receive interrupt *)

Lemma run_app (a b : list event) (s : system) :
  run (a ++ b) s = (s' <- run a s ;; run b s').
Proof.
  revert s. induction a as [| e a IH]; intros s; simpl; [reflexivity |].
  destruct (step e s) as [s1 | f]; simpl; [apply IH | reflexivity].
Qed.

Lemma set_rx_line_same (s : system) : set_rx_line s (rx_line s) = s.
Proof. destruct s. reflexivity. Qed.

(** Characters that are no line end, arriving while a line is being
    collected and the buffer has room, are appended to it. *)
Lemma rx_feed (l : list Z) (s : system) :
  rx_line s <> [] ->
  Z.of_nat (List.length (rx_line s ++ l)) < RX_BUF_LEN ->
  ~ In 13 l -> ~ In 10 l ->
  run (map EvRx l) s = Ok (set_rx_line s (rx_line s ++ l)).
Proof.
  revert s. induction l as [| c l IH]; intros s Hne Hlen H13 H10.
  - simpl. rewrite app_nil_r, set_rx_line_same. reflexivity.
  - simpl map. simpl run. unfold USARTC0_RXC_vect.
    assert (E0 : (Z.of_nat (List.length (rx_line s)) =? 0) = false).
    { apply Z.eqb_neq. destruct (rx_line s); [contradiction | simpl; lia]. }
    assert (E13 : (c =? 13) = false)
      by (apply Z.eqb_neq; intros ->; apply H13; left; reflexivity).
    assert (E10 : (c =? 10) = false)
      by (apply Z.eqb_neq; intros ->; apply H10; left; reflexivity).
    rewrite E0, E13, E10. cbn [andb orb].
    rewrite length_app in Hlen. simpl List.length in Hlen.
    replace (Z.of_nat (List.length (rx_line s ++ [c])) =? RX_BUF_LEN) with false
      by (symmetry; apply Z.eqb_neq; rewrite length_app; simpl List.length; lia).
    cbn [bind]. rewrite IH.
    + destruct s. simpl. rewrite <- app_assoc. reflexivity.
    + destruct s as [c0 k g r lo lg lp ck p f]. simpl. destruct r; discriminate.
    + destruct s. simpl in *. rewrite <- app_assoc, length_app. simpl. lia.
    + intros H. apply H13. right. exact H.
    + intros H. apply H10. right. exact H.
Qed.

(** The same from an empty buffer, for a line that starts with ['$']. *)
Lemma rx_feed_line (line : list Z) (s : system) :
  rx_line s = [] -> hd 0 line = 36 ->
  Z.of_nat (List.length line) < RX_BUF_LEN ->
  ~ In 13 line -> ~ In 10 line ->
  run (map EvRx line) s = Ok (set_rx_line s line).
Proof.
  intros He Hh Hlen H13 H10.
  destruct line as [| c l]; [discriminate Hh |]. simpl in Hh. subst c.
  change (run (map EvRx (36 :: l)) s)
    with (s' <- USARTC0_RXC_vect 36 s ;; run (map EvRx l) s').
  replace (USARTC0_RXC_vect 36 s) with (Ok (set_rx_line s [36]))
    by (unfold USARTC0_RXC_vect; rewrite He; reflexivity).
  cbn [bind]. rewrite rx_feed.
  - destruct s. reflexivity.
  - destruct s. discriminate.
  - destruct s. simpl in *. exact Hlen.
  - intros H. apply H13. right. exact H.
  - intros H. apply H10. right. exact H.
Qed.

(** X6: a line that starts with ['$'], holds no carriage return or line
    feed and is shorter than the receive buffer, arriving character by
    character on an empty buffer and ended by a carriage return, is handed
    to [handleGPS] whole, and the buffer is empty again afterwards. *)
Theorem rx_sentence_delivered (line : list Z) (s : system) :
  rx_line s = [] ->
  hd 0 line = 36 ->
  Z.of_nat (List.length line) < RX_BUF_LEN ->
  ~ In 13 line -> ~ In 10 line ->
  run (rx_sentence line) s = (g <- handleGPS line (nav s) ;; Ok (set_nav s g)).
Proof.
  intros He Hh Hlen H13 H10. unfold rx_sentence.
  rewrite map_app, run_app, rx_feed_line by assumption. cbn [bind].
  change (run (map EvRx [13]) (set_rx_line s line))
    with (s' <- USARTC0_RXC_vect 13 (set_rx_line s line) ;; Ok s').
  unfold USARTC0_RXC_vect.
  replace (Z.of_nat (List.length (rx_line (set_rx_line s line))) =? 0) with false
    by (destruct line; [discriminate Hh | reflexivity]).
  cbn [andb orb Z.eqb].
  destruct s as [c k g r lo lg lp ck p f]. cbn in He. subst r.
  cbn [nav rx_line set_rx_line set_nav ctl cap
       last_osc_locked last_gps_locked
       last_pps_count clk_rc32m pc fused].
  destruct (handleGPS line g); reflexivity.
Qed.

Lemma rx_sentence_delivered_witness :
  exists s,
    run (rx_sentence (nmea "GPGSA,A,3,02,06")) boot = Ok s /\
    gps_locked (nav s) = 1 /\ rx_line s = [].
Proof.
  rewrite (rx_sentence_delivered (nmea "GPGSA,A,3,02,06") boot).
  - eexists. split; [vm_compute; reflexivity |]. split; reflexivity.
  - reflexivity.
  - reflexivity.
  - vm_compute; reflexivity.
  - simpl. intros H. repeat (destruct H as [H | H]; [discriminate H |]). exact H.
  - simpl. intros H. repeat (destruct H as [H | H]; [discriminate H |]). exact H.
Defined.

(** Characters other than ['$'] arriving on an empty buffer are dropped. *)
Lemma rx_junk (junk : list Z) (s : system) :
  rx_line s = [] -> ~ In 36 junk -> run (map EvRx junk) s = Ok s.
Proof.
  intros He. induction junk as [| c l IH]; intros Hn; [reflexivity |].
  simpl map. simpl run. unfold USARTC0_RXC_vect. rewrite He.
  replace (c =? 36) with false
    by (symmetry; apply Z.eqb_neq; intros ->; apply Hn; left; reflexivity).
  cbn [List.length Z.of_nat Z.eqb negb andb bind].
  apply IH. intros H. apply Hn. right. exact H.
Qed.

(** X7: a line that fills the receive buffer (96 characters with no
    line end) is thrown away: the buffer is emptied, and what follows is
    ignored up to the next ['$']; nothing is handed to [handleGPS] and the
    state is as it was. *)
Theorem rx_overlong_dropped (line junk : list Z) (s : system) :
  rx_line s = [] ->
  hd 0 line = 36 ->
  Z.of_nat (List.length line) = RX_BUF_LEN ->
  ~ In 13 line -> ~ In 10 line ->
  ~ In 36 junk ->
  run (map EvRx (line ++ junk)) s = Ok s.
Proof.
  intros He Hh Hlen H13 H10 Hj.
  destruct (exists_last (l := line)) as (l & c & ->).
  { intros ->. discriminate Hlen. }
  rewrite length_app in Hlen. simpl List.length in Hlen.
  assert (Hl : l <> []) by (intros ->; simpl in Hlen; discriminate Hlen).
  rewrite <- app_assoc, map_app, run_app, rx_feed_line; try assumption.
  - cbn [bind]. simpl app. simpl map. simpl run. unfold USARTC0_RXC_vect.
    assert (E13 : (c =? 13) = false)
      by (apply Z.eqb_neq; intros ->; apply H13; apply in_or_app; right; left; reflexivity).
    assert (E10 : (c =? 10) = false)
      by (apply Z.eqb_neq; intros ->; apply H10; apply in_or_app; right; left; reflexivity).
    assert (E0 : (Z.of_nat (List.length l) =? 0) = false).
    { apply Z.eqb_neq. destruct l; [contradiction | simpl; lia]. }
    destruct s. simpl in *. subst. rewrite E0, E13, E10. cbn [andb orb].
    replace (Z.of_nat (List.length (l ++ [c])) =? RX_BUF_LEN) with true
      by (symmetry; apply Z.eqb_eq; rewrite length_app; simpl List.length; lia).
    cbn [bind]. apply (rx_junk junk); [reflexivity | exact Hj].
  - destruct l; [contradiction | exact Hh].
  - lia.
  - intros H. apply H13. apply in_or_app. left. exact H.
  - intros H. apply H10. apply in_or_app. left. exact H.
Qed.

Lemma rx_overlong_dropped_witness :
  run (map EvRx ((36 :: repeat 65 95) ++ [65; 13; 10])) boot = Ok boot.
Proof.
  apply rx_overlong_dropped.
  - reflexivity.
  - reflexivity.
  - reflexivity.
  - intros [H | H]; [discriminate H | apply repeat_spec in H; discriminate H].
  - intros [H | H]; [discriminate H | apply repeat_spec in H; discriminate H].
  - simpl. intros H. repeat (destruct H as [H | H]; [discriminate H |]). exact H.
Defined.

(** ** The buffers stay inside their arrays *)

Lemma skip_commas_incl (n : nat) (l p : list Z) :
  skip_commas l n = Some p -> incl p l.
Proof.
  destruct n as [| k].
  - simpl. intros H. injection H as <-. apply incl_refl.
  - intros H. apply skip_commas_some in H. destruct H as (pre & -> & _).
    apply incl_appr, incl_tl, incl_refl.
Qed.

Lemma in_firstn (n : nat) (x : Z) (l : list Z) : In x (firstn n l) -> In x l.
Proof.
  intros H. rewrite <- (firstn_skipn n l). apply in_or_app. left. exact H.
Qed.

(** The length [field_len] gives is within the capacity, and stops
    short of the comma. *)
Lemma field_len_bound (p : list Z) (cap len : Z) :
  0 <= cap ->
  field_len p cap = Ok len ->
  0 <= len <= cap /\ ~ In 44 (firstn (Z.to_nat len) p).
Proof.
  intros Hcap. unfold field_len.
  destruct (strchr p 44) as [q |] eqn:E; [| discriminate].
  apply strchr_split in E. destruct E as (a & r & -> & -> & Hn).
  rewrite length_app. simpl List.length.
  replace (Z.of_nat (List.length a + S (List.length r)) -
           Z.of_nat (S (List.length r))) with (Z.of_nat (List.length a)) by lia.
  intros H. injection H as <-.
  assert (Hw : 0 <= wrap8u (Z.of_nat (List.length a)) <= Z.of_nat (List.length a)).
  { unfold wrap8u. split; [apply Z.mod_pos_bound; lia | apply Z.mod_le; lia]. }
  set (len := if wrap8u (Z.of_nat (List.length a)) >? cap then cap
              else wrap8u (Z.of_nat (List.length a))).
  assert (Hl : 0 <= len <= cap /\ len <= Z.of_nat (List.length a)).
  { unfold len. destruct (_ >? cap) eqn:E.
    - rewrite Z.gtb_ltb in E. apply Z.ltb_lt in E. lia.
    - rewrite Z.gtb_ltb in E. apply Z.ltb_ge in E. lia. }
  split; [lia |].
  rewrite firstn_app.
  replace (Z.to_nat len - List.length a)%nat with 0%nat by lia.
  simpl. rewrite app_nil_r. intros H. apply Hn. apply (in_firstn _ _ _ H).
Qed.

Lemma firstn_length_le_n (n : nat) (l : list Z) : (List.length (firstn n l) <= n)%nat.
Proof. rewrite length_firstn. lia. Qed.

Lemma handleGPS_nav_ok (l : list Z) (g g' : gps) :
  nav_ok g -> handleGPS l g = Ok g' -> nav_ok g'.
Proof.
  intros Hg. unfold handleGPS.
  destruct (_ <? 9); [intros H; injection H as <-; exact Hg |].
  destruct (checksum_scan (tl l) 1 0) as [i ck].
  destruct (i >? _); [intros H; injection H as <-; exact Hg |].
  destruct (negb _); [intros H; injection H as <-; exact Hg |].
  destruct Hg as (Hk & Hq & Hq0 & Hqc & Hp & Ht & Hd).
  destruct (has_prefix "$GPRMC" (cstring l)).
  { destruct (skip_commas (cstring l) 1) as [p1 |];
      [| intros H; injection H as <-; unfold nav_ok; auto 10].
    cbv zeta.
    destruct (skip_commas p1 8) as [p2 |]; intros H; apply Ok_inj in H; subst g';
      unfold nav_ok; cbn [gps_locked pps_err_buf pdop_buf time_buf date_buf];
      repeat (split; [first [assumption | apply firstn_length_le_n] |]);
      first [assumption | apply firstn_length_le_n]. }
  destruct (has_prefix "$GPGSA" (cstring l)).
  { destruct (skip_commas (cstring l) 2) as [p1 |];
      [| intros H; injection H as <-; unfold nav_ok; auto 10].
    assert (Hk' : forall c : Z, (if (c =? 51) || (c =? 50) then 1 else 0) = 0 \/
                                (if (c =? 51) || (c =? 50) then 1 else 0) = 1)
      by (intros c; destruct ((c =? 51) || (c =? 50)); auto).
    cbv zeta.
    destruct (skip_commas p1 13) as [p2 |].
    - intros H. apply bind_Ok in H. destruct H as (len & Hlen & H).
      injection H as <-. apply field_len_bound in Hlen; [| lia].
      unfold nav_ok; cbn [gps_locked pps_err_buf pdop_buf time_buf date_buf].
      pose proof (firstn_length_le_n (Z.to_nat len) p2).
      repeat (split; [auto; lia |]). auto.
    - intros H; injection H as <-.
      unfold nav_ok; cbn [gps_locked pps_err_buf pdop_buf time_buf date_buf]. auto 10. }
  destruct (has_prefix "$PSTI,00" (cstring l));
    [| intros H; injection H as <-; unfold nav_ok; auto 10].
  destruct (skip_commas (cstring l) 4) as [p1 |] eqn:E;
    [| intros H; injection H as <-; unfold nav_ok; auto 10].
  intros H. apply bind_Ok in H. destruct H as (len & Hlen & H).
  injection H as <-. apply field_len_bound in Hlen; [| lia].
  unfold nav_ok; cbn [gps_locked pps_err_buf pdop_buf time_buf date_buf].
  pose proof (firstn_length_le_n (Z.to_nat len) p1).
  split; [exact Hk |]. split; [lia |]. split.
  - intros H0. apply in_firstn in H0. apply (skip_commas_incl _ _ _ E) in H0.
    apply (cstring_no_nul _ H0).
  - split; [tauto |]. auto.
Qed.

Lemma nav_ok_clear (g : gps) : nav_ok g -> nav_ok (set_pps_err_buf g []).
Proof.
  unfold nav_ok. intros (Hk & _ & _ & _ & H). simpl. repeat (split; auto).
Qed.

Lemma USARTC0_RXC_vect_ok (c : Z) (s s' : system) :
  rx_ok s -> nav_ok (nav s) -> USARTC0_RXC_vect c s = Ok s' ->
  rx_ok s' /\ nav_ok (nav s') /\ ctl s' = ctl s /\ cap s' = cap s.
Proof.
  intros Hr Hn. unfold USARTC0_RXC_vect.
  destruct ((Z.of_nat (List.length (rx_line s)) =? 0) && negb (c =? 36)) eqn:E0.
  { intros H. injection H as <-. auto. }
  destruct ((c =? 13) || (c =? 10)) eqn:Ecr.
  { intros H. apply bind_Ok in H. destruct H as (g & Hg & H). injection H as <-.
    split; [| split; [exact (handleGPS_nav_ok _ _ _ Hn Hg) | split; reflexivity]].
    unfold rx_ok. simpl. unfold RX_BUF_LEN. repeat split; auto; lia. }
  apply orb_false_iff in Ecr. destruct Ecr as [E13 E10].
  apply Z.eqb_neq in E13, E10.
  destruct Hr as (Hlen & Hhd & H13 & H10).
  destruct (_ =? RX_BUF_LEN) eqn:Efull; intros H; injection H as <-.
  - split; [| auto]. unfold rx_ok. simpl. unfold RX_BUF_LEN. repeat split; auto; lia.
  - split; [| auto]. apply Z.eqb_neq in Efull.
    unfold rx_ok. cbn [rx_line set_rx_line].
    rewrite length_app in *. simpl List.length in *.
    split; [lia |]. split.
    + right. destruct (rx_line s) as [| x r] eqn:Er.
      * simpl in E0. simpl. destruct (c =? 36) eqn:E; [apply Z.eqb_eq in E; exact E |].
        discriminate E0.
      * simpl. destruct Hhd as [Hhd | Hhd]; [discriminate Hhd | exact Hhd].
    + split; intros H; apply in_app_or in H; destruct H as [H | [H | []]];
        auto; congruence.
Qed.

Lemma loop_head_nav (inp : inputs) (s s' : system) :
  loop_head inp s = Ok s' ->
  rx_line s' = rx_line s /\
  (nav s' = nav s \/ nav s' = set_pps_err_buf (nav s) []).
Proof.
  intros H. unfold loop_head in H.
  apply bind_Ok in H. destruct H as (sa & Ha & H).
  apply bind_Ok in H. destruct H as (sb & Hb & H).
  destruct (gps_edge_frame _ _ Ha) as (_ & Hn1 & Hr1 & _).
  destruct (osc_edge_frame _ _ _ Hb) as (_ & Hn2 & Hr2 & _).
  assert (Hn : nav sb = nav s) by congruence.
  assert (Hr : rx_line sb = rx_line s) by congruence.
  destruct (negb _ && clk_rc32m sb).
  - injection H as <-. simpl. auto.
  - apply bind_Ok in H. destruct H as (c & _ & H).
    cbn [last_pps_count set_ctl cap nav pps_count] in H.
    destruct (last_pps_count sb =? pps_count (cap sb)).
    + injection H as <-. simpl. auto.
    + destruct (pps_err_buf (nav sb)) as [| x l] eqn:El.
      * injection H as <-. simpl. auto.
      * destruct (_ || _); injection H as <-; simpl; rewrite Hn; auto.
Qed.

Lemma control_tick_nav (temp : list Z) (s s' : system) :
  control_tick temp s = Ok s' ->
  nav s' = nav s /\ rx_line s' = rx_line s /\ cap s' = cap s.
Proof.
  unfold control_tick.
  destruct (cycle_deltas (irq_time_span (cap s))) as [sd icd].
  intros H. apply bind_Ok in H. destruct H as (q & _ & H).
  destruct (q >? F_CPU / 10000).
  - injection H as <-. auto.
  - apply bind_Ok in H. destruct H as (cpe & _ & H).
    apply bind_Ok in H. destruct H as (c1 & _ & H).
    apply bind_Ok in H. destruct H as (c2 & _ & H).
    injection H as <-. auto.
Qed.

Lemma step_buffers_ok (e : event) (s s' : system) :
  rx_ok s /\ nav_ok (nav s) -> step e s = Ok s' -> rx_ok s' /\ nav_ok (nav s').
Proof.
  intros [Hr Hn]. destruct e as [t a | c | inp]; simpl.
  - intros H. injection H as <-. split; [exact Hr | apply nav_ok_clear; exact Hn].
  - intros H. destruct (USARTC0_RXC_vect_ok _ _ _ Hr Hn H) as (H1 & H2 & _). auto.
  - unfold main_step. destruct (pc s) as [| | temp].
    + intros H. apply loop_head_nav in H. destruct H as [H1 [H2 | H2]].
      * unfold rx_ok. rewrite H1, H2. auto.
      * unfold rx_ok. rewrite H1, H2. split; [exact Hr | apply nav_ok_clear; exact Hn].
    + intros H. injection H as <-. split; [exact Hr | apply nav_ok_clear; exact Hn].
    + intros H. apply control_tick_nav in H. destruct H as (H1 & H2 & _).
      unfold rx_ok. rewrite H1, H2. auto.
Qed.

(** X8: in every reachable state the line being received is shorter
    than the receive buffer, starts with ['$'] when it is not empty and
    holds no line end; the latch holds at most four characters, none of
    them a comma or a NUL; the PDOP, time and date texts fit their arrays;
    and [gps_locked] is 0 or 1. *)
Theorem reachable_buffers_ok (s : system) :
  reachable s -> rx_ok s /\ nav_ok (nav s).
Proof.
  induction 1 as [| e s s' _ IH H].
  - unfold rx_ok, nav_ok, RX_BUF_LEN. simpl. repeat split; auto; lia.
  - exact (step_buffers_ok e s s' IH H).
Qed.

Lemma reachable_buffers_ok_witness :
  exists s,
    run (rx_sentence (nmea "PSTI,00,2,0,-12.75,,")) boot = Ok s /\
    rx_ok s /\ nav_ok (nav s) /\ pps_err_buf (nav s) = bytes_of "-12.".
Proof.
  eexists. split; [vm_compute; reflexivity |].
  assert (H : reachable
                (mkSystem (mkControl 2147483647 0 0 0 0 0 0 0 [])
                   (mkCapture 0 0 0 0) (mkGps 0 (bytes_of "-12.") [] [] [])
                   [] 255 255 0 true AtHead [])).
  { apply (run_reachable (rx_sentence (nmea "PSTI,00,2,0,-12.75,,")) boot);
      [apply reach_boot | vm_compute; reflexivity]. }
  destruct (reachable_buffers_ok _ H) as [H1 H2].
  split; [exact H1 |]. split; [exact H2 | reflexivity].
Defined.

(** ** The capture interrupt and the cycle count *)

(** X9: of two captures in a row the second leaves in [irq_time_span]
    the number of cycles [d] between them, also when the 32-bit counter
    wrapped in between; the pulse count has gone up by two (modulo 2^32),
    the latch is empty, and the control state is untouched. *)
Theorem capture_span (t0 d a0 a1 : Z) (s : system) :
  0 <= d < 4294967296 ->
  let s1 := TCC5_CCA_vect t0 a0 s in
  let s2 := TCC5_CCA_vect (wrap32u (t0 + d)) a1 s1 in
  irq_time_span (cap s2) = d /\
  pps_count (cap s2) = wrap32u (pps_count (cap s) + 2) /\
  pps_err_buf (nav s2) = [] /\
  ctl s2 = ctl s /\ last_pps_count s2 = last_pps_count s.
Proof.
  intros Hd. cbv zeta. unfold TCC5_CCA_vect.
  cbn [cap nav ctl irq_time_span pps_count last_timer_val last_pps_count
       set_pps_err_buf pps_err_buf].
  split; [| split; [| auto]].
  - unfold wrap32u. rewrite <- Zminus_mod.
    replace (t0 + d - t0) with d by lia. apply Z.mod_small. exact Hd.
  - unfold wrap32u. rewrite Zplus_mod_idemp_l. f_equal. lia.
Qed.

Lemma capture_span_witness :
  irq_time_span
    (cap (TCC5_CCA_vect (wrap32u (4294967000 + 30000000)) 1024
            (TCC5_CCA_vect 4294967000 1024 boot))) = 30000000.
Proof.
  apply (capture_span 4294967000 30000000 1024 1024 boot). lia.
Defined.

Lemma cycle_deltas_split (span : Z) :
  F_CPU / 2 <= span < 2147483648 + F_CPU ->
  span - F_CPU = fst (cycle_deltas span) * F_CPU + snd (cycle_deltas span) /\
  - (F_CPU / 2) <= snd (cycle_deltas span) < F_CPU / 2.
Proof.
  unfold cycle_deltas, F_CPU. cbn [fst snd].
  change (30000000 / 2) with 15000000. intros H.
  assert (H1 : wrap32s (span - 30000000) = span - 30000000).
  { unfold wrap32s. rewrite Z.mod_small by lia. lia. }
  rewrite H1.
  assert (H2 : wrap32u (span - 30000000 + 15000000) = span - 15000000).
  { unfold wrap32u. rewrite Z.mod_small by lia. lia. }
  rewrite H2.
  set (sd := (span - 15000000) / 30000000).
  assert (Hsd : 30000000 * sd <= span - 15000000 < 30000000 * sd + 30000000).
  { pose proof (Z.mul_div_le (span - 15000000) 30000000).
    pose proof (Z.mul_succ_div_gt (span - 15000000) 30000000). unfold sd. lia. }
  assert (H3 : wrap32u (sd * 30000000) = sd * 30000000).
  { unfold wrap32u. rewrite Z.mod_small by lia. reflexivity. }
  rewrite H3.
  assert (H4 : wrap32s (span - 30000000 - wrap32s (sd * 30000000)) =
               span - 30000000 - sd * 30000000).
  { unfold wrap32s.
    replace ((span - 30000000 - ((sd * 30000000 + 2147483648) mod 4294967296 - 2147483648)
              + 2147483648) mod 4294967296)
      with ((span - 30000000 - sd * 30000000 + 2147483648) mod 4294967296).
    - rewrite Z.mod_small by lia. lia.
    - rewrite (Z.mod_eq (sd * 30000000 + 2147483648) 4294967296) by lia.
      set (k := (sd * 30000000 + 2147483648) / 4294967296).
      replace (span - 30000000 - (sd * 30000000 + 2147483648 - 4294967296 * k - 2147483648)
               + 2147483648)
        with (span - 30000000 - sd * 30000000 + 2147483648 + k * 4294967296) by lia.
      rewrite Z.mod_add by lia. reflexivity. }
  rewrite H4. lia.
Qed.

(** X10: for a span from half a second up to 2^31 cycles past a second,
    [cycle_deltas] splits the excess over one second into whole seconds and
    a remainder of at most half a second either way, and the whole seconds
    are the only number that leaves such a remainder: the span is rounded
    to the nearest second. *)
Theorem cycle_deltas_nearest (span : Z) :
  F_CPU / 2 <= span < 2147483648 + F_CPU ->
  span - F_CPU = fst (cycle_deltas span) * F_CPU + snd (cycle_deltas span) /\
  - (F_CPU / 2) <= snd (cycle_deltas span) < F_CPU / 2 /\
  (forall k, - (F_CPU / 2) <= span - F_CPU - k * F_CPU < F_CPU / 2 ->
             k = fst (cycle_deltas span)).
Proof.
  intros H. destruct (cycle_deltas_split span H) as [H1 H2].
  split; [exact H1 |]. split; [exact H2 |].
  intros k Hk. unfold F_CPU in *. change (30000000 / 2) with 15000000 in *. lia.
Qed.

Lemma cycle_deltas_nearest_witness :
  cycle_deltas (2 * F_CPU - 1) = (1, -1) /\
  2 * F_CPU - 1 - F_CPU =
  fst (cycle_deltas (2 * F_CPU - 1)) * F_CPU + snd (cycle_deltas (2 * F_CPU - 1)).
Proof.
  split; [reflexivity |].
  apply (cycle_deltas_nearest (2 * F_CPU - 1)).
  vm_compute. split; [discriminate | reflexivity].
Defined.

(** A pulse less than half a second after the one before it: the
    unsigned rounding takes the negative count for 142 or 143 seconds. *)
Lemma cycle_deltas_early (span : Z) :
  0 <= span < F_CPU / 2 ->
  (fst (cycle_deltas span) = 142 /\
   4967296 <= snd (cycle_deltas span) < 15000000) \/
  (fst (cycle_deltas span) = 143 /\
   -15000000 <= snd (cycle_deltas span) < -10032704).
Proof.
  unfold cycle_deltas, F_CPU. cbn [fst snd].
  change (30000000 / 2) with 15000000. intros H.
  assert (H1 : wrap32s (span - 30000000) = span - 30000000).
  { unfold wrap32s. rewrite Z.mod_small by lia. lia. }
  rewrite H1.
  assert (H2 : wrap32u (span - 30000000 + 15000000) = span + 4279967296).
  { unfold wrap32u.
    replace (span - 30000000 + 15000000) with (span + 4279967296 + (-1) * 4294967296) by lia.
    rewrite Z.mod_add by lia. apply Z.mod_small. lia. }
  rewrite H2.
  destruct (Z_lt_ge_dec span 10032704) as [Hs | Hs].
  - left.
    assert (Hsd : (span + 4279967296) / 30000000 = 142).
    { symmetry. apply (Z.div_unique _ _ 142 (span + 19967296)); lia. }
    rewrite Hsd. split; [reflexivity |].
    change (wrap32s (wrap32u (142 * 30000000))) with (-34967296).
    unfold wrap32s. rewrite Z.mod_small by lia. lia.
  - right.
    assert (Hsd : (span + 4279967296) / 30000000 = 143).
    { symmetry. apply (Z.div_unique _ _ 143 (span - 10032704)); lia. }
    rewrite Hsd. split; [reflexivity |].
    change (wrap32s (wrap32u (143 * 30000000))) with (-4967296).
    unfold wrap32s. rewrite Z.mod_small by lia. lia.
Qed.

(** X11: a capture that comes less than half a second after the one
    before it, or within half a second of one second but more than
    [F_CPU / 10000] cycles off, is discarded: the control tick changes
    nothing and fuses no observation. *)
Theorem control_tick_discards (temp : list Z) (s : system) :
  0 <= irq_time_span (cap s) < F_CPU / 2 \/
  (F_CPU / 2 <= irq_time_span (cap s) < F_CPU + F_CPU / 2 /\
   F_CPU / 10000 < Z.abs (irq_time_span (cap s) - F_CPU)) ->
  control_tick temp s = Ok (set_pc s AtHead).
Proof.
  intros H. unfold control_tick.
  destruct (cycle_deltas (irq_time_span (cap s))) as [sd icd] eqn:E.
  assert (Hq : exists q, zdiv (wrap32u (Z.abs icd)) (wrap32u (sd + 1)) = Ok q /\
                         (q >? F_CPU / 10000) = true).
  { destruct H as [H | [H Hw]].
    - pose proof (cycle_deltas_early _ H) as Hc. rewrite E in Hc. cbn [fst snd] in Hc.
      unfold zdiv, wrap32u.
      destruct Hc as [[-> Hi] | [-> Hi]].
      + rewrite (Z.mod_small (Z.abs icd)) by lia.
        change ((142 + 1) mod 4294967296 =? 0) with false. cbv iota.
        eexists. split; [reflexivity |].
        change ((142 + 1) mod 4294967296) with 143.
        apply Z.gtb_lt. change (F_CPU / 10000) with 3000.
        apply Z.lt_le_trans with (4967296 / 143); [reflexivity |].
        apply Z.div_le_mono; lia.
      + rewrite (Z.mod_small (Z.abs icd)) by lia.
        change ((143 + 1) mod 4294967296 =? 0) with false. cbv iota.
        eexists. split; [reflexivity |].
        change ((143 + 1) mod 4294967296) with 144.
        apply Z.gtb_lt. change (F_CPU / 10000) with 3000.
        apply Z.lt_le_trans with (10032704 / 144); [reflexivity |].
        apply Z.div_le_mono; lia.
    - assert (Hr : F_CPU / 2 <= irq_time_span (cap s) < 2147483648 + F_CPU)
        by (unfold F_CPU in *; change (30000000 / 2) with 15000000 in *; lia).
      pose proof (cycle_deltas_split _ Hr) as Hc. rewrite E in Hc. cbn [fst snd] in Hc.
      unfold F_CPU in *. change (30000000 / 2) with 15000000 in *.
      change (30000000 / 10000) with 3000 in *.
      assert (sd = 0) by lia. subst sd.
      unfold zdiv, wrap32u. change ((0 + 1) mod 4294967296) with 1.
      cbn [Z.eqb]. rewrite (Z.mod_small (Z.abs icd)) by lia. rewrite Z.div_1_r.
      eexists. split; [reflexivity |]. apply Z.gtb_lt. lia. }
  destruct Hq as (q & -> & Hq). cbn [bind]. rewrite Hq. reflexivity.
Qed.

Lemma control_tick_discards_witness :
  control_tick (bytes_of "0.0")
    (TCC5_CCA_vect (F_CPU + 3001) PHASE_ADC_MIDPOINT boot) =
  Ok (TCC5_CCA_vect (F_CPU + 3001) PHASE_ADC_MIDPOINT boot).
Proof.
  apply (control_tick_discards (bytes_of "0.0")
           (TCC5_CCA_vect (F_CPU + 3001) PHASE_ADC_MIDPOINT boot)).
  right. vm_compute. split; [split |]; [discriminate | reflexivity | reflexivity].
Defined.

(** X12: a capture within [F_CPU / 10000] cycles of one second counts
    as zero whole seconds with the difference as its remainder, and a
    control tick on it that returns has fused exactly one observation, of
    the capture registers and the latch copy it was given. *)
Theorem control_tick_accepts (temp : list Z) (s s' : system) :
  Z.abs (irq_time_span (cap s) - F_CPU) <= F_CPU / 10000 ->
  control_tick temp s = Ok s' ->
  cycle_deltas (irq_time_span (cap s)) = (0, irq_time_span (cap s) - F_CPU) /\
  fused s' = fused s ++ [mkObs (irq_adc_value (cap s)) (irq_time_span (cap s)) temp] /\
  pc s' = AtHead /\ cap s' = cap s /\ nav s' = nav s.
Proof.
  intros Hw H.
  assert (Hr : F_CPU / 2 <= irq_time_span (cap s) < 2147483648 + F_CPU)
    by (unfold F_CPU in *; change (30000000 / 2) with 15000000;
        change (30000000 / 10000) with 3000 in Hw; lia).
  pose proof (cycle_deltas_split _ Hr) as Hc.
  unfold control_tick in H.
  destruct (cycle_deltas (irq_time_span (cap s))) as [sd icd] eqn:E.
  cbn [fst snd] in Hc.
  assert (Hsd : sd = 0).
  { unfold F_CPU in *. change (30000000 / 2) with 15000000 in *.
    change (30000000 / 10000) with 3000 in *. lia. }
  subst sd.
  assert (Hicd : icd = irq_time_span (cap s) - F_CPU) by lia.
  split; [rewrite Hicd; reflexivity |].
  unfold zdiv, wrap32u in H. change ((0 + 1) mod 4294967296) with 1 in H.
  cbn [Z.eqb bind] in H. rewrite Z.div_1_r in H.
  replace (Z.abs icd mod 4294967296 >? F_CPU / 10000) with false in H.
  - apply bind_Ok in H. destruct H as (cpe & _ & H).
    apply bind_Ok in H. destruct H as (c1 & _ & H).
    apply bind_Ok in H. destruct H as (c2 & _ & H).
    injection H as <-. cbn [fused pc cap nav]. auto.
  - symmetry. rewrite Z.gtb_ltb. apply Z.ltb_ge.
    unfold F_CPU in *. change (30000000 / 10000) with 3000 in *.
    rewrite Z.mod_small by lia. lia.
Qed.

Lemma control_tick_accepts_witness :
  exists s',
    control_tick (bytes_of "0.0")
      (TCC5_CCA_vect (F_CPU + 3000) PHASE_ADC_MIDPOINT boot) = Ok s' /\
    fused s' = [mkObs PHASE_ADC_MIDPOINT (F_CPU + 3000) (bytes_of "0.0")].
Proof.
  eassert (Hrun : control_tick (bytes_of "0.0")
                    (TCC5_CCA_vect (F_CPU + 3000) PHASE_ADC_MIDPOINT boot) = Ok _)
    by (vm_compute; reflexivity).
  eexists. split; [exact Hrun |].
  pose proof (fun H1 => control_tick_accepts _ _ _ H1 Hrun) as P.
  destruct P as (_ & Hf & _).
  - vm_compute. discriminate.
  - exact Hf.
Defined.

(** ** The rolling averages *)

Lemma ema_step (w a x : Q) :
  (1 <= w)%Q ->
  between a x (a + (x - a) / w)%Q.
Proof.
  intros Hw.
  assert (Hi : (0 < / w)%Q) by (apply Qinv_lt_0_compat; lra).
  assert (Hi1 : (/ w <= 1)%Q).
  { apply Qle_shift_inv_r; lra. }
  unfold Qdiv. set (k := (/ w)%Q) in *.
  unfold between. split; intros H.
  - assert (0 <= (x - a) * k)%Q by (apply Qmult_le_0_compat; lra).
    assert (0 <= (x - a) * (1 - k))%Q by (apply Qmult_le_0_compat; lra).
    split; lra.
  - assert (0 <= (a - x) * k)%Q by (apply Qmult_le_0_compat; lra).
    assert (0 <= (a - x) * (1 - k))%Q by (apply Qmult_le_0_compat; lra).
    split; lra.
Qed.

(** X13: in every mode [update_filters] returns; the averaged phase
    error moves from its old value toward the new sample by one part in
    [time_constant / 10], the averaged cycle error moves likewise toward
    the cycle error per second [intracycle_delta / (seconds_delta + 1)], so
    each new average lies between the old one and the sample; nothing else
    of the control state changes. *)
Theorem update_filters_average (m cpe icd sd : Z) (c : control) :
  0 <= m <= 3 -> 0 <= sd <= 143 ->
  exists c',
    update_filters (mode_to_tc m) cpe icd sd c = Ok c' /\
    let w := inject_Z (mode_to_tc m / 10) in
    let rate := (inject_Z icd / inject_Z (sd + 1))%Q in
    (average_phase_error c' ==
     average_phase_error c + (inject_Z cpe - average_phase_error c) / w)%Q /\
    (average_pps_error c' ==
     average_pps_error c + (rate - average_pps_error c) / w)%Q /\
    between (average_phase_error c) (inject_Z cpe) (average_phase_error c') /\
    between (average_pps_error c) rate (average_pps_error c') /\
    iTerm c' = iTerm c /\ trim_value c' = trim_value c /\ mode c' = mode c /\
    exit_timer c' = exit_timer c /\ enter_timer c' = enter_timer c /\
    last_dac_value c' = last_dac_value c /\ osc_out c' = osc_out c.
Proof.
  intros Hm Hsd. unfold update_filters.
  assert (Hft : 10 <= mode_to_tc m / 10 <= 720)
    by (destruct (filter_time_cases m Hm) as [-> | [-> | ->]]; lia).
  set (W := mode_to_tc m / 10) in *.
  assert (Hnz : ~ (inject_Z W == 0)%Q) by (apply inject_Z_nonzero; lia).
  assert (Hw : wrap32u (wrap32u (sd + 1) * W) = (sd + 1) * W).
  { unfold wrap32u. rewrite (Z.mod_small (sd + 1)) by lia.
    apply Z.mod_small. nia. }
  assert (Hnz1 : ~ (inject_Z (sd + 1) == 0)%Q) by (apply inject_Z_nonzero; lia).
  assert (Hnz2 : ~ (inject_Z (wrap32u (wrap32u (sd + 1) * W)) == 0)%Q)
    by (rewrite Hw; apply inject_Z_nonzero; nia).
  cbv zeta. repeat (rewrite fdiv_ok by assumption; cbn [bind]).
  eexists. split; [reflexivity |].
  cbn [average_phase_error average_pps_error iTerm trim_value mode exit_timer
       enter_timer last_dac_value osc_out
       set_average_phase_error set_average_pps_error].
  rewrite Hw, inject_Z_mult.
  assert (H1w : (1 <= inject_Z W)%Q) by (unfold Qle; simpl; lia).
  match goal with
  | |- (?A == ?A')%Q /\ (?B == ?B')%Q /\ _ =>
      assert (HA : (A == A')%Q) by (rewrite !store_eq; field; exact Hnz);
      assert (HB : (B == B')%Q) by (rewrite !store_eq; field; split; assumption)
  end.
  split; [exact HA |]. split; [exact HB |].
  split.
  { pose proof (ema_step (inject_Z W) (average_phase_error c) (inject_Z cpe) H1w) as B.
    unfold between in *. rewrite HA. exact B. }
  split.
  { pose proof (ema_step (inject_Z W) (average_pps_error c)
                  (inject_Z icd / inject_Z (sd + 1)) H1w) as B.
    unfold between in *. rewrite HB. exact B. }
  repeat (split; [reflexivity |]). reflexivity.
Qed.

Lemma update_filters_average_witness :
  exists c',
    update_filters (mode_to_tc MODE_FAST) 20 (-30) 0
      (mkControl 0 0 0 10 0 MODE_FAST 0 0 []) = Ok c' /\
    (average_phase_error c' == 11)%Q /\ (average_pps_error c' == -3)%Q.
Proof.
  destruct (update_filters_average MODE_FAST 20 (-30) 0
              (mkControl 0 0 0 10 0 MODE_FAST 0 0 []))
    as (c' & H & Ha & Hp & _).
  - unfold MODE_FAST. lia.
  - lia.
  - exists c'. split; [exact H |]. split.
    + rewrite Ha. reflexivity.
    + rewrite Hp. reflexivity.
Defined.

(** ** A change of mode keeps the correction *)

Lemma try_upgrade_cases (c c' : control) :
  1 <= mode c <= 3 ->
  try_upgrade c = Ok c' ->
  (mode c = MODE_SLOW /\ c' = c) \/
  (mode c <> MODE_SLOW /\ ~ (Qabs (average_phase_error c) <= 5)%Q /\
   c' = set_exit_timer c 0) \/
  (mode c <> MODE_SLOW /\ (Qabs (average_phase_error c) <= 5)%Q /\
   wrap16u (exit_timer c + 1) < 200 * mode c * mode c /\
   c' = set_exit_timer c (wrap16u (exit_timer c + 1))) \/
  (mode c <> MODE_SLOW /\ (Qabs (average_phase_error c) <= 5)%Q /\
   200 * mode c * mode c <= wrap16u (exit_timer c + 1) /\
   c' = set_iTerm (set_mode (set_exit_timer c 0) (mode c + 1))
          (iTerm c * (inject_Z (mode_to_tc (mode c + 1))
                      / inject_Z (mode_to_tc (mode c))))).
Proof.
  intros Hm H. unfold try_upgrade in H.
  destruct (mode c =? MODE_SLOW) eqn:Es; cbn [negb] in H.
  { apply Z.eqb_eq in Es. injection H as <-. auto. }
  apply Z.eqb_neq in Es. right.
  assert (Et : wrap16u (wrap16s (200 * mode c * mode c)) = 200 * mode c * mode c).
  { unfold MODE_SLOW in Es. assert (E : mode c = 1 \/ mode c = 2) by lia.
    destruct E as [-> | ->]; reflexivity. }
  destruct (Qle_bool (fabs (average_phase_error c)) 5) eqn:Ea.
  2:{ injection H as <-. left. split; [exact Es |]. split; [| reflexivity].
      intros L. apply Qle_bool_iff in L. unfold fabs in Ea. congruence. }
  apply Qle_bool_iff in Ea. unfold fabs in Ea. right.
  cbv zeta in H. cbn [mode exit_timer iTerm set_mode set_exit_timer] in H.
  rewrite Et in H.
  destruct (200 * mode c * mode c <=? wrap16u (exit_timer c + 1)) eqn:Eth.
  - apply Z.leb_le in Eth. right.
    assert (E1 : wrap8u (mode c + 1) = mode c + 1)
      by (unfold MODE_SLOW in Es; unfold wrap8u; apply Z.mod_small; lia).
    rewrite E1 in H.
    replace (wrap8u (mode c + 1 - 1)) with (mode c) in H
      by (unfold wrap8u; rewrite Z.mod_small; lia).
    rewrite fdiv_tc in H by lia. cbn [bind] in H. injection H as <-.
    auto.
  - apply Z.leb_gt in Eth. injection H as <-. left. auto.
Qed.

Lemma try_downgrade_cases (c c' : control) :
  try_downgrade c = Ok c' ->
  (mode c = MODE_FAST /\ c' = c) \/
  (mode c <> MODE_FAST /\ 0 < enter_timer c /\
   c' = set_enter_timer c (wrap16u (enter_timer c - 1))) \/
  (mode c <> MODE_FAST /\ enter_timer c <= 0 /\
   (50 * inject_Z (mode c) <= Qabs (average_phase_error c))%Q /\
   downgrade_mode c = Ok c') \/
  (mode c <> MODE_FAST /\ enter_timer c <= 0 /\
   ~ (50 * inject_Z (mode c) <= Qabs (average_phase_error c))%Q /\ c' = c).
Proof.
  intros H. unfold try_downgrade in H.
  destruct (mode c =? MODE_FAST) eqn:Ef; cbn [negb] in H.
  { apply Z.eqb_eq in Ef. injection H as <-. auto. }
  apply Z.eqb_neq in Ef. right.
  destruct (enter_timer c >? 0) eqn:Ee.
  { rewrite Z.gtb_ltb in Ee. apply Z.ltb_lt in Ee. injection H as <-. auto. }
  rewrite Z.gtb_ltb in Ee. apply Z.ltb_ge in Ee. right.
  destruct (Qle_bool _ _) eqn:Ea.
  - apply Qle_bool_iff in Ea. unfold fabs in Ea. left. auto.
  - right. injection H as <-. split; [exact Ef |]. split; [exact Ee |].
    split; [| reflexivity].
    intros L. apply Qle_bool_iff in L. unfold fabs in Ea. congruence.
Qed.

Lemma tc_ratio (x : Q) (m m' : Z) :
  0 <= m <= 3 -> 0 <= m' <= 3 ->
  (store (x * (inject_Z (mode_to_tc m') / inject_Z (mode_to_tc m)))
   / inject_Z (mode_to_tc m') == x / inject_Z (mode_to_tc m))%Q.
Proof.
  intros Hm Hm'. rewrite store_eq.
  pose proof (mode_to_tc_pos m Hm). pose proof (mode_to_tc_pos m' Hm').
  field. split; apply inject_Z_nonzero; lia.
Qed.

(** X14: a promotion, a demotion or a downgrade on loss of the fix
    rescales the integral term so that its quotient by the time constant
    of the mode, which is the correction it contributes, is what it was;
    the trim value and the two averages are untouched. *)
Theorem mode_change_keeps_correction (c c' : control) :
  1 <= mode c <= 3 ->
  try_upgrade c = Ok c' \/ try_downgrade c = Ok c' \/ downgrade_mode c = Ok c' ->
  (iTerm c' / inject_Z (mode_to_tc (mode c')) ==
   iTerm c / inject_Z (mode_to_tc (mode c)))%Q /\
  trim_value c' = trim_value c /\
  average_phase_error c' = average_phase_error c /\
  average_pps_error c' = average_pps_error c.
Proof.
  intros Hm H.
  assert (Hd : forall x, downgrade_mode c = Ok x ->
                 (iTerm x / inject_Z (mode_to_tc (mode x)) ==
                  iTerm c / inject_Z (mode_to_tc (mode c)))%Q /\
                 trim_value x = trim_value c /\
                 average_phase_error x = average_phase_error c /\
                 average_pps_error x = average_pps_error c).
  { intros x Hx. rewrite downgrade_mode_ok in Hx by exact Hm. injection Hx as <-.
    cbn [iTerm mode trim_value average_phase_error average_pps_error].
    split; [apply tc_ratio; lia | auto]. }
  destruct H as [H | [H | H]].
  - destruct (try_upgrade_cases c c' Hm H)
      as [(_ & ->) | [(_ & _ & ->) | [(_ & _ & _ & ->) | (Es & _ & _ & ->)]]];
      cbn [iTerm mode trim_value average_phase_error average_pps_error
           set_iTerm set_mode set_exit_timer];
      try (split; [reflexivity | auto]).
    unfold MODE_SLOW in Es. split; [apply tc_ratio; lia | auto].
  - destruct (try_downgrade_cases c c' H)
      as [(_ & ->) | [(_ & _ & ->) | [(_ & _ & _ & Hx) | (_ & _ & _ & ->)]]];
      cbn [iTerm mode trim_value average_phase_error average_pps_error
           set_enter_timer];
      try (split; [reflexivity | auto]).
    apply Hd. exact Hx.
  - apply Hd. exact H.
Qed.

Lemma mode_change_keeps_correction_witness :
  exists c',
    downgrade_mode (mkControl 0 7200 5 0 0 MODE_SLOW 0 0 []) = Ok c' /\
    (iTerm c' / inject_Z TC_MED == 1)%Q /\ mode c' = MODE_MED.
Proof.
  eexists. split; [vm_compute; reflexivity |].
  split; [| reflexivity].
  destruct (mode_change_keeps_correction
              (mkControl 0 7200 5 0 0 MODE_SLOW 0 0 [])
              (mkControl 0 1800 5 0 0 MODE_MED 0 300 [])) as (H & _).
  - unfold MODE_SLOW. simpl. lia.
  - right. right. vm_compute. reflexivity.
  - refine (Qeq_trans _ _ _ H _). reflexivity.
Defined.

(** ** The promotion and demotion rules *)

(** X15: the promotion test does nothing in Slow mode; in Fast and Med
    it counts the ticks in a row whose averaged phase error is within 5 ns,
    promotes by one mode and clears the count when the count, this tick
    included, reaches [200 * mode * mode] (200 in Fast, 800 in Med), and
    clears the count on a tick outside 5 ns. *)
Theorem try_upgrade_rule (c c' : control) :
  1 <= mode c <= 3 ->
  0 <= exit_timer c < 65535 ->
  try_upgrade c = Ok c' ->
  (mode c = MODE_SLOW -> c' = c) /\
  (mode c <> MODE_SLOW ->
   ((Qabs (average_phase_error c) <= 5)%Q /\
    200 * mode c * mode c <= exit_timer c + 1 ->
    mode c' = mode c + 1 /\ exit_timer c' = 0) /\
   ((Qabs (average_phase_error c) <= 5)%Q /\
    exit_timer c + 1 < 200 * mode c * mode c ->
    mode c' = mode c /\ exit_timer c' = exit_timer c + 1) /\
   (~ (Qabs (average_phase_error c) <= 5)%Q ->
    mode c' = mode c /\ exit_timer c' = 0)).
Proof.
  intros Hm He H.
  assert (Ew : wrap16u (exit_timer c + 1) = exit_timer c + 1)
    by (unfold wrap16u; apply Z.mod_small; lia).
  destruct (try_upgrade_cases c c' Hm H)
    as [(Es & ->) | [(Es & Ha & ->) | [(Es & Ha & Ht & ->) | (Es & Ha & Ht & ->)]]];
    rewrite ?Ew in *;
    cbn [mode exit_timer set_iTerm set_mode set_exit_timer];
    (split; [intros; try reflexivity; contradiction |]); intros Hn.
  - contradiction.
  - split; [tauto |]. split; [tauto | auto].
  - split; [lia |]. split; [auto | tauto].
  - split; [auto |]. split; [lia | tauto].
Qed.

Lemma try_upgrade_rule_witness :
  exists c',
    try_upgrade (mkControl 0 0 0 (-3) 0 MODE_MED 799 0 []) = Ok c' /\
    mode c' = MODE_SLOW /\ exit_timer c' = 0.
Proof.
  eexists. split; [vm_compute; reflexivity |].
  destruct (try_upgrade_rule (mkControl 0 0 0 (-3) 0 MODE_MED 799 0 [])
              (mkControl 0 0 0 (-3) 0 MODE_SLOW 0 0 [])) as (_ & H).
  - unfold MODE_MED. simpl. lia.
  - simpl. lia.
  - vm_compute. reflexivity.
  - destruct H as (H & _); [discriminate |].
    apply H. split; [vm_compute; discriminate | vm_compute; discriminate].
Defined.

(** ** What holds of the control state in every reachable state *)

Lemma frames_app (a b : list (Z * bool)) : frames (a ++ b) = frames a ++ frames b.
Proof.
  induction a as [| [v nv] a IH]; [reflexivity |].
  change (frames (((v, nv) :: a) ++ b)) with (dac_frame v nv ++ frames (a ++ b)).
  change (frames ((v, nv) :: a)) with (dac_frame v nv ++ frames a).
  rewrite IH, app_assoc. reflexivity.
Qed.

Lemma last_cons (l : list Z) (a d : Z) : last (a :: l) d = last l a.
Proof.
  revert a d. induction l as [| y l IH]; intros a d; [reflexivity |].
  change (last (a :: y :: l) d) with (last (y :: l) d).
  rewrite (IH y d), (IH y a). reflexivity.
Qed.

Lemma no_repeat_app (prev v : Z) (nv : bool) (cmds : list (Z * bool)) :
  no_repeat prev cmds -> v <> last (map fst cmds) prev ->
  no_repeat prev (cmds ++ [(v, nv)]).
Proof.
  revert prev. induction cmds as [| [x b] r IH]; intros prev Hn Hv.
  - simpl in *. auto.
  - destruct Hn as [Hx Hr].
    change (map fst ((x, b) :: r)) with (x :: map fst r) in Hv.
    rewrite last_cons in Hv.
    change (x <> prev /\ no_repeat x (r ++ [(v, nv)])).
    split; [exact Hx | apply IH; assumption].
Qed.

Lemma last_app_one (l : list Z) (v d : Z) : last (l ++ [v]) d = v.
Proof. apply last_last. Qed.

Lemma writeDacValue_out_ok (v : Z) (nv : bool) (c : control) :
  out_ok c -> out_ok (writeDacValue v nv c).
Proof.
  intros (cmds & Ho & Hn & Hl). unfold writeDacValue.
  destruct (v =? last_dac_value c) eqn:E.
  - exists cmds. auto.
  - apply Z.eqb_neq in E. exists (cmds ++ [(v, nv)]).
    cbn [osc_out last_dac_value]. split; [| split].
    + rewrite frames_app, Ho.
      change (frames [(v, nv)]) with (dac_frame v nv ++ []).
      rewrite app_nil_r. reflexivity.
    + apply no_repeat_app; [exact Hn | rewrite <- Hl; exact E].
    + rewrite map_app. simpl. symmetry. apply last_app_one.
Qed.

Lemma writeDacValue_keeps (v : Z) (nv : bool) (c : control) :
  mode (writeDacValue v nv c) = mode c /\
  exit_timer (writeDacValue v nv c) = exit_timer c /\
  enter_timer (writeDacValue v nv c) = enter_timer c /\
  trim_value (writeDacValue v nv c) = trim_value c /\
  iTerm (writeDacValue v nv c) = iTerm c /\
  average_phase_error (writeDacValue v nv c) = average_phase_error c /\
  average_pps_error (writeDacValue v nv c) = average_pps_error c.
Proof. unfold writeDacValue. destruct (v =? last_dac_value c); simpl; auto 10. Qed.

(** A step that leaves [last_dac_value] and [osc_out] alone. *)
Lemma out_ok_same (c c' : control) :
  last_dac_value c' = last_dac_value c -> osc_out c' = osc_out c ->
  out_ok c -> out_ok c'.
Proof. intros Hl Ho (cmds & H1 & H2 & H3). exists cmds. rewrite Hl, Ho. auto. Qed.

Lemma ctl_ok_write (v : Z) (nv : bool) (c : control) :
  ctl_ok c -> ctl_ok (writeDacValue v nv c).
Proof.
  intros (Hm & Ht & Ho).
  destruct (writeDacValue_keeps v nv c) as (Em & Ex & En & _).
  unfold ctl_ok, mode_ok, timers_ok. rewrite Em, Ex, En.
  split; [exact Hm |]. split; [exact Ht |]. apply writeDacValue_out_ok, Ho.
Qed.

Lemma reset_pll_ctl_ok (c c' : control) :
  ctl_ok c -> reset_pll c = Ok c' -> ctl_ok c'.
Proof.
  intros (Hm & (Hx & Hn) & Ho) H. unfold reset_pll in H.
  apply bind_Ok in H. destruct H as (t & _ & H). injection H as <-.
  unfold ctl_ok, mode_ok, timers_ok. cbn [mode exit_timer enter_timer].
  unfold MODE_START. split; [lia |]. split; [lia |].
  revert Ho. apply out_ok_same; reflexivity.
Qed.

Lemma downgrade_mode_ctl_ok (c c' : control) :
  1 <= mode c <= 3 -> ctl_ok c -> downgrade_mode c = Ok c' -> ctl_ok c'.
Proof.
  intros Hm (_ & (Hx & Hn) & Ho) H. rewrite downgrade_mode_ok in H by exact Hm.
  apply Ok_inj in H. subst c'.
  unfold ctl_ok, mode_ok, timers_ok. cbn [mode exit_timer enter_timer].
  split; [lia |]. split; [lia |].
  revert Ho. apply out_ok_same; reflexivity.
Qed.

Lemma gps_edge_ctl_ok (s s' : system) :
  ctl_ok (ctl s) -> gps_edge s = Ok s' -> ctl_ok (ctl s').
Proof.
  intros Hc H. unfold gps_edge in H.
  destruct (negb _); [| injection H as <-; exact Hc].
  apply bind_Ok in H. destruct H as (c & Hd & H). injection H as <-. cbn [ctl].
  destruct (negb _); [injection Hd as <-; exact Hc |].
  destruct (mode (ctl s) >? 0) eqn:E; [| injection Hd as <-; exact Hc].
  rewrite Z.gtb_ltb in E. apply Z.ltb_lt in E.
  apply (downgrade_mode_ctl_ok (ctl s)); auto.
  destruct Hc as (Hm & _). unfold mode_ok in Hm. lia.
Qed.

Lemma osc_edge_ctl_ok (o : Z) (s s' : system) :
  ctl_ok (ctl s) -> osc_edge o s = Ok s' -> ctl_ok (ctl s').
Proof.
  intros Hc H. unfold osc_edge in H.
  destruct (negb _); [| injection H as <-; exact Hc].
  apply bind_Ok in H. destruct H as (c & Hd & H). injection H as <-. cbn [ctl].
  destruct (negb _); [injection Hd as <-; exact Hc |].
  apply (reset_pll_ctl_ok _ _ (ctl_ok_write 0 false _ Hc) Hd).
Qed.

Lemma button_write_ctl_ok (b : bool) (c c' : control) :
  ctl_ok c -> button_write b c = Ok c' -> ctl_ok c'.
Proof.
  intros Hc H. unfold button_write in H.
  destruct (b && _); [| injection H as <-; exact Hc].
  apply bind_Ok in H. destruct H as (v & _ & H). injection H as <-.
  apply ctl_ok_write, Hc.
Qed.

Lemma loop_head_ctl_ok (inp : inputs) (s s' : system) :
  ctl_ok (ctl s) -> loop_head inp s = Ok s' -> ctl_ok (ctl s').
Proof.
  intros Hc H. unfold loop_head in H.
  apply bind_Ok in H. destruct H as (sa & Ha & H).
  apply bind_Ok in H. destruct H as (sb & Hb & H).
  pose proof (gps_edge_ctl_ok _ _ Hc Ha) as Hca.
  pose proof (osc_edge_ctl_ok _ _ _ Hca Hb) as Hcb.
  destruct (negb _ && clk_rc32m sb).
  - injection H as <-. exact Hcb.
  - apply bind_Ok in H. destruct H as (c & Hbw & H).
    pose proof (button_write_ctl_ok _ _ _ Hcb Hbw) as Hcc.
    cbn [last_pps_count set_ctl cap nav pps_count] in H.
    destruct (last_pps_count sb =? pps_count (cap sb)).
    + injection H as <-. exact Hcc.
    + destruct (pps_err_buf (nav sb)) as [| x l].
      * injection H as <-. exact Hcc.
      * destruct (_ || _); injection H as <-; exact Hcc.
Qed.

Lemma update_filters_frame (tc cpe icd sd : Z) (c c' : control) :
  update_filters tc cpe icd sd c = Ok c' ->
  mode c' = mode c /\ exit_timer c' = exit_timer c /\
  enter_timer c' = enter_timer c /\ last_dac_value c' = last_dac_value c /\
  osc_out c' = osc_out c /\ iTerm c' = iTerm c /\ trim_value c' = trim_value c.
Proof.
  intros H. unfold update_filters in H.
  apply bind_Ok in H. destruct H as (a & _ & H).
  apply bind_Ok in H. destruct H as (b & _ & H).
  apply bind_Ok in H. destruct H as (d & _ & H).
  apply bind_Ok in H. destruct H as (e & _ & H).
  injection H as <-. simpl. auto 10.
Qed.

Lemma start_tick_ctl_ok (c c' : control) :
  mode c = MODE_START -> ctl_ok c -> start_tick c = Ok c' -> ctl_ok c'.
Proof.
  intros Hm (_ & (Hx & Hn) & Ho) H. unfold start_tick in H.
  apply bind_Ok in H. destruct H as (dv & _ & H).
  set (c0 := set_trim_value c _) in H.
  assert (Hc0 : ctl_ok c0).
  { unfold ctl_ok, mode_ok, timers_ok, c0. cbn [mode exit_timer enter_timer set_trim_value].
    rewrite Hm. unfold MODE_START. split; [lia |]. split; [lia |].
    revert Ho. apply out_ok_same; reflexivity. }
  pose proof (ctl_ok_write dv false c0 Hc0) as Hc1.
  destruct (writeDacValue_keeps dv false c0) as (Em & Ex & En & _).
  set (c1 := writeDacValue dv false c0) in *.
  assert (Hx1 : exit_timer c1 = exit_timer c) by (rewrite Ex; reflexivity).
  assert (Hm1 : mode c1 = MODE_START) by (rewrite Em; exact Hm).
  destruct Hc1 as (_ & (_ & Hn1) & Ho1).
  assert (Hw : wrap16u (exit_timer c1 + 1) = exit_timer c + 1)
    by (rewrite Hx1; unfold wrap16u; apply Z.mod_small; lia).
  destruct (Qle_bool _ _).
  - cbv zeta in H. cbn [exit_timer set_exit_timer average_phase_error] in H.
    rewrite Hw in H.
    destruct ((60 <=? exit_timer c + 1) && _ || (600 <=? exit_timer c + 1)) eqn:E;
      injection H as <-.
    + unfold ctl_ok, mode_ok, timers_ok.
      cbn [mode exit_timer enter_timer set_exit_timer set_mode].
      unfold MODE_FAST. split; [lia |]. split; [lia |].
      revert Ho1. apply out_ok_same; reflexivity.
    + apply orb_false_iff in E. destruct E as [_ E]. apply Z.leb_gt in E.
      unfold ctl_ok, mode_ok, timers_ok.
      cbn [mode exit_timer enter_timer set_exit_timer]. rewrite Hm1.
      unfold MODE_START. split; [lia |]. split; [lia |].
      revert Ho1. apply out_ok_same; reflexivity.
  - injection H as <-. unfold ctl_ok, mode_ok, timers_ok.
    cbn [mode exit_timer enter_timer set_exit_timer]. rewrite Hm1.
    unfold MODE_START. split; [lia |]. split; [lia |].
    revert Ho1. apply out_ok_same; reflexivity.
Qed.

Lemma try_upgrade_ctl_ok (c c' : control) :
  1 <= mode c <= 3 -> ctl_ok c -> try_upgrade c = Ok c' ->
  ctl_ok c' /\ 1 <= mode c' <= 3.
Proof.
  intros Hm (_ & (Hx & Hn) & Ho) H.
  assert (Ew : wrap16u (exit_timer c + 1) = exit_timer c + 1)
    by (unfold wrap16u; apply Z.mod_small; lia).
  destruct (try_upgrade_cases c c' Hm H)
    as [(Es & ->) | [(Es & Ha & ->) | [(Es & Ha & Ht & ->) | (Es & Ha & Ht & ->)]]];
    rewrite ?Ew in *; unfold MODE_SLOW in *;
    unfold ctl_ok, mode_ok, timers_ok;
    cbn [mode exit_timer enter_timer set_iTerm set_mode set_exit_timer];
    (split; [split; [lia |]; split; [nia |]; revert Ho; apply out_ok_same; reflexivity
            | lia]).
Qed.

Lemma try_downgrade_ctl_ok (c c' : control) :
  1 <= mode c <= 3 -> ctl_ok c -> try_downgrade c = Ok c' ->
  ctl_ok c' /\ 1 <= mode c' <= 3.
Proof.
  intros Hm Hc H.
  destruct (try_downgrade_cases c c' H)
    as [(_ & ->) | [(Ef & He & ->) | [(Ef & _ & _ & Hx) | (_ & _ & _ & ->)]]];
    try (split; [exact Hc | exact Hm]).
  - destruct Hc as (_ & (Hx & Hn) & Ho).
    assert (Ew : wrap16u (enter_timer c - 1) = enter_timer c - 1)
      by (unfold wrap16u; apply Z.mod_small; lia).
    rewrite Ew. unfold ctl_ok, mode_ok, timers_ok.
    cbn [mode exit_timer enter_timer set_enter_timer].
    split; [| lia]. split; [lia |]. split; [lia |].
    revert Ho. apply out_ok_same; reflexivity.
  - split; [apply (downgrade_mode_ctl_ok c c' Hm Hc Hx) |].
    rewrite downgrade_mode_ok in Hx by exact Hm. injection Hx as <-.
    cbn [mode]. unfold MODE_FAST in Ef. lia.
Qed.

Lemma pi_update_ctl_ok (tc : Z) (c c' : control) :
  ctl_ok c -> pi_update tc c = Ok c' -> ctl_ok c' /\ mode c' = mode c.
Proof.
  intros (Hm & Ht & Ho) H. unfold pi_update in H.
  apply bind_Ok in H. destruct H as (i & _ & H).
  apply bind_Ok in H. destruct H as (adj & _ & H).
  apply bind_Ok in H. destruct H as (dv & _ & H).
  injection H as <-.
  destruct (writeDacValue_keeps dv false (set_iTerm c (iTerm c + i))) as (Em & _).
  split; [| rewrite Em; reflexivity].
  apply ctl_ok_write. unfold ctl_ok. split; [exact Hm |]. split; [exact Ht |].
  revert Ho. apply out_ok_same; reflexivity.
Qed.

Lemma offload_ctl_ok (tc : Z) (c : control) :
  ctl_ok c -> ctl_ok (offload tc c).
Proof.
  intros (Hm & Ht & Ho). unfold offload.
  destruct (Qltb _ _); [| unfold ctl_ok; auto].
  unfold ctl_ok. split; [exact Hm |]. split; [exact Ht |].
  revert Ho. apply out_ok_same; reflexivity.
Qed.

Lemma pll_tick_ctl_ok (c c' : control) :
  1 <= mode c <= 3 -> ctl_ok c -> pll_tick c = Ok c' -> ctl_ok c'.
Proof.
  intros Hm Hc H. unfold pll_tick in H.
  destruct (Qle_bool _ _); [apply (reset_pll_ctl_ok c c' Hc H) |].
  apply bind_Ok in H. destruct H as (cu & Hu & H).
  apply bind_Ok in H. destruct H as (cd & Hd & H).
  apply bind_Ok in H. destruct H as (c1 & Hpi & H).
  injection H as <-.
  destruct (try_upgrade_ctl_ok _ _ Hm Hc Hu) as [Hcu Hmu].
  destruct (try_downgrade_ctl_ok _ _ Hmu Hcu Hd) as [Hcd Hmd].
  destruct (pi_update_ctl_ok _ _ _ Hcd Hpi) as [Hc1 _].
  apply offload_ctl_ok, Hc1.
Qed.

Lemma control_tick_ctl_ok (temp : list Z) (s s' : system) :
  ctl_ok (ctl s) -> control_tick temp s = Ok s' -> ctl_ok (ctl s').
Proof.
  intros Hc H. unfold control_tick in H.
  destruct (cycle_deltas (irq_time_span (cap s))) as [sd icd].
  apply bind_Ok in H. destruct H as (q & _ & H).
  destruct (q >? F_CPU / 10000); [injection H as <-; exact Hc |].
  apply bind_Ok in H. destruct H as (cpe & _ & H).
  apply bind_Ok in H. destruct H as (c1 & Hf & H).
  apply bind_Ok in H. destruct H as (c2 & Ht & H).
  injection H as <-. cbn [ctl].
  destruct (update_filters_frame _ _ _ _ _ _ Hf) as (Em & Ex & En & El & Eo & _).
  assert (Hc1 : ctl_ok c1).
  { destruct Hc as (Hm & Htm & Ho).
    unfold ctl_ok, mode_ok, timers_ok. rewrite Em, Ex, En.
    split; [exact Hm |]. split; [exact Htm |].
    revert Ho. apply out_ok_same; assumption. }
  destruct (mode c1 =? MODE_START) eqn:E.
  - apply Z.eqb_eq in E. apply (start_tick_ctl_ok c1 c2 E Hc1 Ht).
  - apply Z.eqb_neq in E. apply (pll_tick_ctl_ok c1 c2); auto.
    destruct Hc1 as (Hm & _). unfold mode_ok, MODE_START in *. lia.
Qed.

Lemma step_ctl_ok (e : event) (s s' : system) :
  ctl_ok (ctl s) -> step e s = Ok s' -> ctl_ok (ctl s').
Proof.
  intros Hc. destruct e as [t a | ch | inp]; simpl.
  - intros H. injection H as <-. exact Hc.
  - unfold USARTC0_RXC_vect.
    destruct (_ && _); [intros H; injection H as <-; exact Hc |].
    destruct (_ || _).
    + intros H. apply bind_Ok in H. destruct H as (g & _ & H).
      injection H as <-. exact Hc.
    + destruct (_ =? RX_BUF_LEN); intros H; injection H as <-; exact Hc.
  - unfold main_step. destruct (pc s) as [| | temp].
    + apply loop_head_ctl_ok, Hc.
    + intros H. injection H as <-. exact Hc.
    + apply control_tick_ctl_ok, Hc.
Qed.

Lemma reachable_ctl_ok (s : system) : reachable s -> ctl_ok (ctl s).
Proof.
  induction 1 as [| e s s' _ IH H].
  - unfold ctl_ok, mode_ok, timers_ok. simpl. unfold MODE_START.
    split; [lia |]. split; [lia |]. exists []. simpl. auto.
  - exact (step_ctl_ok e s s' IH H).
Qed.

(** X17: in every reachable state [exit_timer] is at most 799 and
    [enter_timer] at most 300, so neither 16-bit counter ever wraps. *)
Theorem reachable_timers_ok (s : system) :
  reachable s ->
  0 <= exit_timer (ctl s) <= 799 /\ 0 <= enter_timer (ctl s) <= 300.
Proof.
  intros H. destruct (reachable_ctl_ok s H) as (_ & Ht & _). exact Ht.
Qed.

(** X18: in every reachable state the bytes written to the oscillator
    are a sequence of whole tuning frames, no frame carries the value of
    the frame before it (nor the first the initial 0x7fffffff), and
    [last_dac_value] is the value of the last frame. *)
Theorem reachable_out_ok (s : system) :
  reachable s ->
  exists cmds,
    osc_out (ctl s) = frames cmds /\
    no_repeat 0x7fffffff cmds /\
    last_dac_value (ctl s) = last (map fst cmds) 0x7fffffff.
Proof.
  intros H. destruct (reachable_ctl_ok s H) as (_ & _ & Ho). exact Ho.
Qed.

Lemma reachable_timers_ok_witness :
  exists s,
    run half_minute_in_start boot = Ok s /\
    0 <= exit_timer (ctl s) <= 799 /\ 0 <= enter_timer (ctl s) <= 300.
Proof.
  eassert (Hrun : run half_minute_in_start boot = Ok _) by (vm_compute; reflexivity).
  eexists. split; [exact Hrun |].
  apply reachable_timers_ok.
  apply (run_reachable _ _ _ reach_boot Hrun).
Defined.

Lemma reachable_out_ok_witness :
  exists s,
    run (lock_up ++ nominal_seconds "0.0" 2 1) boot = Ok s /\
    osc_out (ctl s) = dac_frame 0 false /\
    exists cmds,
      osc_out (ctl s) = frames cmds /\
      no_repeat 0x7fffffff cmds /\
      last_dac_value (ctl s) = last (map fst cmds) 0x7fffffff.
Proof.
  eassert (Hrun : run (lock_up ++ nominal_seconds "0.0" 2 1) boot = Ok _)
    by (vm_compute; reflexivity).
  eexists. split; [exact Hrun |]. split; [reflexivity |].
  apply reachable_out_ok.
  apply (run_reachable _ _ _ reach_boot Hrun).
Defined.

(** ** Demotion *)

Lemma pi_update_timers (tc : Z) (c c' : control) :
  pi_update tc c = Ok c' ->
  mode c' = mode c /\ exit_timer c' = exit_timer c /\ enter_timer c' = enter_timer c.
Proof.
  intros H. unfold pi_update in H.
  apply bind_Ok in H. destruct H as (i & _ & H).
  apply bind_Ok in H. destruct H as (adj & _ & H).
  apply bind_Ok in H. destruct H as (dv & _ & H).
  injection H as <-.
  destruct (writeDacValue_keeps dv false (set_iTerm c (iTerm c + i))) as (Em & Ex & En & _).
  rewrite Em, Ex, En. auto.
Qed.

Lemma offload_timers (tc : Z) (c : control) :
  mode (offload tc c) = mode c /\ exit_timer (offload tc c) = exit_timer c /\
  enter_timer (offload tc c) = enter_timer c.
Proof. unfold offload. destruct (Qltb _ _); simpl; auto. Qed.

(** X16: on a phase-locked tick that does not reset, the mode goes
    down only by one, only from Med or Slow, only with [enter_timer] at
    zero and an averaged phase error of [50 * mode] ns or more, and then
    [enter_timer] is set to [100 * mode]; in Fast mode, or while
    [enter_timer] is positive, the mode does not go down, and a positive
    [enter_timer] outside Fast mode is counted down by one. *)
Theorem pll_tick_demotion (c c' : control) :
  1 <= mode c <= 3 ->
  0 <= enter_timer c <= 65535 ->
  Qle_bool (5 # 10) (fabs (average_pps_error c)) = false ->
  pll_tick c = Ok c' ->
  (mode c' < mode c ->
   mode c' = mode c - 1 /\ 2 <= mode c /\ enter_timer c = 0 /\
   (50 * inject_Z (mode c) <= Qabs (average_phase_error c))%Q /\
   enter_timer c' = 100 * mode c) /\
  (mode c = MODE_FAST \/ 0 < enter_timer c -> mode c <= mode c') /\
  (mode c <> MODE_FAST -> mode c' <= mode c -> 0 < enter_timer c ->
   enter_timer c' = enter_timer c - 1).
Proof.
  intros Hm Hen Hnr H. unfold pll_tick in H. rewrite Hnr in H.
  apply bind_Ok in H. destruct H as (cu & Hu & H).
  apply bind_Ok in H. destruct H as (cd & Hd & H).
  apply bind_Ok in H. destruct H as (c1 & Hpi & H).
  injection H as <-.
  destruct (pi_update_timers _ _ _ Hpi) as (Em1 & _ & En1).
  destruct (offload_timers (mode_to_tc (mode cd)) c1) as (Em2 & _ & En2).
  rewrite Em2, En2, Em1, En1. clear Em2 En2 Em1 En1 Hpi.
  destruct (try_upgrade_cases c cu Hm Hu)
    as [(Es & ->) | [(Es & Ha & ->) | [(Es & Ha & Ht & ->) | (Es & Ha & Ht & ->)]]].
  - (* Slow: no promotion *)
    destruct (try_downgrade_cases c cd Hd)
      as [(Ef & ->) | [(Ef & He & ->) | [(Ef & He & Hb & Hx) | (Ef & He & Hb & ->)]]];
      cbn [mode enter_timer set_enter_timer]; unfold MODE_FAST, MODE_SLOW in *.
    + split; [lia |]. split; [lia | lia].
    + split; [lia |]. split; [lia |]. intros _ _ _.
      unfold wrap16u. apply Z.mod_small. lia.
    + rewrite downgrade_mode_ok in Hx by exact Hm. apply Ok_inj in Hx. subst cd.
      cbn [mode enter_timer]. split; [intros _ | split; [lia | lia]].
      split; [reflexivity |]. split; [lia |]. split; [lia |]. split; [exact Hb | reflexivity].
    + split; [lia |]. split; [lia | lia].
  - (* phase error above 5: no promotion *)
    set (cx := set_exit_timer c 0) in *.
    assert (Hmx : 1 <= mode cx <= 3) by exact Hm.
    destruct (try_downgrade_cases cx cd Hd)
      as [(Ef & ->) | [(Ef & He & ->) | [(Ef & He & Hb & Hx) | (Ef & He & Hb & ->)]]];
      unfold cx in *;
      cbn [mode enter_timer average_phase_error set_enter_timer set_exit_timer] in *;
      unfold MODE_FAST, MODE_SLOW in *.
    + split; [lia |]. split; [lia | lia].
    + split; [lia |]. split; [lia |]. intros _ _ _.
      unfold wrap16u. apply Z.mod_small. lia.
    + rewrite downgrade_mode_ok in Hx by exact Hmx. apply Ok_inj in Hx. subst cd.
      cbn [mode enter_timer set_exit_timer]. split; [intros _ | split; [lia | lia]].
      split; [reflexivity |]. split; [lia |]. split; [lia |]. split; [exact Hb | reflexivity].
    + split; [lia |]. split; [lia | lia].
  - (* counting towards a promotion *)
    set (cx := set_exit_timer c _) in *.
    assert (Hmx : 1 <= mode cx <= 3) by exact Hm.
    destruct (try_downgrade_cases cx cd Hd)
      as [(Ef & ->) | [(Ef & He & ->) | [(Ef & He & Hb & Hx) | (Ef & He & Hb & ->)]]];
      unfold cx in *;
      cbn [mode enter_timer average_phase_error set_enter_timer set_exit_timer] in *;
      unfold MODE_FAST, MODE_SLOW in *.
    + split; [lia |]. split; [lia | lia].
    + split; [lia |]. split; [lia |]. intros _ _ _.
      unfold wrap16u. apply Z.mod_small. lia.
    + rewrite downgrade_mode_ok in Hx by exact Hmx. apply Ok_inj in Hx. subst cd.
      cbn [mode enter_timer set_exit_timer]. split; [intros _ | split; [lia | lia]].
      split; [reflexivity |]. split; [lia |]. split; [lia |]. split; [exact Hb | reflexivity].
    + split; [lia |]. split; [lia | lia].
  - (* promoted: the phase error is within 5, far below the demotion bound *)
    set (cx := set_iTerm _ _) in *.
    assert (Hmx : mode cx = mode c + 1) by reflexivity.
    assert (Hax : average_phase_error cx = average_phase_error c) by reflexivity.
    assert (Hex : enter_timer cx = enter_timer c) by reflexivity.
    unfold MODE_SLOW in Es.
    destruct (try_downgrade_cases cx cd Hd)
      as [(Ef & ->) | [(Ef & He & ->) | [(Ef & He & Hb & Hx) | (Ef & He & Hb & ->)]]];
      cbn [mode enter_timer set_enter_timer]; rewrite ?Hmx, ?Hex; unfold MODE_FAST in *.
    + split; [lia |]. split; [lia | lia].
    + split; [lia |]. split; [lia | lia].
    + exfalso. rewrite Hax, Hmx in Hb.
      assert (H100 : (inject_Z 100 <= inject_Z 50 * inject_Z (mode c + 1))%Q)
        by (rewrite <- inject_Z_mult, <- Zle_Qle; lia).
      pose proof (Qle_trans _ _ _ (Qle_trans _ _ _ H100 Hb) Ha) as F.
      unfold Qle in F. simpl in F. lia.
    + split; [lia |]. split; [lia | lia].
Qed.

Lemma pll_tick_demotion_witness :
  exists c',
    pll_tick (mkControl 0 0 0 150 0 MODE_SLOW 0 0 []) = Ok c' /\
    mode c' = MODE_MED /\ enter_timer c' = 300.
Proof.
  eassert (Hrun : pll_tick (mkControl 0 0 0 150 0 MODE_SLOW 0 0 []) = Ok _)
    by (vm_compute; reflexivity).
  eexists. split; [exact Hrun |].
  pose proof (fun H1 H2 H3 => pll_tick_demotion _ _ H1 H2 H3 Hrun) as P.
  destruct P as (H & _).
  - unfold MODE_SLOW. simpl. lia.
  - simpl. lia.
  - reflexivity.
  - destruct H as (Hm & _ & _ & _ & He); [reflexivity |].
    split; [exact Hm | exact He].
Defined.

(** ** The non-volatile write *)

(** X19: the write on a push of the button either changes nothing, or
    it happens on a push in Slow mode and appends one frame with the
    persistent opcode 0x2c carrying the truncated trim value, which then
    differs from the value written last; so a push while the truncated
    trim value equals the value written last stores nothing. *)
Theorem button_write_persists (pushed : bool) (c c' : control) :
  button_write pushed c = Ok c' ->
  c' = c \/
  (pushed = true /\ mode c = MODE_SLOW /\
   to_long (inject_Z DAC_SIGN * trim_value c) = Ok (last_dac_value c') /\
   last_dac_value c' <> last_dac_value c /\
   osc_out c' = osc_out c ++ dac_frame (last_dac_value c') true /\
   hd 0 (dac_frame (last_dac_value c') true) = 0x2c /\
   trim_value c' = trim_value c /\ iTerm c' = iTerm c /\ mode c' = mode c).
Proof.
  unfold button_write.
  destruct pushed; cbn [andb]; [| intros H; injection H as <-; left; reflexivity].
  destruct (mode c =? MODE_SLOW) eqn:Em; [| intros H; injection H as <-; left; reflexivity].
  apply Z.eqb_eq in Em.
  destruct (to_long (inject_Z DAC_SIGN * trim_value c)) as [v | f]; [| discriminate].
  cbn [bind]. intros H. apply Ok_inj in H. subst c'.
  unfold writeDacValue. destruct (v =? last_dac_value c) eqn:E; [left; reflexivity |].
  apply Z.eqb_neq in E. right. cbn [last_dac_value osc_out trim_value iTerm mode].
  repeat (split; [first [reflexivity | assumption] |]). reflexivity.
Qed.

Lemma button_write_persists_witness :
  button_write true (mkControl 100 0 (1002 # 10) 0 0 MODE_SLOW 0 0 []) =
  Ok (mkControl 100 0 (1002 # 10) 0 0 MODE_SLOW 0 0 []) /\
  button_write true (mkControl 99 0 (1002 # 10) 0 0 MODE_SLOW 0 0 []) =
  Ok (mkControl 100 0 (1002 # 10) 0 0 MODE_SLOW 0 0 (dac_frame 100 true)).
Proof.
  split; [reflexivity |].
  assert (H : button_write true (mkControl 99 0 (1002 # 10) 0 0 MODE_SLOW 0 0 []) =
              Ok (mkControl 100 0 (1002 # 10) 0 0 MODE_SLOW 0 0 (dac_frame 100 true)))
    by reflexivity.
  destruct (button_write_persists _ _ _ H) as [E | (_ & _ & _ & _ & _)];
    [discriminate E | exact H].
Defined.

(** ** Free running *)

(** X20: a pass of the loop while the receiver has no fix or the
    oscillator reports no lock fuses no observation and leaves the capture
    registers alone; when a pulse and its quantization-error text were
    pending (and the clock switch is not what the pass does), the pulse is
    marked as seen and the text is dropped. *)
Theorem unlocked_pass (inp : inputs) (s s' : system) :
  pc s = AtHead ->
  gps_locked (nav s) = 0 \/ osc_lock_pin inp = false ->
  main_iter inp s = Ok s' ->
  pc s' = AtHead /\ fused s' = fused s /\ cap s' = cap s /\
  (osc_lock_pin inp = false \/ clk_rc32m s = false ->
   last_pps_count s <> pps_count (cap s) ->
   pps_err_buf (nav s) <> [] ->
   last_pps_count s' = pps_count (cap s) /\ pps_err_buf (nav s') = []).
Proof.
  intros Hpc Hu H. unfold main_iter in H.
  apply bind_Ok in H. destruct H as (s1 & H1 & H).
  assert (K : pc s1 = AtHead /\ fused s1 = fused s /\ cap s1 = cap s /\
              (osc_lock_pin inp = false \/ clk_rc32m s = false ->
               last_pps_count s <> pps_count (cap s) ->
               pps_err_buf (nav s) <> [] ->
               last_pps_count s1 = pps_count (cap s) /\ pps_err_buf (nav s1) = [])).
  { clear H. unfold loop_head in H1.
    apply bind_Ok in H1. destruct H1 as (sa & Ha & H).
    apply bind_Ok in H. destruct H as (sb & Hb & H).
    destruct (gps_edge_frame _ _ Ha) as (Hc1 & Hn1 & _ & _ & Hl1 & Hk1 & Hp1 & Hf1).
    destruct (osc_edge_frame _ _ _ Hb) as (Hc2 & Hn2 & _ & _ & Hl2 & Hk2 & Hp2 & Hf2).
    assert (Hf : fused sb = fused s) by congruence.
    assert (Hc : cap sb = cap s) by congruence.
    assert (Hn : nav sb = nav s) by congruence.
    assert (Hp : pc sb = AtHead) by congruence.
    assert (Hl : last_pps_count sb = last_pps_count s) by congruence.
    assert (Hk : clk_rc32m sb = clk_rc32m s) by congruence.
    destruct (negb ((if osc_lock_pin inp then 1 else 0) =? 0) && clk_rc32m sb) eqn:Eclk.
    - apply Ok_inj in H. subst s1. cbn [pc fused cap].
      split; [reflexivity |]. split; [exact Hf |]. split; [exact Hc |].
      intros Hx. exfalso. apply andb_true_iff in Eclk. destruct Eclk as [Eo Ek].
      destruct Hx as [Hx | Hx]; [rewrite Hx in Eo; discriminate Eo | congruence].
    - apply bind_Ok in H. destruct H as (c & _ & H).
      cbn [last_pps_count set_ctl cap nav pps_count] in H.
      rewrite Hl, Hc, Hn in H.
      destruct (last_pps_count s =? pps_count (cap s)) eqn:Ec.
      + apply Ok_inj in H. subst s1. cbn [pc fused cap set_ctl].
        split; [exact Hp |]. split; [exact Hf |]. split; [exact Hc |].
        intros _ Hne. apply Z.eqb_eq in Ec. contradiction.
      + destruct (pps_err_buf (nav s)) as [| x l] eqn:El.
        * apply Ok_inj in H. subst s1. cbn [pc fused cap set_ctl].
          split; [exact Hp |]. split; [exact Hf |]. split; [exact Hc |].
          intros _ _ Hne. contradiction.
        * assert (Eu : (gps_locked (nav s) =? 0)
                       || ((if osc_lock_pin inp then 1 else 0) =? 0) = true).
          { destruct Hu as [E | E]; rewrite E; [reflexivity | apply orb_true_r]. }
          rewrite Eu in H. apply Ok_inj in H. subst s1.
          cbn [pc fused cap nav last_pps_count pps_err_buf set_nav set_ctl
               set_pps_err_buf].
          split; [exact Hp |]. split; [exact Hf |]. split; [reflexivity |].
          intros _ _ _. split; reflexivity. }
  destruct K as (Kp & Kf & Kc & Kl). rewrite Kp in H. apply Ok_inj in H. subst s'.
  auto.
Qed.

Lemma unlocked_pass_witness :
  exists s',
    main_iter (mkInputs false false)
      (mkSystem (mkControl 0 0 0 0 0 MODE_FAST 0 0 [])
         (mkCapture 7 1000 F_CPU 0) (mkGps 1 [53] [] [] []) [] 0 1 6 false AtHead [])
    = Ok s' /\
    fused s' = [] /\ last_pps_count s' = 7 /\ pps_err_buf (nav s') = [].
Proof.
  eassert (Hrun : main_iter (mkInputs false false)
      (mkSystem (mkControl 0 0 0 0 0 MODE_FAST 0 0 [])
         (mkCapture 7 1000 F_CPU 0) (mkGps 1 [53] [] [] []) [] 0 1 6 false AtHead [])
    = Ok _) by (vm_compute; reflexivity).
  eexists. split; [exact Hrun |].
  pose proof (fun H1 H2 => unlocked_pass _ _ _ H1 H2 Hrun) as P.
  destruct P as (_ & Hf & _ & Hl).
  - reflexivity.
  - right. reflexivity.
  - split; [exact Hf |]. apply Hl.
    + left. reflexivity.
    + simpl. discriminate.
    + simpl. discriminate.
Defined.

(** ** The transmit queue *)

Lemma set_nth_length (i : nat) (b : Z) (l : list Z) :
  List.length (set_nth i b l) = List.length l.
Proof.
  revert i. induction l as [| x l IH]; intros [| i]; simpl; auto.
Qed.

Lemma nth_set_nth_eq (i : nat) (b d : Z) (l : list Z) :
  (i < List.length l)%nat -> nth i (set_nth i b l) d = b.
Proof.
  revert i. induction l as [| x l IH]; intros [| i] H; simpl in *; try lia; auto.
  apply IH. lia.
Qed.

Lemma nth_set_nth_neq (i j : nat) (b d : Z) (l : list Z) :
  i <> j -> nth j (set_nth i b l) d = nth j l d.
Proof.
  revert i j. induction l as [| x l IH]; intros [| i] [| j] H; simpl; auto; try lia.
Qed.

Lemma buf_in_use_eq (q : txq) :
  0 <= txbuf_head q < TX_BUF_LEN -> 0 <= txbuf_tail q < TX_BUF_LEN ->
  buf_in_use q = tx_in_use q.
Proof.
  unfold buf_in_use, tx_in_use, TX_BUF_LEN, wrap16s, wrap16u. intros Hh Ht.
  destruct (Z_lt_ge_dec (txbuf_head q) (txbuf_tail q)) as [L | G].
  - replace ((txbuf_head q - txbuf_tail q) mod 65536)
      with (txbuf_head q - txbuf_tail q + 65536)
      by (apply (Z.mod_unique _ _ (-1)); lia).
    replace ((txbuf_head q - txbuf_tail q + 65536 + 32768) mod 65536)
      with (txbuf_head q - txbuf_tail q + 32768)
      by (apply (Z.mod_unique _ _ 1); lia).
    replace (txbuf_head q - txbuf_tail q + 32768 - 32768 <? 0) with true
      by (symmetry; apply Z.ltb_lt; lia).
    apply (Z.mod_unique _ _ (-1)); lia.
  - rewrite (Z.mod_small (txbuf_head q - txbuf_tail q)) by lia.
    rewrite Z.mod_small by lia.
    replace (txbuf_head q - txbuf_tail q + 32768 - 32768 <? 0) with false
      by (symmetry; apply Z.ltb_ge; lia).
    rewrite Z.mod_small by lia. lia.
Qed.

Lemma next_index (i : Z) :
  0 <= i < TX_BUF_LEN ->
  (if wrap16u (i + 1) =? TX_BUF_LEN then 0 else wrap16u (i + 1)) = (i + 1) mod TX_BUF_LEN.
Proof.
  unfold TX_BUF_LEN, wrap16u. intros H. rewrite (Z.mod_small (i + 1) 65536) by lia.
  destruct (i + 1 =? 128) eqn:E.
  - apply Z.eqb_eq in E. rewrite E. reflexivity.
  - apply Z.eqb_neq in E. rewrite Z.mod_small by lia. reflexivity.
Qed.

Lemma tx_in_use_range (q : txq) : 0 <= tx_in_use q < TX_BUF_LEN.
Proof. unfold tx_in_use, TX_BUF_LEN. apply Z.mod_pos_bound. lia. Qed.

(** One more character queued. *)
Lemma tx_char_spec (c : Z) (q q' : txq) :
  tx_ok q -> tx_char c q = Some q' ->
  tx_ok q' /\ tx_pending q' = tx_pending q ++ [c] /\ tx_wire q' = tx_wire q /\
  tx_in_use q < TX_BUF_LEN - 2.
Proof.
  intros (Hlen & Hh & Ht & Hu & Hen) H. unfold tx_char in H.
  rewrite (buf_in_use_eq q Hh Ht) in H.
  destruct (tx_in_use q >=? TX_BUF_LEN - 2) eqn:E; [discriminate |].
  rewrite Z.geb_leb in E. apply Z.leb_gt in E.
  rewrite (next_index _ Hh) in H. injection H as <-.
  pose proof (tx_in_use_range q) as Hr.
  unfold TX_BUF_LEN in *.
  assert (Hn : (txbuf_head q + 1) mod 128 = (txbuf_tail q + (tx_in_use q + 1)) mod 128).
  { unfold tx_in_use, TX_BUF_LEN.
    rewrite <- (Zplus_mod_idemp_r (_ mod 128 + 1)), <- (Zplus_mod_idemp_l (_ mod 128) 1).
    rewrite Z.mod_mod by lia. rewrite Zplus_mod_idemp_l, Zplus_mod_idemp_r.
    f_equal. lia. }
  assert (Hu' : ((txbuf_head q + 1) mod 128 - txbuf_tail q) mod 128 = tx_in_use q + 1).
  { rewrite Hn. rewrite Zminus_mod_idemp_l.
    replace (txbuf_tail q + (tx_in_use q + 1) - txbuf_tail q) with (tx_in_use q + 1) by lia.
    apply Z.mod_small. lia. }
  assert (Hhd : txbuf_head q = (txbuf_tail q + tx_in_use q) mod 128).
  { unfold tx_in_use, TX_BUF_LEN. rewrite Zplus_mod_idemp_r.
    replace (txbuf_tail q + (txbuf_head q - txbuf_tail q)) with (txbuf_head q) by lia.
    symmetry. apply Z.mod_small. lia. }
  split; [| split; [| split; [reflexivity | lia]]].
  - unfold tx_ok, tx_in_use, TX_BUF_LEN. cbn [txbuf txbuf_head txbuf_tail dre_enabled].
    rewrite set_nth_length, Hu'.
    split; [exact Hlen |]. split; [apply Z.mod_pos_bound; lia |].
    split; [exact Ht |]. split; [lia | reflexivity].
  - unfold tx_pending, tx_in_use, TX_BUF_LEN. cbn [txbuf_head txbuf_tail].
    rewrite Hu'. fold TX_BUF_LEN. fold (tx_in_use q).
    replace (Z.to_nat (tx_in_use q + 1)) with (Z.to_nat (tx_in_use q) + 1)%nat by lia.
    rewrite seq_app, map_app. f_equal.
    + apply map_ext_in. intros i Hi. apply in_seq in Hi.
      unfold tx_slot, TX_BUF_LEN. cbn [txbuf txbuf_tail].
      apply nth_set_nth_neq. intros Heq.
      assert (Heq' : txbuf_head q = (txbuf_tail q + Z.of_nat i) mod 128).
      { pose proof (Z.mod_pos_bound (txbuf_tail q + Z.of_nat i) 128). lia. }
      rewrite Hhd in Heq'.
      assert (Hd : (tx_in_use q - Z.of_nat i) mod 128 = 0).
      { replace (tx_in_use q - Z.of_nat i)
          with ((txbuf_tail q + tx_in_use q) - (txbuf_tail q + Z.of_nat i)) by lia.
        rewrite Zminus_mod, Heq', Z.sub_diag. reflexivity. }
      rewrite Z.mod_small in Hd by lia. lia.
    + simpl. unfold tx_slot, TX_BUF_LEN. cbn [txbuf txbuf_tail].
      replace (txbuf_tail q + Z.of_nat (Z.to_nat (tx_in_use q)))
        with (txbuf_tail q + tx_in_use q) by lia.
      rewrite <- Hhd. f_equal. apply nth_set_nth_eq. rewrite Hlen. lia.
Qed.

Lemma tx_char_blocks (c : Z) (q : txq) :
  tx_ok q -> (tx_char c q = None <-> tx_in_use q = TX_BUF_LEN - 2).
Proof.
  intros (Hlen & Hh & Ht & Hu & Hen). unfold tx_char.
  rewrite (buf_in_use_eq q Hh Ht).
  destruct (tx_in_use q >=? TX_BUF_LEN - 2) eqn:E.
  - rewrite Z.geb_leb in E. apply Z.leb_le in E. split; [lia | reflexivity].
  - rewrite Z.geb_leb in E. apply Z.leb_gt in E. split; [discriminate | lia].
Qed.

(** One interrupt served. *)
Lemma dre_spec (q : txq) :
  tx_ok q ->
  tx_ok (USARTC0_DRE_vect q) /\
  tx_wire (USARTC0_DRE_vect q) ++ tx_pending (USARTC0_DRE_vect q) =
  tx_wire q ++ tx_pending q /\
  (tx_in_use q = 0 ->
   dre_enabled (USARTC0_DRE_vect q) = false /\ tx_wire (USARTC0_DRE_vect q) = tx_wire q) /\
  (tx_in_use q <> 0 ->
   tx_in_use (USARTC0_DRE_vect q) = tx_in_use q - 1 /\
   dre_enabled (USARTC0_DRE_vect q) = dre_enabled q /\
   tx_wire (USARTC0_DRE_vect q) = tx_wire q ++ firstn 1 (tx_pending q)).
Proof.
  intros (Hlen & Hh & Ht & Hu & Hen). unfold USARTC0_DRE_vect.
  pose proof (tx_in_use_range q) as Hr. unfold TX_BUF_LEN in *.
  destruct (txbuf_head q =? txbuf_tail q) eqn:E.
  - apply Z.eqb_eq in E.
    assert (H0 : tx_in_use q = 0).
    { unfold tx_in_use. rewrite E, Z.sub_diag. reflexivity. }
    split; [| split; [| split]].
    + unfold tx_ok, tx_in_use, TX_BUF_LEN. cbn [txbuf txbuf_head txbuf_tail dre_enabled].
      fold TX_BUF_LEN. fold (tx_in_use q). unfold TX_BUF_LEN.
      split; [exact Hlen |]. split; [exact Hh |]. split; [exact Ht |].
      split; [exact Hu |]. intros Hne. contradiction.
    + reflexivity.
    + intros _. split; reflexivity.
    + intros Hne. contradiction.
  - apply Z.eqb_neq in E.
    pose proof (next_index _ Ht) as Hni. unfold TX_BUF_LEN in Hni. rewrite Hni. clear Hni.
    assert (Hne : tx_in_use q <> 0).
    { unfold tx_in_use, TX_BUF_LEN. intros H0.
      destruct (Z_lt_ge_dec (txbuf_head q) (txbuf_tail q)) as [L | G].
      - rewrite <- (Z.mod_unique (txbuf_head q - txbuf_tail q) 128 (-1)
                   (txbuf_head q - txbuf_tail q + 128)) in H0; lia.
      - rewrite Z.mod_small in H0; lia. }
    assert (Hu' : (txbuf_head q - (txbuf_tail q + 1) mod 128) mod 128 = tx_in_use q - 1).
    { rewrite Zminus_mod_idemp_r.
      replace (txbuf_head q - (txbuf_tail q + 1)) with (txbuf_head q - txbuf_tail q - 1) by lia.
      unfold tx_in_use, TX_BUF_LEN.
      rewrite <- (Zminus_mod_idemp_l (txbuf_head q - txbuf_tail q)).
      fold TX_BUF_LEN. fold (tx_in_use q). unfold TX_BUF_LEN.
      apply Z.mod_small. lia. }
    assert (Hp : tx_pending q =
                 nth (Z.to_nat (txbuf_tail q)) (txbuf q) 0 ::
                 tx_pending (mkTxq (txbuf q) (txbuf_head q) ((txbuf_tail q + 1) mod 128)
                               (dre_enabled q)
                               (tx_wire q ++ [nth (Z.to_nat (txbuf_tail q)) (txbuf q) 0]))).
    { unfold tx_pending at 1.
      replace (Z.to_nat (tx_in_use q)) with (S (Z.to_nat (tx_in_use q - 1))) by lia.
      rewrite <- cons_seq, <- seq_shift. cbn [map]. rewrite map_map. f_equal.
      - unfold tx_slot, TX_BUF_LEN. rewrite Z.add_0_r, Z.mod_small by lia. reflexivity.
      - unfold tx_pending, tx_in_use, TX_BUF_LEN. cbn [txbuf_head txbuf_tail].
        rewrite Hu'. apply map_ext. intros i.
        unfold tx_slot, TX_BUF_LEN. cbn [txbuf txbuf_tail].
        rewrite Zplus_mod_idemp_l. do 2 f_equal. f_equal. lia. }
    split; [| split; [| split]].
    + unfold tx_ok, tx_in_use, TX_BUF_LEN. cbn [txbuf txbuf_head txbuf_tail dre_enabled].
      rewrite Hu'.
      split; [exact Hlen |]. split; [exact Hh |].
      split; [apply Z.mod_pos_bound; lia |]. split; [lia |].
      intros _. apply Hen. exact Hne.
    + cbn [tx_wire]. rewrite Hp. rewrite <- app_assoc. reflexivity.
    + intros H0. contradiction.
    + intros _. split; [| split].
      * unfold tx_in_use, TX_BUF_LEN. cbn [txbuf_head txbuf_tail]. exact Hu'.
      * reflexivity.
      * cbn [tx_wire]. rewrite Hp. reflexivity.
Qed.

Lemma tx_step_spec (e : tx_event) (q q' : txq) :
  tx_ok q -> tx_step e q = Some q' ->
  tx_ok q' /\
  tx_wire q' ++ tx_pending q' =
  tx_wire q ++ tx_pending q ++ tx_chars [e].
Proof.
  intros Hq. destruct e as [c |]; simpl.
  - intros H. destruct (tx_char_spec c q q' Hq H) as (Hq' & Hp & Hw & _).
    rewrite Hp, Hw. rewrite ?app_nil_r. auto.
  - intros H. injection H as <-. rewrite ?app_nil_r.
    destruct (dre_enabled q); [| auto].
    destruct (dre_spec q Hq) as (Hq' & Hp & _). auto.
Qed.

Lemma tx_run_ok (es : list tx_event) (q q' : txq) :
  tx_ok q -> tx_run es q = Some q' -> tx_ok q'.
Proof.
  revert q. induction es as [| e es IH]; intros q Hq H.
  - simpl in H. injection H as <-. exact Hq.
  - simpl in H. destruct (tx_step e q) as [q1 |] eqn:E; [| discriminate].
    destruct (tx_step_spec e q q1 Hq E) as (Hq1 & _).
    apply (IH q1 Hq1 H).
Qed.

(** X21: for any interleaving of calls of [tx_char] that proceed and of
    the transmit interrupt, the bytes sent followed by the characters still
    queued are the bytes sent and queued before followed by the characters
    passed to [tx_char], in order; and the queue invariant is kept. *)
Theorem tx_fifo (es : list tx_event) (q q' : txq) :
  tx_ok q ->
  tx_run es q = Some q' ->
  tx_ok q' /\
  tx_wire q' ++ tx_pending q' = tx_wire q ++ tx_pending q ++ tx_chars es.
Proof.
  revert q. induction es as [| e es IH]; intros q Hq H.
  - simpl in H. injection H as <-. simpl. rewrite app_nil_r. auto.
  - simpl in H. destruct (tx_step e q) as [q1 |] eqn:E; [| discriminate].
    destruct (tx_step_spec e q q1 Hq E) as (Hq1 & Hs).
    destruct (IH q1 Hq1 H) as (Hq' & Hr). split; [exact Hq' |].
    rewrite Hr. rewrite app_assoc, Hs.
    replace (tx_chars (e :: es)) with (tx_chars [e] ++ tx_chars es)
      by (unfold tx_chars; simpl; rewrite app_nil_r; reflexivity).
    rewrite <- !app_assoc. reflexivity.
Qed.

Lemma tx_boot_ok : tx_ok tx_boot.
Proof.
  unfold tx_ok. split; [reflexivity |].
  split; [unfold TX_BUF_LEN; simpl; lia |]. split; [unfold TX_BUF_LEN; simpl; lia |].
  split; [vm_compute; discriminate |].
  intros H. exfalso. apply H. reflexivity.
Qed.

Lemma tx_fifo_witness :
  exists q,
    tx_run [TxChar 65; TxChar 66; TxDre; TxChar 67] tx_boot = Some q /\
    tx_wire q = [65] /\ tx_pending q = [66; 67].
Proof.
  eassert (Hrun : tx_run [TxChar 65; TxChar 66; TxDre; TxChar 67] tx_boot = Some _)
    by (vm_compute; reflexivity).
  eexists. split; [exact Hrun |].
  destruct (tx_fifo _ _ _ tx_boot_ok Hrun) as (_ & H).
  split; reflexivity.
Defined.

Lemma tx_pending_length (q : txq) :
  Z.of_nat (List.length (tx_pending q)) = tx_in_use q.
Proof.
  unfold tx_pending. rewrite length_map, length_seq.
  pose proof (tx_in_use_range q). lia.
Qed.

(** X22: from start-up on, the two indices stay inside the buffer, at
    most 126 of the 128 places are in use, [tx_char] has to wait exactly
    when 126 are, and the transmit interrupt is enabled whenever a
    character is queued. *)
Theorem tx_queue_bounds (es : list tx_event) (q : txq) :
  tx_run es tx_boot = Some q ->
  0 <= txbuf_head q < TX_BUF_LEN /\ 0 <= txbuf_tail q < TX_BUF_LEN /\
  Z.of_nat (List.length (tx_pending q)) <= TX_BUF_LEN - 2 /\
  (forall c, tx_char c q = None <->
             Z.of_nat (List.length (tx_pending q)) = TX_BUF_LEN - 2) /\
  (tx_pending q <> [] -> dre_enabled q = true).
Proof.
  intros H. pose proof (tx_run_ok _ _ _ tx_boot_ok H) as Hq.
  pose proof Hq as (Hlen & Hh & Ht & Hu & Hen).
  rewrite tx_pending_length.
  split; [exact Hh |]. split; [exact Ht |]. split; [exact Hu |].
  split; [intros c; apply tx_char_blocks; exact Hq |].
  intros Hne. apply Hen. intros H0. apply Hne.
  unfold tx_pending. rewrite H0. reflexivity.
Qed.

Lemma tx_queue_bounds_witness :
  exists q,
    tx_run (map TxChar (repeat 85 126)) tx_boot = Some q /\
    tx_char 85 q = None /\ dre_enabled q = true.
Proof.
  eassert (Hrun : tx_run (map TxChar (repeat 85 126)) tx_boot = Some _)
    by (vm_compute; reflexivity).
  eexists. split; [exact Hrun |].
  destruct (tx_queue_bounds _ _ Hrun) as (_ & _ & _ & Hb & He).
  split; [apply Hb; vm_compute; reflexivity | apply He; vm_compute; discriminate].
Defined.

(** Serving the interrupt [n] times while [n] characters or more are
    queued sends the first [n] of them. *)
Lemma tx_drain_n (n : nat) (q : txq) :
  tx_ok q -> (n <= List.length (tx_pending q))%nat ->
  exists q',
    tx_run (repeat TxDre n) q = Some q' /\ tx_ok q' /\
    tx_wire q' = tx_wire q ++ firstn n (tx_pending q) /\
    tx_pending q' = skipn n (tx_pending q) /\
    (n <> 0%nat -> dre_enabled q' = true).
Proof.
  revert q. induction n as [| n IH]; intros q Hq Hn.
  - exists q. simpl. rewrite app_nil_r. split; [reflexivity |].
    split; [exact Hq |]. split; [reflexivity |]. split; [reflexivity | contradiction].
  - assert (Hne : tx_in_use q <> 0).
    { pose proof (tx_pending_length q). lia. }
    pose proof Hq as (_ & _ & _ & _ & Hen). specialize (Hen Hne).
    destruct (dre_spec q Hq) as (Hq1 & Hf & _ & Hpop).
    destruct (Hpop Hne) as (Hu1 & He1 & Hw1).
    set (q1 := USARTC0_DRE_vect q) in *.
    assert (Hp1 : tx_pending q = firstn 1 (tx_pending q) ++ tx_pending q1).
    { rewrite Hw1 in Hf. rewrite <- app_assoc in Hf.
      apply app_inv_head in Hf. symmetry. exact Hf. }
    assert (Hl1 : List.length (firstn 1 (tx_pending q)) = 1%nat).
    { rewrite length_firstn. lia. }
    assert (Hn1 : (n <= List.length (tx_pending q1))%nat).
    { pose proof (tx_pending_length q). pose proof (tx_pending_length q1). lia. }
    destruct (IH q1 Hq1 Hn1) as (q' & Hrun & Hq' & Hw & Hp & He).
    exists q'. split.
    { change (repeat TxDre (S n)) with (TxDre :: repeat TxDre n).
      cbn [tx_run tx_step]. rewrite Hen. exact Hrun. }
    split; [exact Hq' |].
    assert (Hs : skipn 1 (tx_pending q) = tx_pending q1).
    { apply (app_inv_head (firstn 1 (tx_pending q))).
      rewrite firstn_skipn. exact Hp1. }
    split; [| split].
    + rewrite Hw, Hw1, <- app_assoc. f_equal.
      rewrite <- Hs. destruct (tx_pending q); [simpl in Hn; lia | reflexivity].
    + rewrite Hp, <- Hs. destruct (tx_pending q); [simpl in Hn; lia | reflexivity].
    + intros _. destruct n as [| n'].
      * simpl in Hrun. injection Hrun as <-. rewrite He1. exact Hen.
      * apply He. discriminate.
Qed.

(** X23: served once for each queued character and once more, the
    transmit interrupt has sent all of them in order, left the queue empty
    and disabled itself. *)
Theorem tx_drain (q : txq) :
  tx_ok q ->
  exists q',
    tx_run (repeat TxDre (List.length (tx_pending q) + 1)) q = Some q' /\
    tx_wire q' = tx_wire q ++ tx_pending q /\
    tx_pending q' = [] /\
    dre_enabled q' = false.
Proof.
  intros Hq.
  destruct (tx_drain_n (List.length (tx_pending q)) q Hq (Nat.le_refl _))
    as (q1 & Hrun & Hq1 & Hw & Hp & He).
  rewrite firstn_all in Hw. rewrite skipn_all in Hp.
  assert (H0 : tx_in_use q1 = 0).
  { pose proof (tx_pending_length q1) as Hl. rewrite Hp in Hl. simpl in Hl. lia. }
  destruct (dre_spec q1 Hq1) as (Hq2 & Hf & Hempty & _).
  destruct (Hempty H0) as (Hd & Hw2).
  exists (if dre_enabled q1 then USARTC0_DRE_vect q1 else q1).
  split.
  { rewrite repeat_app. 
    assert (Hra : forall a b x, tx_run a x = Some q1 ->
                   tx_run (a ++ b) x = tx_run b q1).
    { induction a as [| e a IHa]; intros b x Hx; simpl in *.
      - injection Hx as ->. reflexivity.
      - destruct (tx_step e x); [apply IHa; exact Hx | discriminate]. }
    rewrite (Hra _ _ _ Hrun). reflexivity. }
  destruct (dre_enabled q1) eqn:E.
  - rewrite Hw2, Hw. split; [reflexivity |]. split; [| exact Hd].
    rewrite Hw2, Hp, Hw in Hf. apply app_inv_head in Hf. exact Hf.
  - split; [exact Hw |]. split; [exact Hp | exact E].
Qed.

Lemma tx_drain_witness :
  exists q q',
    tx_run [TxChar 79; TxChar 75] tx_boot = Some q /\
    tx_run [TxDre; TxDre; TxDre] q = Some q' /\
    tx_wire q' = [79; 75] /\ dre_enabled q' = false.
Proof.
  eassert (Hrun : tx_run [TxChar 79; TxChar 75] tx_boot = Some _)
    by (vm_compute; reflexivity).
  eexists.
  pose proof (tx_run_ok _ _ _ tx_boot_ok Hrun) as Hq.
  destruct (tx_drain _ Hq) as (q' & H1 & H2 & _ & H4).
  exists q'. split; [exact Hrun |]. split; [exact H1 |]. split; [exact H2 | exact H4].
Defined.

(** X24: [tx_str] has to wait exactly when the string does not fit
    in the free part of the queue (126 characters less those queued);
    when it returns without waiting the string has been appended to the
    queue in order and nothing has been sent. *)
Theorem tx_str_fits (buf : list Z) (q : txq) :
  tx_ok q ->
  (tx_str buf q = None <->
   TX_BUF_LEN - 2 < tx_in_use q + Z.of_nat (List.length buf)) /\
  (forall q', tx_str buf q = Some q' ->
     tx_ok q' /\ tx_pending q' = tx_pending q ++ buf /\ tx_wire q' = tx_wire q).
Proof.
  revert q. induction buf as [| c buf IH]; intros q Hq.
  - simpl. split.
    + split; [discriminate |]. destruct Hq as (_ & _ & _ & Hu & _).
      unfold TX_BUF_LEN in *. lia.
    + intros q' H. injection H as <-. rewrite app_nil_r. auto.
  - cbn [tx_str]. destruct (tx_char c q) as [q1 |] eqn:E.
    + destruct (tx_char_spec c q q1 Hq E) as (Hq1 & Hp & Hw & Hlt).
      destruct (IH q1 Hq1) as (Hnone & Hsome).
      assert (Hu1 : tx_in_use q1 = tx_in_use q + 1).
      { pose proof (tx_pending_length q1) as L1. pose proof (tx_pending_length q) as L.
        rewrite Hp, length_app in L1. simpl in L1. lia. }
      split.
      * rewrite Hnone, Hu1. simpl List.length. unfold TX_BUF_LEN in *. lia.
      * intros q' H. destruct (Hsome q' H) as (Hq' & Hp' & Hw').
        split; [exact Hq' |]. split; [| congruence].
        rewrite Hp', Hp, <- app_assoc. reflexivity.
    + apply (tx_char_blocks c q Hq) in E. split.
      * split; [intros _ | reflexivity]. simpl List.length. unfold TX_BUF_LEN in *. lia.
      * intros q' H. discriminate H.
Qed.

Lemma tx_str_fits_witness :
  exists q,
    tx_str (bytes_of "G_LK") tx_boot = Some q /\
    tx_pending q = bytes_of "G_LK" /\ tx_wire q = [].
Proof.
  eassert (Hrun : tx_str (bytes_of "G_LK") tx_boot = Some _) by (vm_compute; reflexivity).
  eexists. split; [exact Hrun |].
  destruct (tx_str_fits (bytes_of "G_LK") tx_boot tx_boot_ok) as (_ & H).
  destruct (H _ Hrun) as (_ & Hp & Hw). split; [exact Hp | exact Hw].
Defined.

(** ** The push button *)

(** The inverted switch bit is zero exactly when the pin reads high. *)
Lemma status_zero (port_in : Z) :
  (Z.lxor (wrap8u (Z.land port_in SW_BIT)) SW_BIT =? 0) = Z.testbit port_in 5.
Proof.
  unfold SW_BIT, wrap8u.
  assert (H : Z.land port_in 32 = if Z.testbit port_in 5 then 32 else 0).
  { apply Z.bits_inj'. intros n Hn. rewrite Z.land_spec.
    destruct (Z.eq_dec n 5) as [-> | Hne].
    - destruct (Z.testbit port_in 5); reflexivity.
    - replace (Z.testbit 32 n) with false.
      + rewrite andb_false_r. destruct (Z.testbit port_in 5).
        * symmetry. change 32 with (2 ^ 5). apply Z.pow2_bits_false. lia.
        * symmetry. apply Z.bits_0.
      + symmetry. change 32 with (2 ^ 5). apply Z.pow2_bits_false. lia. }
  rewrite H. destruct (Z.testbit port_in 5); reflexivity.
Qed.

(** X25: [check_buttons] always returns (the end marked unreachable
    is not reached), with 0 or 1; it returns 1 exactly when no debounce
    interval is running, the button was up and the pin reads low, and then
    the button is recorded as down; during a debounce interval it changes
    nothing; and the recorded state changes only to what the pin shows. *)
Theorem check_buttons_press (now port_in : Z) (b : buttons) :
  exists b' r,
    check_buttons now port_in b = Ok (b', r) /\
    (r = 1 <->
     debouncing now b = false /\ button_down b = 0 /\ Z.testbit port_in 5 = false) /\
    (r = 0 \/ r = 1) /\
    (r = 1 -> button_down b' = 1) /\
    (debouncing now b = true -> b' = b) /\
    (button_down b' = button_down b \/
     (button_down b' = 0 /\ Z.testbit port_in 5 = true) \/
     (button_down b' = 1 /\ Z.testbit port_in 5 = false)).
Proof.
  unfold check_buttons. fold (debouncing now b).
  destruct (debouncing now b) eqn:Ed.
  { exists b, 0. split; [reflexivity |].
    split; [split; [discriminate | intros (H & _); discriminate] |].
    split; [auto |]. split; [discriminate |]. split; [reflexivity | auto]. }
  cbv zeta. cbn [button_down]. rewrite status_zero.
  destruct (button_down b =? 0) eqn:E0, (Z.testbit port_in 5) eqn:Ep; cbn [xorb negb andb].
  - apply Z.eqb_eq in E0. eexists _, 0. split; [reflexivity |].
    split; [split; [discriminate | intros (_ & _ & H); discriminate] |].
    split; [auto |]. split; [discriminate |]. split; [discriminate | auto].
  - apply Z.eqb_eq in E0. eexists _, 1. split; [reflexivity |].
    split; [split; auto |]. split; [auto |]. split; [reflexivity |].
    split; [discriminate | auto].
  - apply Z.eqb_neq in E0. eexists _, 0. split; [reflexivity |].
    split; [split; [discriminate | intros (_ & H & _); contradiction] |].
    split; [auto |]. split; [discriminate |]. split; [discriminate | auto].
  - apply Z.eqb_neq in E0. eexists _, 0. split; [reflexivity |].
    split; [split; [discriminate | intros (_ & H & _); contradiction] |].
    split; [auto |]. split; [discriminate |]. split; [discriminate | auto].
Qed.

(** X26: a poll that changes the recorded state of the button starts
    a debounce interval at the time of the poll (at 1 when that time is 0),
    and every poll less than [DEBOUNCE_TICKS] after that start returns 0
    and changes nothing, whatever the pin reads. *)
Theorem check_buttons_debounce (now port_in : Z) (b b' : buttons) (r : Z) :
  0 <= now < 4294967296 ->
  check_buttons now port_in b = Ok (b', r) ->
  button_down b' <> button_down b ->
  debounce_time b' = (if now =? 0 then 1 else now) /\
  forall now2 port_in2,
    wrap32u (now2 - debounce_time b') < DEBOUNCE_TICKS ->
    check_buttons now2 port_in2 b' = Ok (b', 0).
Proof.
  intros Hnow H Hch. unfold check_buttons in H. fold (debouncing now b) in H.
  destruct (debouncing now b).
  { injection H as <- <-. contradiction. }
  cbv zeta in H. cbn [button_down] in H. rewrite status_zero in H.
  assert (Ht : (if now =? 0 then wrap32u (now + 1) else now) = (if now =? 0 then 1 else now)).
  { destruct (now =? 0) eqn:E; [apply Z.eqb_eq in E; subst now |]; reflexivity. }
  rewrite Ht in H.
  assert (Hd : debounce_time b' = (if now =? 0 then 1 else now)).
  { destruct (button_down b =? 0), (Z.testbit port_in 5); cbn [xorb negb andb] in H;
      injection H as <- <-; try reflexivity; contradiction. }
  split; [exact Hd |].
  intros now2 port_in2 Hw. unfold check_buttons.
  replace (negb (debounce_time b' =? 0)) with true.
  - apply Z.ltb_lt in Hw. rewrite Hw. reflexivity.
  - symmetry. apply negb_true_iff. apply Z.eqb_neq. rewrite Hd.
    destruct (now =? 0) eqn:E; [lia | apply Z.eqb_neq in E; exact E].
Qed.

Lemma check_buttons_debounce_witness :
  check_buttons 1000 0 (mkButtons 0 0) = Ok (mkButtons 1000 1, 1) /\
  check_buttons (1000 + DEBOUNCE_TICKS - 1) SW_BIT (mkButtons 1000 1) =
  Ok (mkButtons 1000 1, 0) /\
  check_buttons (1000 + DEBOUNCE_TICKS) SW_BIT (mkButtons 1000 1) =
  Ok (mkButtons (1000 + DEBOUNCE_TICKS) 0, 0).
Proof.
  split; [reflexivity |]. split; [| reflexivity].
  assert (H : check_buttons 1000 0 (mkButtons 0 0) = Ok (mkButtons 1000 1, 1)) by reflexivity.
  pose proof (fun H1 H3 => check_buttons_debounce 1000 0 _ _ _ H1 H H3) as P.
  destruct P as (_ & P).
  - lia.
  - simpl. discriminate.
  - apply P. vm_compute. reflexivity.
Defined.

(** ** The LEDs *)

(** X27: with no blink in progress the LED code keeps the button
    state; when locked it shows the mode in binary, LED0 the low bit and
    LED1 the high bit, so the mode can be read back from the two LEDs; when
    unlocked exactly one LED is lit, LED1 in the second and fourth quarter
    of each [F_CPU] timer counts and LED0 in the first and third. *)
Theorem show_leds_spec (now mode : Z) (unlocked : bool) (p : panel) :
  button_blink_time p = 0 ->
  0 <= now < 4294967296 ->
  let p' := show_leds now unlocked mode p in
  switch p' = switch p /\ button_blink_time p' = 0 /\
  (unlocked = false -> 0 <= mode <= 3 ->
   mode = (if led0 p' then 1 else 0) + 2 * (if led1 p' then 1 else 0)) /\
  (unlocked = true ->
   led0 p' = negb (led1 p') /\
   (led1 p' = true <->
    F_CPU / 4 <= now mod F_CPU < F_CPU / 2 \/ 3 * (F_CPU / 4) <= now mod F_CPU)).
Proof.
  intros Hb Hnow. cbv zeta. unfold show_leds. rewrite Hb. cbn [Z.eqb negb].
  destruct unlocked; cbn [negb].
  - set (r := now mod F_CPU).
    assert (Hr : 0 <= r < F_CPU) by (apply Z.mod_pos_bound; reflexivity).
    unfold F_CPU in *. change (30000000 / 4) with 7500000.
    change (30000000 / 2) with 15000000.
    assert (Hw : wrap32u (4 * r) = 4 * r) by (unfold wrap32u; apply Z.mod_small; lia).
    rewrite Hw.
    assert (Hq : 4 * r / 30000000 = 0 /\ r < 7500000 \/
                 4 * r / 30000000 = 1 /\ 7500000 <= r < 15000000 \/
                 4 * r / 30000000 = 2 /\ 15000000 <= r < 22500000 \/
                 4 * r / 30000000 = 3 /\ 22500000 <= r).
    { destruct (Z_lt_ge_dec r 7500000); [left; split; [| lia];
        symmetry; apply (Z.div_unique _ _ 0 (4 * r)); lia |].
      destruct (Z_lt_ge_dec r 15000000); [right; left; split; [| lia];
        symmetry; apply (Z.div_unique _ _ 1 (4 * r - 30000000)); lia |].
      destruct (Z_lt_ge_dec r 22500000); [right; right; left; split; [| lia];
        symmetry; apply (Z.div_unique _ _ 2 (4 * r - 60000000)); lia |].
      right; right; right; split; [| lia].
      symmetry; apply (Z.div_unique _ _ 3 (4 * r - 90000000)); lia. }
    destruct Hq as [[-> Hq] | [[-> Hq] | [[-> Hq] | [-> Hq]]]];
      cbn [Z.land Pos.land Z.eqb negb switch button_blink_time led0 led1];
      (split; [reflexivity |]); (split; [reflexivity |]);
      (split; [discriminate |]); intros _; (split; [reflexivity |]);
      (split; [intros H; try discriminate H; lia | intros H; try reflexivity; lia]).
  - cbn [switch button_blink_time led0 led1].
    split; [reflexivity |]. split; [reflexivity |]. split; [| discriminate].
    intros _ Hm.
    assert (E : mode = 0 \/ mode = 1 \/ mode = 2 \/ mode = 3) by lia.
    destruct E as [-> | [-> | [-> | ->]]]; reflexivity.
Qed.

Lemma show_leds_spec_witness :
  MODE_MED =
  (if led0 (show_leds 40000000 false MODE_MED (mkPanel (mkButtons 0 0) 0 true true))
   then 1 else 0) +
  2 * (if led1 (show_leds 40000000 false MODE_MED (mkPanel (mkButtons 0 0) 0 true true))
       then 1 else 0).
Proof.
  destruct (show_leds_spec 40000000 MODE_MED false (mkPanel (mkButtons 0 0) 0 true true))
    as (_ & _ & H & _).
  - reflexivity.
  - lia.
  - apply H; [reflexivity | unfold MODE_MED; lia].
Defined.

(** ** The blink after a stored value *)

Lemma poll_button_inv (now_poll now_blink port_in mode : Z) (p p' : panel) (w : bool) :
  poll_button now_poll now_blink port_in mode p = Ok (p', w) ->
  led0 p' = led0 p /\ led1 p' = led1 p /\
  (w = true ->
   mode = MODE_SLOW /\ button_blink_time p = 0 /\
   button_blink_time p' = (if now_blink =? 0 then wrap32u (now_blink + 1) else now_blink)) /\
  (w = false -> button_blink_time p' = button_blink_time p).
Proof.
  unfold poll_button. intros H. apply bind_Ok in H. destruct H as ([b r] & _ & H).
  cbn [fst snd] in H.
  destruct (negb (r =? 0) && (mode =? MODE_SLOW) && (button_blink_time p =? 0)) eqn:E;
    injection H as <- <-; cbn [led0 led1 button_blink_time].
  - apply andb_true_iff in E. destruct E as [E E3].
    apply andb_true_iff in E. destruct E as [_ E2].
    apply Z.eqb_eq in E2, E3.
    split; [reflexivity |]. split; [reflexivity |]. split; [auto | discriminate].
  - split; [reflexivity |]. split; [reflexivity |]. split; [discriminate | auto].
Qed.

(** X28: a pass that enters the block storing the trim value is in
    Slow mode and starts the blink at the timer reading taken there (1 if
    that reading is 0); every later pass whose LED code reads the timer no
    more than [BUTTON_BLINK_TICKS] after that start stores nothing, shows
    both LEDs at the same level and leaves the blink running. *)
Theorem blink_locks_out_store
  (now_led now_poll now_blink port_in mode : Z) (unlocked : bool) (p p1 : panel) :
  0 <= now_blink < 4294967296 ->
  panel_pass now_led now_poll now_blink port_in unlocked mode p = Ok (p1, true) ->
  mode = MODE_SLOW /\
  button_blink_time p1 = (if now_blink =? 0 then 1 else now_blink) /\
  forall now_led' now_poll' now_blink' port_in' mode' unlocked' p2 w,
    wrap32u (now_led' - button_blink_time p1) <= BUTTON_BLINK_TICKS ->
    panel_pass now_led' now_poll' now_blink' port_in' unlocked' mode' p1 = Ok (p2, w) ->
    w = false /\ led0 p2 = led1 p2 /\ button_blink_time p2 = button_blink_time p1.
Proof.
  intros Hnow H. unfold panel_pass in H.
  destruct (poll_button_inv _ _ _ _ _ _ _ H) as (_ & _ & Hw & _).
  destruct (Hw eq_refl) as (Hm & _ & Ht).
  assert (Ht' : button_blink_time p1 = (if now_blink =? 0 then 1 else now_blink)).
  { rewrite Ht. destruct (now_blink =? 0) eqn:E; [| reflexivity].
    apply Z.eqb_eq in E. subst now_blink. reflexivity. }
  assert (Hnz : button_blink_time p1 <> 0).
  { rewrite Ht'. destruct (now_blink =? 0) eqn:E; [lia | apply Z.eqb_neq in E; exact E]. }
  split; [exact Hm |]. split; [exact Ht' |].
  intros now_led' now_poll' now_blink' port_in' mode' unlocked' p2 w Hle H2.
  unfold panel_pass in H2.
  set (q := show_leds now_led' unlocked' mode' p1) in *.
  assert (Hq : button_blink_time q = button_blink_time p1 /\ led0 q = led1 q).
  { unfold q, show_leds.
    replace (button_blink_time p1 =? 0) with false by (symmetry; apply Z.eqb_neq; exact Hnz).
    cbn [negb].
    replace (wrap32u (now_led' - button_blink_time p1) >? BUTTON_BLINK_TICKS) with false
      by (symmetry; rewrite Z.gtb_ltb; apply Z.ltb_ge; exact Hle).
    destruct (negb _); cbn [button_blink_time led0 led1]; auto. }
  destruct Hq as [Hqt Hql].
  destruct (poll_button_inv _ _ _ _ _ _ _ H2) as (H0 & H1 & Hw2 & Hf2).
  destruct w.
  - destruct (Hw2 eq_refl) as (_ & Hz & _). rewrite Hqt in Hz. contradiction.
  - split; [reflexivity |]. split; [congruence |]. rewrite (Hf2 eq_refl). exact Hqt.
Qed.

Lemma blink_locks_out_store_witness :
  exists p1 p2,
    panel_pass 500 600 700 0 false MODE_SLOW (mkPanel (mkButtons 0 0) 0 false false)
    = Ok (p1, true) /\
    panel_pass (700 + BUTTON_BLINK_TICKS) (800 + BUTTON_BLINK_TICKS) 900 0 false MODE_SLOW p1
    = Ok (p2, false) /\
    button_blink_time p2 = 700.
Proof.
  eassert (H1 : panel_pass 500 600 700 0 false MODE_SLOW
                  (mkPanel (mkButtons 0 0) 0 false false) = Ok (_, true))
    by (vm_compute; reflexivity).
  match type of H1 with
  | _ = Ok (?p1, _) =>
      eassert (H2 : panel_pass (700 + BUTTON_BLINK_TICKS) (800 + BUTTON_BLINK_TICKS) 900 0
                      false MODE_SLOW p1 = Ok (_, false))
        by (vm_compute; reflexivity)
  end.
  do 2 eexists. split; [exact H1 |]. split; [exact H2 |].
  pose proof (fun Hn => blink_locks_out_store _ _ _ _ _ _ _ _ Hn H1) as P.
  destruct P as (_ & _ & P); [lia |].
  assert (Hle : wrap32u (700 + BUTTON_BLINK_TICKS - 700) <= BUTTON_BLINK_TICKS)
    by (vm_compute; discriminate).
  destruct (P _ _ _ _ _ _ _ _ Hle H2) as (_ & _ & Hb).
  exact Hb.
Defined.
